(** * dispatch-board: the dispatch page, the scrolling table and the HTTP client

    A shallow embedding of the parts of the dashboard that carry behaviour:

    - [Js]: the JavaScript values and built-ins the sources rely on
      (truthiness, [parseInt], [trim], [padStart], [Date] accessors);
    - [FetchHttp]: the retry loop of [FetchHttp.request] (utils/fetch.ts);
    - [DispatchPage]: the transformations and the two loaders of
      pages/DispatchPage.tsx, together with the [ReceiptWarning] banner;
    - [ShippingTable]: the auto-scroll controller of
      components/ShippingTable.tsx;
    - [HttpUrl]: the URLs, the query strings and the token cookie of
      utils/fetch.ts;
    - [Api]: the two variants of [fetchDispatchBoard] and the URL of the
      factory lookup (api/dispatchBoard.ts);
    - [Trends]: the grouping of components/Trends.tsx;
    - [App]: the countdown of App.tsx;
    - [Metrics]: the percentages of the metric cards.

    Definitions come first; the properties follow in the second half. *)

From Stdlib Require Import ZArith List String Ascii Bool Lia DecimalString.
From Stdlib Require Import Floats.SpecFloat.
Import ListNotations.

#[local] Set Warnings "-register-all".

Local Open Scope string_scope.
Local Open Scope Z_scope.

(* ================================================================== *)
(** ** JavaScript values and built-ins                                 *)
(* ================================================================== *)

Module Js.

(** A JS number is an IEEE-754 double; only its class (zero, NaN, infinite,
    finite) and its real value matter to the code modelled here. *)
Definition number := spec_float.

Definition NaN : number := S754_nan.

(** The number denoted by an integer literal (mantissa times [2^0]). *)
Definition number_of_Z (z : Z) : number :=
  match z with
  | Z0 => S754_zero false
  | Zpos p => S754_finite false p 0
  | Zneg p => S754_finite true p 0
  end.

(** [x === z] for a number [x] and an integer literal [z], by real value. *)
Definition number_eqb_Z (x : number) (z : Z) : bool :=
  match x with
  | S754_zero _ => z =? 0
  | S754_finite s m e =>
      let a := Z.abs z in
      negb (z =? 0) && Bool.eqb s (z <? 0) &&
      (if 0 <=? e then Zpos m * 2 ^ e =? a else Zpos m =? a * 2 ^ (- e))
  | _ => false
  end.

(** Values as [response.json()] and the component props deliver them. *)
Inductive value :=
| VUndefined
| VNull
| VBoolean (b : bool)
| VNumber (x : number)
| VString (s : string)
| VObject (props : list (string * value)).

(** ToBoolean: the test of [if], [!], [||], [&&], [?:] and [filter]. *)
Definition ToBoolean (v : value) : bool :=
  match v with
  | VUndefined | VNull => false
  | VBoolean b => b
  | VNumber (S754_zero _) | VNumber S754_nan => false
  | VNumber _ => true
  | VString s => negb (String.eqb s "")
  | VObject _ => true
  end.

(** [a || b] *)
Definition or_else (a b : value) : value := if ToBoolean a then a else b.

Definition typeof (v : value) : string :=
  match v with
  | VUndefined => "undefined"
  | VNull => "object"
  | VBoolean _ => "boolean"
  | VNumber _ => "number"
  | VString _ => "string"
  | VObject _ => "object"
  end.

(** [v === n] for an integer literal [n], and [v === s] for a string literal. *)
Definition strict_eq_Z (v : value) (n : Z) : bool :=
  match v with VNumber x => number_eqb_Z x n | _ => false end.

Definition strict_eq_string (v : value) (lit : string) : bool :=
  match v with VString s => String.eqb s lit | _ => false end.

Fixpoint assoc (k : string) (props : list (string * value)) : option value :=
  match props with
  | [] => None
  | (k', v) :: rest => if String.eqb k' k then Some v else assoc k rest
  end.

(** Property read [v.k]: a TypeError on [null] and [undefined], [undefined]
    for a missing property and for primitives. *)
Definition get_prop (v : value) (k : string) : option value :=
  match v with
  | VUndefined | VNull => None
  | VObject props => Some (match assoc k props with Some x => x | None => VUndefined end)
  | _ => Some VUndefined
  end.

(** Optional chaining [v?.k]. *)
Definition get_prop_opt (v : value) (k : string) : value :=
  match get_prop v k with Some x => x | None => VUndefined end.

(** *** Strings.  A string is the sequence of the UTF-8 bytes of its text:
    an ASCII character is one byte, any other code point two to four bytes,
    the first of which is never a continuation byte. *)

(** The white space of ECMAScript ([WhiteSpace] and [LineTerminator], the
    set [trim] and [parseInt] strip), by encoded length.  One byte: TAB, LF,
    VT, FF, CR, SP. *)
Definition isWhiteSpace1 (a : ascii) : bool :=
  let n := nat_of_ascii a in
  (Nat.eqb n 9 || Nat.eqb n 10 || Nat.eqb n 11 || Nat.eqb n 12
   || Nat.eqb n 13 || Nat.eqb n 32)%bool.

(** Two bytes: U+00A0 (C2 A0). *)
Definition isWhiteSpace2 (a b : ascii) : bool :=
  (Nat.eqb (nat_of_ascii a) 194 && Nat.eqb (nat_of_ascii b) 160)%bool.

(** Three bytes: U+1680 (E1 9A 80), U+2000..U+200A (E2 80 80..8A), U+2028,
    U+2029 and U+202F (E2 80 A8, A9, AF), U+205F (E2 81 9F), U+3000
    (E3 80 80) and U+FEFF (EF BB BF). *)
Definition isWhiteSpace3 (a b c : ascii) : bool :=
  let x := nat_of_ascii a in
  let y := nat_of_ascii b in
  let z := nat_of_ascii c in
  ((Nat.eqb x 225 && Nat.eqb y 154 && Nat.eqb z 128)
   || (Nat.eqb x 226 && Nat.eqb y 128
       && ((Nat.leb 128 z && Nat.leb z 138)
           || Nat.eqb z 168 || Nat.eqb z 169 || Nat.eqb z 175))
   || (Nat.eqb x 226 && Nat.eqb y 129 && Nat.eqb z 159)
   || (Nat.eqb x 227 && Nat.eqb y 128 && Nat.eqb z 128)
   || (Nat.eqb x 239 && Nat.eqb y 187 && Nat.eqb z 191))%bool.

(** [s.trimStart()]: the white-space code points at the head are dropped. *)
Fixpoint trimStart (s : string) : string :=
  match s with
  | EmptyString => EmptyString
  | String a s1 =>
      if isWhiteSpace1 a then trimStart s1
      else
        match s1 with
        | EmptyString => s
        | String b s2 =>
            if isWhiteSpace2 a b then trimStart s2
            else
              match s2 with
              | EmptyString => s
              | String c s3 => if isWhiteSpace3 a b c then trimStart s3 else s
              end
        end
  end.

(** The string is made of white space only (or empty). *)
Definition isWhiteSpace (s : string) : bool := String.eqb (trimStart s) "".

(** [s.trimEnd()]: the longest tail made of white space is dropped. *)
Fixpoint trimEnd (s : string) : string :=
  match s with
  | EmptyString => EmptyString
  | String c s' => if isWhiteSpace s then EmptyString else String c (trimEnd s')
  end.

Definition trim (s : string) : string := trimEnd (trimStart s).

(** [s.includes(sub)] *)
Fixpoint includes (s sub : string) : bool :=
  if prefix sub s then true
  else match s with
       | EmptyString => false
       | String _ s' => includes s' sub
       end.

(** [toLowerCase] on the ASCII letters.  The only other code points whose
    lower case holds an ASCII letter are U+212A ([k]) and U+0130 ([i]
    followed by U+0307); neither can complete the marker [timeout], the one
    text searched in a lower-cased message. *)
Definition lower (c : ascii) : ascii :=
  let n := nat_of_ascii c in
  if Nat.leb 65 n && Nat.leb n 90 then ascii_of_nat (n + 32) else c.

Fixpoint toLowerCase (s : string) : string :=
  match s with
  | EmptyString => EmptyString
  | String c s' => String (lower c) (toLowerCase s')
  end.

(** [fill] repeated and cut to [n] code units. *)
Fixpoint fillTo (n : nat) (fill cur : string) : string :=
  match n with
  | O => EmptyString
  | S n' =>
      match cur with
      | String c cur' => String c (fillTo n' fill cur')
      | EmptyString =>
          match fill with
          | String c fill' => String c (fillTo n' fill fill')
          | EmptyString => EmptyString
          end
      end
  end.

(** [s.padStart(targetLength, fill)] *)
Definition padStart (s : string) (targetLength : nat) (fill : string) : string :=
  if Nat.leb targetLength (String.length s) then s
  else (fillTo (targetLength - String.length s) fill fill ++ s)%string.

(** [a.slice(start, end)] on an array, with the relative (negative) indices
    and the clamping of the language. *)
Definition slice {A : Type} (a : list A) (start end_ : Z) : list A :=
  let len := Z.of_nat (List.length a) in
  let k := if start <? 0 then Z.max (len + start) 0 else Z.min start len in
  let final := if end_ <? 0 then Z.max (len + end_) 0 else Z.min end_ len in
  firstn (Z.to_nat (Z.max (final - k) 0)) (skipn (Z.to_nat k) a).

(** Decimal rendering of an integer, as [Number.prototype.toString] prints
    integral values. *)
Definition Z_toString (z : Z) : string := NilZero.string_of_int (Z.to_int z).

(** *** parseInt *)

Definition digitValue (c : ascii) : option Z :=
  let n := Z.of_nat (nat_of_ascii c) in
  if (48 <=? n) && (n <=? 57) then Some (n - 48)
  else if (97 <=? n) && (n <=? 122) then Some (n - 87)
  else if (65 <=? n) && (n <=? 90) then Some (n - 55)
  else None.

(** Value of the longest prefix of radix-[R] digits; [acc] is [None] until a
    digit has been read. *)
Fixpoint parseDigits (R : Z) (s : string) (acc : option Z) : option Z :=
  match s with
  | EmptyString => acc
  | String c s' =>
      match digitValue c with
      | Some d =>
          if d <? R
          then parseDigits R s' (Some (R * match acc with Some a => a | None => 0 end + d))
          else acc
      | None => acc
      end
  end.

Definition stripHexPrefix (s : string) : option string :=
  match s with
  | String "0" (String "x" r) => Some r
  | String "0" (String "X" r) => Some r
  | _ => None
  end.

(** [parseInt(s, radix)]: [None] is NaN, [Some z] the integer read (a signed
    zero reads as [Some 0], which is as falsy as [-0]). *)
Definition parseInt (s : string) (radix : Z) : option Z :=
  let S0 := trimStart s in
  let '(sign, S1) :=
    match S0 with
    | String "-" r => (-1, r)
    | String "+" r => (1, r)
    | _ => (1, S0)
    end in
  let hexAllowed := (radix =? 0) || (radix =? 16) in
  let R0 := if radix =? 0 then 10 else radix in
  if (R0 <? 2) || (36 <? R0) then None
  else
    let '(R, S2) :=
      match (if hexAllowed then stripHexPrefix S1 else None) with
      | Some r => (16, r)
      | None => (R0, S1)
      end in
    match parseDigits R S2 None with
    | Some n => Some (sign * n)
    | None => None
    end.

(** The number [parseInt] returns. *)
Definition number_of_parseInt (r : option Z) : number :=
  match r with None => NaN | Some z => number_of_Z z end.

(** *** The runtime: what the engine, not the repository, decides. *)

Record Runtime := {
  (** [Date.parse]: the time value in ms since the epoch, [None] for NaN *)
  Date_parse : string -> option Z;
  (** offset of local time from UTC, in ms, at a given time value *)
  LocalTZA : Z -> Z;
  (** [Number.prototype.toString] on arbitrary doubles *)
  Number_toString : number -> string;
  (** message of the TypeError raised by reading the named property of
      [null] or [undefined] *)
  TypeError_message : string -> string
}.

(** What a runtime API (fetch, a body reader, a property read) throws: an
    [Error] instance with its [name] and [message], or some other value. *)
Inductive Exn :=
| Error (name message : string)
| NonError (v : value).

(** A [Date] object is its time value; [None] is the Invalid Date. *)
Definition Date := option Z.

Definition new_Date (rt : Runtime) (s : string) : Date := Date_parse rt s.

Definition msPerMinute : Z := 60000.
Definition msPerHour : Z := 3600000.

(** [getHours] and [getMinutes] return NaN ([None]) on the Invalid Date. *)
Definition getHours (rt : Runtime) (d : Date) : option Z :=
  match d with
  | None => None
  | Some t => Some (((t + LocalTZA rt t) / msPerHour) mod 24)
  end.

Definition getMinutes (rt : Runtime) (d : Date) : option Z :=
  match d with
  | None => None
  | Some t => Some (((t + LocalTZA rt t) / msPerMinute) mod 60)
  end.

(** [toString()] of the number [getHours] or [getMinutes] returned. *)
Definition int_toString (x : option Z) : string :=
  match x with None => "NaN" | Some z => Z_toString z end.

(** ToString on values, as template literals apply it. *)
Definition ToString (rt : Runtime) (v : value) : string :=
  match v with
  | VUndefined => "undefined"
  | VNull => "null"
  | VBoolean true => "true"
  | VBoolean false => "false"
  | VNumber x => Number_toString rt x
  | VString s => s
  | VObject _ => "[object Object]"
  end.

(** *** A reference runtime, for running the model on concrete inputs: UTC
    as the local zone, and a [Date.parse] that reads the ISO form
    [YYYY-MM-DDTHH:mm:ss] with an optional final [Z]. *)

Definition digit (c : ascii) : option Z :=
  let n := Z.of_nat (nat_of_ascii c) in
  if (48 <=? n) && (n <=? 57) then Some (n - 48) else None.

Fixpoint digits (n : nat) (s : string) (acc : Z) : option (Z * string) :=
  match n with
  | O => Some (acc, s)
  | S n' =>
      match s with
      | String c s' =>
          match digit c with
          | Some d => digits n' s' (10 * acc + d)
          | None => None
          end
      | EmptyString => None
      end
  end.

Definition expect (c : ascii) (s : string) : option string :=
  match s with
  | String c' s' => if Ascii.eqb c c' then Some s' else None
  | EmptyString => None
  end.

Definition isLeap (y : Z) : bool :=
  ((y mod 4 =? 0) && negb (y mod 100 =? 0)) || (y mod 400 =? 0).

Definition daysInMonth (y m : Z) : Z :=
  if m =? 2 then (if isLeap y then 29 else 28)
  else if (m =? 4) || (m =? 6) || (m =? 9) || (m =? 11) then 30 else 31.

(** Days from 1970-01-01 to the civil date [y-m-d]. *)
Definition daysFromCivil (y m d : Z) : Z :=
  let y' := if m <=? 2 then y - 1 else y in
  let era := y' / 400 in
  let yoe := y' - era * 400 in
  let mp := (m + 9) mod 12 in
  let doy := (153 * mp + 2) / 5 + d - 1 in
  let doe := yoe * 365 + yoe / 4 - yoe / 100 + doy in
  era * 146097 + doe - 719468.

Definition isoParse (s : string) : option Z :=
  match digits 4 s 0 with
  | None => None
  | Some (y, s) =>
  match expect "-" s with None => None | Some s =>
  match digits 2 s 0 with None => None | Some (mo, s) =>
  match expect "-" s with None => None | Some s =>
  match digits 2 s 0 with None => None | Some (d, s) =>
  match expect "T" s with None => None | Some s =>
  match digits 2 s 0 with None => None | Some (h, s) =>
  match expect ":" s with None => None | Some s =>
  match digits 2 s 0 with None => None | Some (mi, s) =>
  match expect ":" s with None => None | Some s =>
  match digits 2 s 0 with None => None | Some (se, s) =>
    if (String.eqb s "" || String.eqb s "Z")
       && (1 <=? mo) && (mo <=? 12) && (1 <=? d) && (d <=? daysInMonth y mo)
       && (h <=? 23) && (mi <=? 59) && (se <=? 59)
    then Some (daysFromCivil y mo d * 86400000 + h * msPerHour
               + mi * msPerMinute + se * 1000)
    else None
  end end end end end end end end end end end.

(** Integral doubles print in decimal; the reference runtime prints every
    other finite value as its integer part. *)
Definition refNumber_toString (x : number) : string :=
  match x with
  | S754_zero _ => "0"
  | S754_nan => "NaN"
  | S754_infinity false => "Infinity"
  | S754_infinity true => "-Infinity"
  | S754_finite s m e =>
      let a := if 0 <=? e then Zpos m * 2 ^ e else Zpos m / 2 ^ (- e) in
      Z_toString (if s then - a else a)
  end.

Definition refRuntime : Runtime :=
  {| Date_parse := isoParse;
     LocalTZA := fun _ => 0;
     Number_toString := refNumber_toString;
     TypeError_message := fun k =>
       ("Cannot read properties of null (reading '" ++ k ++ "')")%string |}.

End Js.

(* ================================================================== *)
(** ** utils/fetch.ts: [FetchHttp.request]                             *)
(* ================================================================== *)

Module FetchHttp.
Import Js.

(** [class FetchError extends Error]; [code] is [undefined] when not given. *)
Record FetchError := mkFetchError {
  message : string;
  code : value;
  status : option Z;
  requestId : option string;
  isNetworkError : bool
}.

(** Everything a [catch] clause of this program can receive. *)
Inductive Thrown :=
| ThrownFetchError (e : FetchError)
| ThrownExn (x : Exn).

(** The part of a [Response] that [request] reads. *)
Record Response := mkResponse {
  resp_status : Z;
  resp_statusText : string;
  (** [response.headers.get('content-type')] *)
  resp_contentType : option string;
  (** outcome of [await response.json()] *)
  resp_json : Exn + value;
  (** outcome of [await response.text()] *)
  resp_text : Exn + string
}.

(** [response.ok]: the status is in the range 200-299. *)
Definition ok (r : Response) : bool :=
  (200 <=? resp_status r) && (resp_status r <=? 299).

(** The options [request] destructures with a default. *)
Record FetchOptions := mkFetchOptions {
  opt_unwrap : option bool;
  opt_retry : option Z;
  opt_retryDelay : option Z
}.

Definition noOptions : FetchOptions := mkFetchOptions None None None.

Definition defaultTimeout : Z := 30000.
Definition defaultRetry : Z := 3.
Definition defaultRetryDelay : Z := 1000.

Definition withDefault {A} (o : option A) (d : A) : A :=
  match o with Some a => a | None => d end.

(** What the caller can observe of one call besides its result: the fetches
    issued, by attempt number, and the pauses between them. *)
Inductive Event :=
| Fetched (attempt : Z)
| Slept (ms : Z).

(** [isRetryableError] *)
Definition isRetryableError (error : Thrown) : bool :=
  match error with
  | ThrownFetchError e => isNetworkError e
  | ThrownExn (Error _ msg) =>
      includes msg "fetch failed" ||
      includes msg "network" ||
      includes (toLowerCase msg) "timeout" ||
      includes msg "Failed to fetch" ||
      includes msg "NetworkError" ||
      includes msg "ECONNREFUSED" ||
      includes msg "ENOTFOUND"
  | ThrownExn (NonError _) => false
  end.

(** [error instanceof FetchError && !error.isNetworkError] *)
Definition nonNetwork (error : Thrown) : bool :=
  match error with
  | ThrownFetchError e => negb (isNetworkError e)
  | ThrownExn _ => false
  end.

Section Request.

Variable rt : Runtime.
(** [generateRequestId()] *)
Variable reqId : string.
(** The transport: the outcome of [await fetch(requestUrl, ...)] at each
    attempt.  URL, headers and body are built before the loop, so the same
    request is sent every time and the outcome depends on the attempt only;
    a timeout is the rejection the abort signal causes. *)
Variable fetch : Z -> Exn + Response.

Definition isSuccessCode (c : value) : bool :=
  strict_eq_Z c 0 || strict_eq_Z c 200 || strict_eq_string c "0"
  || strict_eq_string c "200" || strict_eq_string c "success".

(** The body of the [try] block, given what [fetch] produced. *)
Definition tryBody (unwrap : bool) (outcome : Exn + Response) : Thrown + value :=
  match outcome with
  | inl x => inl (ThrownExn x)
  | inr response =>
      let st := resp_status response in
      if negb (ok response) then
        if (400 <=? st) && (st <? 500) then
          inl (ThrownFetchError (mkFetchError
            ("请求错误: " ++ Z_toString st ++ " " ++ resp_statusText response)%string
            VUndefined (Some st) (Some reqId) false))
        else
          inl (ThrownFetchError (mkFetchError
            ("服务器错误: " ++ Z_toString st ++ " " ++ resp_statusText response)%string
            VUndefined (Some st) (Some reqId) true))
      else
        let isJson :=
          match resp_contentType response with
          | None => false
          | Some ct => negb (String.eqb ct "") && includes ct "application/json"
          end in
        if negb isJson then
          if unwrap then
            match resp_text response with
            | inl x => inl (ThrownExn x)
            | inr text => inr (VString text)
            end
          else
            match resp_json response with
            | inl x => inl (ThrownExn x)
            | inr v => inr v
            end
        else
          match resp_json response with
          | inl x => inl (ThrownExn x)
          | inr result =>
              if unwrap then
                if ToBoolean result && negb (String.eqb (typeof result) "object") then
                  inl (ThrownFetchError (mkFetchError
                    "响应格式错误: 期望 JSON 对象"
                    VUndefined (Some st) (Some reqId) false))
                else
                  match get_prop result "code" with
                  | None => inl (ThrownExn (Error "TypeError" (TypeError_message rt "code")))
                  | Some c =>
                      if negb (isSuccessCode c) then
                        inl (ThrownFetchError (mkFetchError
                          (ToString rt
                             (or_else (get_prop_opt result "msg")
                                (VString ("API Error: " ++ ToString rt c)%string)))
                          c (Some st) (Some reqId) false))
                      else inr (get_prop_opt result "data")
                  end
              else inr result
          end
  end.

(** The tail of the [catch] block: no retry is made, the error is raised. *)
Definition giveUp (error : Thrown) : Thrown :=
  match error with
  | ThrownExn (Error name msg) =>
      if String.eqb name "AbortError"
      then ThrownFetchError (mkFetchError "请求超时" VUndefined None (Some reqId) false)
      else ThrownFetchError (mkFetchError msg VUndefined None (Some reqId) true)
  | ThrownFetchError e => error
  | ThrownExn (NonError _) =>
      ThrownFetchError (mkFetchError "未知错误" VUndefined None (Some reqId) true)
  end.

(** The statements after the loop. *)
Definition afterLoop (lastError : option Thrown) : Thrown :=
  match lastError with
  | Some (ThrownFetchError e) => ThrownFetchError e
  | _ => ThrownFetchError (mkFetchError "请求失败" VUndefined None (Some reqId) true)
  end.

(** [for (let attempt = 0; attempt <= retry; attempt++)], with [fuel]
    bounding the iterations left. *)
Fixpoint retryLoop (unwrap : bool) (retry retryDelay : Z) (fuel : nat)
    (attempt : Z) (lastError : option Thrown) : list Event * (Thrown + value) :=
  match fuel with
  | O => ([], inl (afterLoop lastError))
  | S fuel' =>
      if attempt <=? retry then
        match tryBody unwrap (fetch attempt) with
        | inr v => ([Fetched attempt], inr v)
        | inl error =>
            if nonNetwork error then ([Fetched attempt], inl error)
            else if (attempt <? retry) && isRetryableError error then
              let '(tr, res) :=
                retryLoop unwrap retry retryDelay fuel' (attempt + 1) (Some error) in
              (Fetched attempt :: Slept retryDelay :: tr, res)
            else ([Fetched attempt], inl (giveUp error))
        end
      else ([], inl (afterLoop lastError))
  end.

(** [request(url, options)] *)
Definition request (url : string) (options : FetchOptions)
  : list Event * (Thrown + value) :=
  if String.eqb url "" then
    ([], inl (ThrownFetchError
                (mkFetchError "请求 URL 不能为空" VUndefined None (Some reqId) false)))
  else
    let unwrap := withDefault (opt_unwrap options) true in
    let retry := withDefault (opt_retry options) defaultRetry in
    let retryDelay := withDefault (opt_retryDelay options) defaultRetryDelay in
    retryLoop unwrap retry retryDelay (Z.to_nat (retry + 1)) 0 None.

End Request.

(** Classes of attempt outcomes, as the caller of [fetch] sees them. *)

(** a response the client labels a client error *)
Definition is4xx (r : Response) : bool :=
  (400 <=? resp_status r) && (resp_status r <? 500).

(** a server-side response *)
Definition is5xx (r : Response) : bool :=
  (500 <=? resp_status r) && (resp_status r <? 600).

(** a response outside 2xx that is not a client error: what the client
    reports as a server error *)
Definition isServerError (r : Response) : bool :=
  negb (ok r) && negb (is4xx r).

(** A JSON response carrying the envelope [{code, msg, data}]. *)
Definition envelope (st : Z) (c : value) (msg : string) (data : value) : Response :=
  mkResponse st "OK" (Some "application/json")
    (inr (VObject [("code", c); ("msg", VString msg); ("data", data)]))
    (inr "").

Definition plain (st : Z) (statusText : string) : Response :=
  mkResponse st statusText None (inr VNull) (inr "").

End FetchHttp.

(* ================================================================== *)
(** ** pages/DispatchPage.tsx and the ReceiptWarning banner            *)
(* ================================================================== *)

Module DispatchPage.
Import Js.
Export FetchHttp(Thrown, ThrownFetchError, ThrownExn).

Inductive OrderStatus := shipped | pending | delayed.
Inductive OrderRisk := low | medium | high | none.

(** The fields of [DispatchBoardFlightVO] the page reads.  The two flags are
    kept as the values the backend sent. *)
Record DispatchBoardFlightVO := mkRecord {
  supplyType : option string;
  sheetNo : option string;
  lastRecRequireTime : option string;
  deliveryRecName : option string;
  isDelivered : value;
  hasReceipt : value;
  riskFlag : option string
}.

Record Order := mkOrder {
  id : string;
  type : string;
  receiver : string;
  requestTime : string;
  status : OrderStatus;
  hasReturn : value;
  risk : OrderRisk;
  order_riskFlag : option string
}.

Record Alert := mkAlert {
  alert_id : string;
  alert_message : string;
  alert_timestamp : string
}.

Record Summary := mkSummary {
  totalCount : Z;
  deliveredCount : Z;
  pendingCount : Z;
  delayedCount : Z;
  receiptCount : Z
}.

Definition NO_DATA_REFRESH_INTERVAL : Z := 5 * 60 * 1000.

(** [o || d] on an optional string: [undefined] and the empty string are
    falsy. *)
Definition orString (o : option string) (d : string) : string :=
  match o with
  | Some s => if String.eqb s "" then d else s
  | None => d
  end.

Definition truthyString (o : option string) : bool :=
  match o with
  | Some s => negb (String.eqb s "")
  | None => false
  end.

Section Transform.

Variable rt : Runtime.

(** [formatTime].  No call of the [try] block throws on a string argument
    ([new Date] yields the Invalid Date, whose accessors return NaN), so the
    [catch] clause is never entered. *)
Definition formatTime (timeStr : option string) : string :=
  match timeStr with
  | None => "-"
  | Some s =>
      if String.eqb s "" then "-"
      else
        let date := new_Date rt s in
        let hours := padStart (int_toString (getHours rt date)) 2 "0" in
        let minutes := padStart (int_toString (getMinutes rt date)) 2 "0" in
        (hours ++ ":" ++ minutes)%string
  end.

Definition getRiskLevel (riskFlag : option string) : OrderRisk :=
  match riskFlag with
  | Some f =>
      if String.eqb f "DELAYED" then high
      else if String.eqb f "AT_RISK" then medium
      else if String.eqb f "DELIVERED" || String.eqb f "ON_TIME" then none
      else none
  | None => none
  end.

Definition getOrderStatus (isDelivered : value) : OrderStatus :=
  match isDelivered with
  | VBoolean b => if b then shipped else pending
  | _ =>
      let value :=
        match isDelivered with
        | VString s => VNumber (number_of_parseInt (parseInt s 10))
        | _ => isDelivered
        end in
      if ToBoolean value then shipped else pending
  end.

Definition toOrder (record : DispatchBoardFlightVO) : Order :=
  {| id := orString (sheetNo record) "";
     type := orString (supplyType record) "-";
     receiver := orString (deliveryRecName record) "-";
     requestTime := formatTime (lastRecRequireTime record);
     status := getOrderStatus (isDelivered record);
     hasReturn := or_else (hasReceipt record) (VBoolean false);
     risk := getRiskLevel (riskFlag record);
     order_riskFlag := riskFlag record |}.

Definition transformOrders (records : list DispatchBoardFlightVO) : list Order :=
  map toOrder records.

(** [r.riskFlag === 'DELAYED' && !r.hasReceipt] *)
Definition isDelayedWithoutReceipt (r : DispatchBoardFlightVO) : bool :=
  match riskFlag r with
  | Some f => String.eqb f "DELAYED" && negb (ToBoolean (hasReceipt r))
  | None => false
  end.

Definition toAlert (record : DispatchBoardFlightVO) : Alert :=
  {| alert_id := orString (sheetNo record) "";
     alert_message := "超时未发货";
     alert_timestamp := formatTime (lastRecRequireTime record) |}.

Definition transformAlerts (records : list DispatchBoardFlightVO) : list Alert :=
  map toAlert (slice (filter isDelayedWithoutReceipt records) 0 8).

End Transform.

(** *** Component state, the window's interval timers, and the console *)

Record Page := mkPage {
  orders : list Order;
  summary : Summary;
  alerts : list Alert;
  pendingWithReceiptCount : Z;
  loading : bool;
  lastUpdateTime : string;
  factoryName : value;
  factoryCode : string;
  tableRefreshKey : Z;
  trendsRefreshKey : Z;
  (** [refreshTimerRef.current]: [null] or a timer handle *)
  refreshTimerRef : option Z
}.

(** What an interval timer of this page runs when it fires. *)
Inductive Callback := CallLoadData.

Record Interval := mkInterval {
  handle : Z;
  callback : Callback;
  delay : Z
}.

Record World := mkWorld {
  page : Page;
  (** the interval timers currently armed in the window *)
  intervals : list Interval;
  (** the handle the next [setInterval] returns *)
  nextHandle : Z;
  console : list string
}.

Definition initialPage : Page :=
  {| orders := []; summary := mkSummary 0 0 0 0 0; alerts := [];
     pendingWithReceiptCount := 0; loading := true; lastUpdateTime := "";
     factoryName := VString ""; factoryCode := ""; tableRefreshKey := 0;
     trendsRefreshKey := 0; refreshTimerRef := None |}.

Definition initialWorld : World :=
  {| page := initialPage; intervals := []; nextHandle := 1; console := [] |}.

(** *** A state monad with exceptions: what one run of an async function
    does to the world between two suspensions. *)

Definition M (A : Type) : Type := World -> (Thrown + A) * World.

Definition ret {A} (a : A) : M A := fun w => (inr a, w).

Definition bind {A B} (c : M A) (k : A -> M B) : M B :=
  fun w =>
    match c w with
    | (inr a, w') => k a w'
    | (inl e, w') => (inl e, w')
    end.

(** [await p], for a promise that settles with [r]. *)
Definition await {A} (r : Thrown + A) : M A := fun w => (r, w).

(** [try { body } catch (err) { handler err } finally { fin }] *)
Definition try_catch_finally {A} (body : M A) (handler : Thrown -> M A)
    (fin : M unit) : M A :=
  fun w =>
    let '(r1, w1) := body w in
    let '(r2, w2) :=
      match r1 with
      | inr a => (inr a, w1)
      | inl e => handler e w1
      end in
    match fin w2 with
    | (inr _, w3) => (r2, w3)
    | (inl e, w3) => (inl e, w3)
    end.

Definition try_catch {A} (body : M A) (handler : Thrown -> M A) : M A :=
  try_catch_finally body handler (ret tt).

Definition exec {A} (c : M A) (w : World) : World := snd (c w).

Notation "x <- c ;; k" := (bind c (fun x => k))
  (at level 61, c at next level, right associativity).
Notation "c ;; k" := (bind c (fun _ => k))
  (at level 61, right associativity).

Definition modifyPage (f : Page -> Page) : M unit :=
  fun w => (inr tt, mkWorld (f (page w)) (intervals w) (nextHandle w) (console w)).

Definition setOrders (v : list Order) : M unit :=
  modifyPage (fun p => mkPage v (summary p) (alerts p) (pendingWithReceiptCount p)
    (loading p) (lastUpdateTime p) (factoryName p) (factoryCode p)
    (tableRefreshKey p) (trendsRefreshKey p) (refreshTimerRef p)).

Definition setSummary (v : Summary) : M unit :=
  modifyPage (fun p => mkPage (orders p) v (alerts p) (pendingWithReceiptCount p)
    (loading p) (lastUpdateTime p) (factoryName p) (factoryCode p)
    (tableRefreshKey p) (trendsRefreshKey p) (refreshTimerRef p)).

Definition setAlerts (v : list Alert) : M unit :=
  modifyPage (fun p => mkPage (orders p) (summary p) v (pendingWithReceiptCount p)
    (loading p) (lastUpdateTime p) (factoryName p) (factoryCode p)
    (tableRefreshKey p) (trendsRefreshKey p) (refreshTimerRef p)).

Definition setPendingWithReceiptCount (v : Z) : M unit :=
  modifyPage (fun p => mkPage (orders p) (summary p) (alerts p) v
    (loading p) (lastUpdateTime p) (factoryName p) (factoryCode p)
    (tableRefreshKey p) (trendsRefreshKey p) (refreshTimerRef p)).

Definition setLoading (v : bool) : M unit :=
  modifyPage (fun p => mkPage (orders p) (summary p) (alerts p) (pendingWithReceiptCount p)
    v (lastUpdateTime p) (factoryName p) (factoryCode p)
    (tableRefreshKey p) (trendsRefreshKey p) (refreshTimerRef p)).

Definition setLastUpdateTime (v : string) : M unit :=
  modifyPage (fun p => mkPage (orders p) (summary p) (alerts p) (pendingWithReceiptCount p)
    (loading p) v (factoryName p) (factoryCode p)
    (tableRefreshKey p) (trendsRefreshKey p) (refreshTimerRef p)).

Definition setFactoryName (v : value) : M unit :=
  modifyPage (fun p => mkPage (orders p) (summary p) (alerts p) (pendingWithReceiptCount p)
    (loading p) (lastUpdateTime p) v (factoryCode p)
    (tableRefreshKey p) (trendsRefreshKey p) (refreshTimerRef p)).

Definition setFactoryCode (v : string) : M unit :=
  modifyPage (fun p => mkPage (orders p) (summary p) (alerts p) (pendingWithReceiptCount p)
    (loading p) (lastUpdateTime p) (factoryName p) v
    (tableRefreshKey p) (trendsRefreshKey p) (refreshTimerRef p)).

(** [setTableRefreshKey((k) => k + 1)] and [setTrendsRefreshKey((k) => k + 1)] *)
Definition bumpTableRefreshKey : M unit :=
  modifyPage (fun p => mkPage (orders p) (summary p) (alerts p) (pendingWithReceiptCount p)
    (loading p) (lastUpdateTime p) (factoryName p) (factoryCode p)
    (tableRefreshKey p + 1) (trendsRefreshKey p) (refreshTimerRef p)).

Definition bumpTrendsRefreshKey : M unit :=
  modifyPage (fun p => mkPage (orders p) (summary p) (alerts p) (pendingWithReceiptCount p)
    (loading p) (lastUpdateTime p) (factoryName p) (factoryCode p)
    (tableRefreshKey p) (trendsRefreshKey p + 1) (refreshTimerRef p)).

Definition writeTimerRef (v : option Z) : M unit :=
  modifyPage (fun p => mkPage (orders p) (summary p) (alerts p) (pendingWithReceiptCount p)
    (loading p) (lastUpdateTime p) (factoryName p) (factoryCode p)
    (tableRefreshKey p) (trendsRefreshKey p) v).

Definition readTimerRef : M (option Z) :=
  fun w => (inr (refreshTimerRef (page w)), w).

(** [if (refreshTimerRef.current)]: [null] and [0] are falsy. *)
Definition truthyHandle (h : option Z) : bool :=
  match h with
  | Some n => negb (n =? 0)
  | None => false
  end.

(** [window.setInterval(cb, ms)]: arms a timer and returns its fresh handle. *)
Definition setInterval (cb : Callback) (ms : Z) : M Z :=
  fun w =>
    let h := nextHandle w in
    (inr h, mkWorld (page w) (intervals w ++ [mkInterval h cb ms])%list (h + 1) (console w)).

(** [clearInterval(h)] *)
Definition clearInterval (h : option Z) : M unit :=
  fun w =>
    let keep i := match h with Some n => negb (handle i =? n) | None => true end in
    (inr tt, mkWorld (page w) (filter keep (intervals w)) (nextHandle w) (console w)).

Definition console_error (label : string) : M unit :=
  fun w => (inr tt, mkWorld (page w) (intervals w) (nextHandle w) (console w ++ [label])%list).

Definition when (b : bool) (c : M unit) : M unit := if b then c else ret tt.

(** *** loadData *)

(** The request of [loadData]; the two bounds are the instants whose ISO
    rendering is sent. *)
Record DispatchBoardPageParams := mkParams {
  param_page : Z;
  param_size : Z;
  lastRecRequireTimeStart : Z;
  lastRecRequireTimeEnd : Z
}.

Record DispatchBoardFetchResult := mkFetchResult {
  content : list DispatchBoardFlightVO;
  totalElements : Z
}.

(** What one call of [loadData] reads from outside the component. *)
Record LoadEnv := mkLoadEnv {
  (** [Date.now()] when the call starts *)
  Date_now : Z;
  (** how the promise of [fetchDispatchBoard(params)] settles *)
  fetchDispatchBoard : DispatchBoardPageParams -> Thrown + DispatchBoardFetchResult;
  (** [new Date().toLocaleTimeString('zh-CN', ...)] when the call completes *)
  nowTime : string
}.

(** [const params = { page: 1, size: 500, ... }] of [loadData] *)
Definition loadDataParams (now : Z) : DispatchBoardPageParams :=
  {| param_page := 1;
     param_size := 500;
     lastRecRequireTimeStart := now - 72 * 60 * 60 * 1000;
     lastRecRequireTimeEnd := now + 8 * 60 * 60 * 1000 |}.

Section Loaders.

Variable rt : Runtime.

Definition loadData (env : LoadEnv) : M unit :=
  try_catch_finally
    (setLoading true ;;
     let now := Date_now env in
     let params := loadDataParams now in
     result <- await (fetchDispatchBoard env params) ;;
     (* [result.content || []]: an array is truthy *)
     let records := content result in
     let transformedOrders := transformOrders rt records in
     setOrders transformedOrders ;;
     setAlerts (transformAlerts rt records) ;;
     let deliveredCount :=
       Z.of_nat (List.length (filter (fun r => ToBoolean (isDelivered r)) records)) in
     let receiptCount :=
       Z.of_nat (List.length (filter (fun r => ToBoolean (hasReceipt r)) records)) in
     let delayedCount :=
       Z.of_nat (List.length (filter isDelayedWithoutReceipt records)) in
     let pendingWithReceipt :=
       Z.of_nat (List.length
         (filter (fun r => ToBoolean (hasReceipt r) &&
                           match isDelivered r with
                           | VBoolean false => true
                           | _ => false
                           end) records)) in
     setSummary
       {| totalCount := Z.of_nat (List.length records);
          deliveredCount := deliveredCount;
          pendingCount := Z.of_nat (List.length records) - deliveredCount;
          delayedCount := delayedCount;
          receiptCount := receiptCount |} ;;
     setPendingWithReceiptCount pendingWithReceipt ;;
     let hasData := 0 <? Z.of_nat (List.length transformedOrders) in
     (if negb hasData then
        cur <- readTimerRef ;;
        when (truthyHandle cur) (clearInterval cur) ;;
        h <- setInterval CallLoadData NO_DATA_REFRESH_INTERVAL ;;
        writeTimerRef (Some h)
      else
        cur <- readTimerRef ;;
        when (truthyHandle cur) (clearInterval cur ;; writeTimerRef None)) ;;
     setLastUpdateTime (nowTime env))
    (fun err => console_error "加载数据失败:")
    (setLoading false).

(** [handleTableRefresh] *)
Definition handleTableRefresh (env : LoadEnv) : M unit :=
  bumpTableRefreshKey ;;
  bumpTrendsRefreshKey ;;
  loadData env.

(** The cleanup of the mount effect. *)
Definition unmount : M unit :=
  cur <- readTimerRef ;;
  when (truthyHandle cur) (clearInterval cur).

(** *** loadFactoryInfo *)

(** [new URLSearchParams(window.location.search)]: the decoded name/value
    pairs of the query string, in order. *)
Definition URLSearchParams := list (string * string).

(** [params.get(name)]: the first value under exactly that name. *)
Fixpoint URLSearchParams_get (params : URLSearchParams) (name : string)
  : option string :=
  match params with
  | [] => None
  | (k, v) :: rest =>
      if String.eqb k name then Some v else URLSearchParams_get rest name
  end.

(** [urlParams.get('factoryCode') || urlParams.get('factorycode') || null] *)
Definition factoryCodeFromUrl (urlParams : option URLSearchParams) : option string :=
  match urlParams with
  | Some ps =>
      if truthyString (URLSearchParams_get ps "factoryCode")
      then URLSearchParams_get ps "factoryCode"
      else if truthyString (URLSearchParams_get ps "factorycode")
      then URLSearchParams_get ps "factorycode"
      else None
  | None => None
  end.

(** The constant [factoryCode] of [loadFactoryInfo]; [envCode] is
    [import.meta.env?.VITE_FACTORY_CODE]. *)
Definition resolveFactoryCode (urlParams : option URLSearchParams)
    (envCode : option string) : string :=
  let fromUrl := factoryCodeFromUrl urlParams in
  let trimmed :=
    if truthyString fromUrl
    then match fromUrl with Some s => Some (trim s) | None => None end
    else fromUrl in
  if truthyString trimmed then orString trimmed ""
  else if truthyString envCode then orString envCode ""
  else "DEFAULT_FACTORY_CODE".

Definition loadFactoryInfo (urlParams : option URLSearchParams)
    (envCode : option string)
    (getInfoByFactoryCodeApi : string -> Thrown + value) : M unit :=
  try_catch
    (let factoryCode := resolveFactoryCode urlParams envCode in
     res <- await (getInfoByFactoryCodeApi factoryCode) ;;
     let info :=
       if ToBoolean (get_prop_opt res "data") then get_prop_opt res "data" else res in
     name <- await (match get_prop info "factoryName" with
                    | Some v => inr v
                    | None => inl (ThrownExn
                                (Error "TypeError" (TypeError_message rt "factoryName")))
                    end) ;;
     setFactoryName (or_else name (VString "—")) ;;
     setFactoryCode factoryCode)
    (fun err =>
       console_error "获取工厂信息失败:" ;;
       setFactoryName (VString "—")).

End Loaders.

(** *** ReceiptWarning *)

Record WarningView := mkWarningView {
  (** the line "receipt present but never shipped through the system" *)
  pendingLine : option Z;
  shownReceiptCount : Z;
  shownDeliveredCount : Z;
  shownOffSystemCount : Z
}.

(** [ReceiptWarning(props)]: [None] is the [null] render. *)
Definition ReceiptWarning (receiptCount deliveredCount pendingWithReceiptCount : Z)
  : option WarningView :=
  let showWarning := (0 <? pendingWithReceiptCount) || (deliveredCount <? receiptCount) in
  if negb showWarning then None
  else
    let offSystemCount := receiptCount - deliveredCount in
    Some {| pendingLine :=
              if 0 <? pendingWithReceiptCount then Some pendingWithReceiptCount else None;
            shownReceiptCount := receiptCount;
            shownDeliveredCount := deliveredCount;
            shownOffSystemCount := Z.max 0 offSystemCount |}.

(** The banner as the page renders it. *)
Definition renderReceiptWarning (p : Page) : option WarningView :=
  ReceiptWarning (receiptCount (summary p)) (deliveredCount (summary p))
    (pendingWithReceiptCount p).

End DispatchPage.

(* ================================================================== *)
(** ** components/ShippingTable.tsx: the auto-scroll controller        *)
(* ================================================================== *)

Module ShippingTable.

Record Order := mkOrder {
  id : string;
  type : string;
  receiver : string;
  requestTime : string;
  status : DispatchPage.OrderStatus;
  hasReturn : bool;
  risk : DispatchPage.OrderRisk
}.

Record ShippingTableProps := mkProps {
  orders : list Order;
  (** whether [onRefresh] is passed *)
  onRefresh : bool;
  autoScroll : bool;
  refreshKey : option Z
}.

Definition SCROLL_SPEED : Z := 1.
Definition BOTTOM_THRESHOLD : Z := 50.

(** The scroll container, as far as the controller reads and writes it. *)
Record Element := mkElement {
  scrollTop : Z;
  scrollHeight : Z;
  clientHeight : Z
}.

Record Table := mkTable {
  props : ShippingTableProps;
  (** [containerRef.current]: the mounted container, [null] when the empty
      state is rendered *)
  containerRef : option Element;
  (** [scrollRef.current] *)
  scrollRef : option Z;
  shouldScrollRef : bool;
  isAtBottomRef : bool;
  isAtBottom : bool;
  (** whether the last run of the effect returned its cleanup *)
  hasCleanup : bool;
  (** the animation frames requested from the window and neither run nor
      cancelled *)
  frames : list Z;
  (** the handle the next [requestAnimationFrame] returns *)
  nextFrame : Z;
  (** how many times [onRefresh] has been called *)
  refreshCalls : nat
}.

Definition truthyHandle (h : option Z) : bool :=
  match h with
  | Some n => negb (n =? 0)
  | None => false
  end.

(** The branch shared by [handleScroll] and [animate] once the threshold is
    reached. *)
Definition reachBottom (t : Table) : Table :=
  mkTable (props t) (containerRef t) (scrollRef t)
    false true true
    (hasCleanup t) (frames t) (nextFrame t)
    (if onRefresh (props t) then S (refreshCalls t) else refreshCalls t).

Definition atThreshold (el : Element) : bool :=
  let maxScroll := scrollHeight el - clientHeight el in
  maxScroll - BOTTOM_THRESHOLD <=? scrollTop el.

(** [handleScroll] *)
Definition handleScroll (t : Table) : Table :=
  match containerRef t with
  | None => t
  | Some el =>
      if negb (shouldScrollRef t) then t
      else if atThreshold el then reachBottom t
      else t
  end.

(** [animate], the frame callback *)
Definition animate (t : Table) : Table :=
  match containerRef t with
  | None => t
  | Some el =>
      if negb (shouldScrollRef t) then t
      else if atThreshold el then reachBottom t
      else
        let el' := mkElement (scrollTop el + SCROLL_SPEED) (scrollHeight el) (clientHeight el) in
        let h := nextFrame t in
        mkTable (props t) (Some el') (Some h)
          (shouldScrollRef t) (isAtBottomRef t) (isAtBottom t)
          (hasCleanup t) (frames t ++ [h])%list (h + 1) (refreshCalls t)
  end.

(** [cancelAnimationFrame(scrollRef.current)] under [if (scrollRef.current)] *)
Definition cancelCurrent (t : Table) : Table :=
  if truthyHandle (scrollRef t) then
    let keep h := match scrollRef t with Some n => negb (h =? n) | None => true end in
    mkTable (props t) (containerRef t) (scrollRef t)
      (shouldScrollRef t) (isAtBottomRef t) (isAtBottom t)
      (hasCleanup t) (filter keep (frames t)) (nextFrame t) (refreshCalls t)
  else t.

(** The body of the effect, run after a render with the props [props t]. *)
Definition effect (t : Table) : Table :=
  if negb (autoScroll (props t)) || (List.length (orders (props t)) =? 0)%nat then
    mkTable (props t) (containerRef t) (scrollRef t)
      (shouldScrollRef t) (isAtBottomRef t) (isAtBottom t)
      false (frames t) (nextFrame t) (refreshCalls t)
  else
    let t1 := cancelCurrent t in
    let container :=
      match containerRef t1 with
      | Some el => Some (mkElement 0 (scrollHeight el) (clientHeight el))
      | None => None
      end in
    let h := nextFrame t1 in
    mkTable (props t1) container (Some h)
      true false false
      true (frames t1 ++ [h])%list (h + 1) (refreshCalls t1).

(** The cleanup the effect returned, if it returned one. *)
Definition cleanup (t : Table) : Table :=
  if hasCleanup t then cancelCurrent t else t.

(** What a render commits: with no order the empty state replaces the
    container, otherwise the container is mounted (or kept, with its scroll
    offset) and laid out with the given heights. *)
Definition commit (p : ShippingTableProps) (sh ch : Z) (t : Table) : Table :=
  let container :=
    if (List.length (orders p) =? 0)%nat then None
    else match containerRef t with
         | Some el => Some (mkElement (scrollTop el) sh ch)
         | None => Some (mkElement 0 sh ch)
         end in
  mkTable p container (scrollRef t)
    (shouldScrollRef t) (isAtBottomRef t) (isAtBottom t)
    (hasCleanup t) (frames t) (nextFrame t) (refreshCalls t).

Inductive View :=
| EmptyState
| Rows (count : nat) (bottomBanner : bool).

Definition render (t : Table) : View :=
  if (List.length (orders (props t)) =? 0)%nat then EmptyState
  else Rows (List.length (orders (props t))) (isAtBottom t).

(** What happens to a mounted table. *)
Inductive Event :=
| Update (p : ShippingTableProps) (scrollHeight clientHeight : Z)
    (** a render in which [orders], [autoScroll], [onRefresh] or [refreshKey]
        changed: commit, cleanup of the previous effect, effect *)
| Frame
    (** the window runs the oldest pending animation frame *)
| Scroll
    (** a scroll event reaches [onScroll] *)
| UserScroll (top : Z)
    (** the user moves the container, which then emits a scroll event *)
| Layout (scrollHeight clientHeight : Z)
    (** the container is laid out again *).

Definition isUpdate (e : Event) : bool :=
  match e with Update _ _ _ => true | _ => false end.

Definition setElement (el : option Element) (t : Table) : Table :=
  mkTable (props t) el (scrollRef t)
    (shouldScrollRef t) (isAtBottomRef t) (isAtBottom t)
    (hasCleanup t) (frames t) (nextFrame t) (refreshCalls t).

Definition step (e : Event) (t : Table) : Table :=
  match e with
  | Update p sh ch => effect (cleanup (commit p sh ch t))
  | Frame =>
      match frames t with
      | [] => t
      | _ :: rest =>
          animate (mkTable (props t) (containerRef t) (scrollRef t)
                     (shouldScrollRef t) (isAtBottomRef t) (isAtBottom t)
                     (hasCleanup t) rest (nextFrame t) (refreshCalls t))
      end
  | Scroll => handleScroll t
  | UserScroll top =>
      match containerRef t with
      | Some el =>
          handleScroll
            (setElement (Some (mkElement top (scrollHeight el) (clientHeight el))) t)
      | None => t
      end
  | Layout sh ch =>
      match containerRef t with
      | Some el => setElement (Some (mkElement (scrollTop el) sh ch)) t
      | None => t
      end
  end.

Fixpoint run (es : list Event) (t : Table) : Table :=
  match es with
  | [] => t
  | e :: es' => run es' (step e t)
  end.

(** The first render and the first run of the effect. *)
Definition mount (p : ShippingTableProps) (sh ch : Z) : Table :=
  effect (commit p sh ch
    (mkTable p None None true false false false [] 1 0)).

(** At most one frame is pending, it is the one [scrollRef] names, and its
    effect registered a cleanup. *)
Definition wf (t : Table) : Prop :=
  0 < nextFrame t /\
  (frames t = [] \/
   exists h, frames t = [h] /\ scrollRef t = Some h /\ h <> 0 /\ hasCleanup t = true).

End ShippingTable.

(* ================================================================== *)
(** ** Vocabulary of the properties                                    *)
(* ================================================================== *)

Module Props.
Import Js.

(** Number of elements satisfying a test. *)
Fixpoint countIf {A : Type} (p : A -> bool) (l : list A) : nat :=
  match l with
  | [] => O
  | x :: l' => if p x then S (countIf p l') else countIf p l'
  end.

(** [v === false] *)
Definition isFalse (v : value) : bool :=
  match v with VBoolean false => true | _ => false end.

(** A number other than [+0], [-0] and NaN. *)
Definition nonZero (x : number) : bool :=
  match x with
  | S754_zero _ | S754_nan => false
  | _ => true
  end.

(** U+3000 and U+00A0, as their UTF-8 bytes. *)
Definition ideographicSpace : string :=
  String "227" (String "128" (String "128" EmptyString)).

Definition noBreakSpace : string := String "194" (String "160" EmptyString).

Definition threeBytes (a b c : ascii) : string :=
  String a (String b (String c EmptyString)).

(** Every white-space code point of ECMAScript, as its UTF-8 bytes: TAB,
    LF, VT, FF, CR, SP, U+00A0, U+1680, U+2000..U+200A, U+2028, U+2029,
    U+202F, U+205F, U+3000, U+FEFF. *)
Definition whiteSpaceCodePoints : list string :=
  [String "009" ""; String "010" ""; String "011" ""; String "012" "";
   String "013" ""; " "; noBreakSpace; threeBytes "225" "154" "128";
   threeBytes "226" "128" "128"; threeBytes "226" "128" "129";
   threeBytes "226" "128" "130"; threeBytes "226" "128" "131";
   threeBytes "226" "128" "132"; threeBytes "226" "128" "133";
   threeBytes "226" "128" "134"; threeBytes "226" "128" "135";
   threeBytes "226" "128" "136"; threeBytes "226" "128" "137";
   threeBytes "226" "128" "138"; threeBytes "226" "128" "168";
   threeBytes "226" "128" "169"; threeBytes "226" "128" "175";
   threeBytes "226" "129" "159"; ideographicSpace; threeBytes "239" "187" "191"].

(** Code points that are not white space: U+200B (zero width space), U+0085
    (next line) and U+180E (Mongolian vowel separator). *)
Definition notWhiteSpaceCodePoints : list string :=
  [threeBytes "226" "128" "139"; String "194" (String "133" "");
   threeBytes "225" "160" "142"].

(** The delivered-flag representations that are listed as shipped:
    [true], a non-zero number, the string ["1"]. *)
Definition listedShipped (v : value) : bool :=
  match v with
  | VBoolean true => true
  | VNumber x => nonZero x
  | VString s => String.eqb s "1"
  | _ => false
  end.

(** The representations listed as pending: [false], [0], ["0"], absent. *)
Definition listedPending (v : value) : bool :=
  match v with
  | VBoolean false => true
  | VNumber (S754_zero _) => true
  | VString s => String.eqb s "0"
  | VUndefined => true
  | _ => false
  end.

(** The two decimal digits of a number below one hundred. *)
Definition digitChar (z : Z) : ascii := ascii_of_nat (48 + Z.to_nat z).

Definition twoDigits (z : Z) : string :=
  String (digitChar (z / 10)) (String (digitChar (z mod 10)) EmptyString).

(** The flag is absent, a boolean or a number. *)
Definition booleanOrNumber (v : value) : bool :=
  match v with
  | VUndefined | VBoolean _ | VNumber _ => true
  | _ => false
  end.

Definition isShipped (o : DispatchPage.Order) : bool :=
  match DispatchPage.status o with
  | DispatchPage.shipped => true
  | _ => false
  end.

(** The flag is a non-empty string that [parseInt] reads as [0] or as NaN. *)
Definition misreadString (r : DispatchPage.DispatchBoardFlightVO) : bool :=
  match DispatchPage.isDelivered r with
  | VString s =>
      negb (String.eqb s "") &&
      match parseInt s 10 with
      | Some z => z =? 0
      | None => true
      end
  | _ => false
  end.

(** The first candidate that is present and non-empty once trimmed, trimmed;
    the default when there is none. *)
Fixpoint firstNonEmptyTrimmed (candidates : list (option string)) (default : string)
  : string :=
  match candidates with
  | [] => default
  | Some s :: rest =>
      if String.eqb (trim s) "" then firstNonEmptyTrimmed rest default else trim s
  | None :: rest => firstNonEmptyTrimmed rest default
  end.

(** The first value whose name equals [name] up to letter case. *)
Fixpoint get_ci (params : DispatchPage.URLSearchParams) (name : string)
  : option string :=
  match params with
  | [] => None
  | (k, v) :: rest =>
      if String.eqb (toLowerCase k) (toLowerCase name) then Some v
      else get_ci rest name
  end.

(** The configured default: the build-time variable, else the constant. *)
Definition configuredDefault (envCode : option string) : string :=
  DispatchPage.orString envCode "DEFAULT_FACTORY_CODE".

(** The resolution order in the words of the specification: parameter
    [factoryCode], then [factorycode] matched whatever its letter case, then
    the configured default; the first non-empty trimmed value wins. *)
Definition spec_resolveFactoryCode (params : DispatchPage.URLSearchParams)
    (envCode : option string) : string :=
  firstNonEmptyTrimmed
    [DispatchPage.URLSearchParams_get params "factoryCode"; get_ci params "factorycode"]
    (configuredDefault envCode).

(** The same order with both names matched exactly. *)
Definition exact_resolveFactoryCode (params : DispatchPage.URLSearchParams)
    (envCode : option string) : string :=
  firstNonEmptyTrimmed
    [DispatchPage.URLSearchParams_get params "factoryCode";
     DispatchPage.URLSearchParams_get params "factorycode"]
    (configuredDefault envCode).

(** The value of [factoryCode] is non-empty and all white space. *)
Definition blankFactoryCode (params : DispatchPage.URLSearchParams) : bool :=
  match DispatchPage.URLSearchParams_get params "factoryCode" with
  | Some s => negb (String.eqb s "") && String.eqb (trim s) ""
  | None => false
  end.

(** *** Polling timer *)

Definition pollingTimer (h : Z) : DispatchPage.Interval :=
  DispatchPage.mkInterval h DispatchPage.CallLoadData (5 * 60 * 1000).

(** Handles are positive, and the only interval timer the page can have
    armed is the one its ref holds. *)
Definition timerInv (w : DispatchPage.World) : Prop :=
  0 < DispatchPage.nextHandle w /\
  (forall h, DispatchPage.refreshTimerRef (DispatchPage.page w) = Some h -> h <> 0) /\
  (DispatchPage.intervals w = [] \/
   exists h, DispatchPage.intervals w = [pollingTimer h] /\
             DispatchPage.refreshTimerRef (DispatchPage.page w) = Some h).

Definition armed (w : DispatchPage.World) : Prop :=
  exists h, DispatchPage.intervals w = [pollingTimer h] /\
            DispatchPage.refreshTimerRef (DispatchPage.page w) = Some h.

(** The worlds the page can be in: the initial one, and those its
    operations lead to, whatever the backend answers.  A call of [loadData]
    that is suspended at its [await] has only set the loading flag
    ([reach_suspend]); its completion is then a run of [loadData] from
    whatever world the other calls have produced meanwhile. *)
Inductive reachable (rt : Runtime) : DispatchPage.World -> Prop :=
| reach_init : reachable rt DispatchPage.initialWorld
| reach_suspend w :
    reachable rt w ->
    reachable rt (DispatchPage.exec (DispatchPage.setLoading true) w)
| reach_loadData w env :
    reachable rt w -> reachable rt (DispatchPage.exec (DispatchPage.loadData rt env) w)
| reach_refresh w env :
    reachable rt w ->
    reachable rt (DispatchPage.exec (DispatchPage.handleTableRefresh rt env) w)
| reach_factory w ps envCode api :
    reachable rt w ->
    reachable rt (DispatchPage.exec (DispatchPage.loadFactoryInfo rt ps envCode api) w)
| reach_unmount w :
    reachable rt w -> reachable rt (DispatchPage.exec DispatchPage.unmount w).

(** *** Transports for the HTTP client *)

(** Two 500 responses, then a 200 carrying the envelope of [data]. *)
Definition twoFailuresThenSuccess (data : value) (attempt : Z)
  : Exn + FetchHttp.Response :=
  if attempt <? 2 then inr (FetchHttp.plain 500 "Internal Server Error")
  else inr (FetchHttp.envelope 200 (VNumber (number_of_Z 200)) "ok" data).

(** A 404 on every attempt. *)
Definition alwaysNotFound (attempt : Z) : Exn + FetchHttp.Response :=
  inr (FetchHttp.plain 404 "Not Found").

(** A 300 response first, then a success. *)
Definition multipleChoicesThenSuccess (data : value) (attempt : Z)
  : Exn + FetchHttp.Response :=
  if attempt =? 0 then inr (FetchHttp.plain 300 "Multiple Choices")
  else inr (FetchHttp.envelope 200 (VNumber (number_of_Z 200)) "ok" data).

(** A 300 response on every attempt. *)
Definition alwaysMultipleChoices (attempt : Z) : Exn + FetchHttp.Response :=
  inr (FetchHttp.plain 300 "Multiple Choices").

(** The abort of the timeout on every attempt, with the message Chromium
    gives the rejection. *)
Definition alwaysAborted (attempt : Z) : Exn + FetchHttp.Response :=
  inl (Error "AbortError" "signal is aborted without reason").

(** What makes the client try again: a response it reports as a server
    error, or an exception whose message carries a network marker. *)
Definition retryCause (o : Exn + FetchHttp.Response) (e : FetchHttp.Thrown) : Prop :=
  (exists r, o = inr r /\ FetchHttp.isServerError r = true) \/
  (exists name msg, e = FetchHttp.ThrownExn (Error name msg) /\
     FetchHttp.isRetryableError e = true).

(** The events of [n] attempts separated by pauses of [d] ms, the first
    being attempt [k]. *)
Fixpoint attemptsTrace (n : nat) (k d : Z) : list FetchHttp.Event :=
  match n with
  | O => []
  | S O => [FetchHttp.Fetched k]
  | S n' => FetchHttp.Fetched k :: FetchHttp.Slept d :: attemptsTrace n' (k + 1) d
  end.

(** *** The scrolling table *)

(** No event of the list is a reset: the events of one scroll cycle. *)
Definition noUpdate (es : list ShippingTable.Event) : bool :=
  forallb (fun e => negb (ShippingTable.isUpdate e)) es.

Definition sampleOrder (sheet : string) : ShippingTable.Order :=
  ShippingTable.mkOrder sheet "JIT" "Dock 3" "08:05" DispatchPage.pending false
    DispatchPage.none.

Definition sampleProps : ShippingTable.ShippingTableProps :=
  ShippingTable.mkProps [sampleOrder "S1"; sampleOrder "S2"] true true (Some 0).

Definition emptyProps : ShippingTable.ShippingTableProps :=
  ShippingTable.mkProps [] true true (Some 1).

(** *** Sample records *)

(** A factory lookup that answers with a [data] envelope. *)
Definition sampleApi (code : string) : FetchHttp.Thrown + value :=
  inr (VObject [("data", VObject [("factoryCode", VString code);
                                  ("factoryName", VString "Plant 7")])]).


Definition sampleRecord (sheet : string) (flag : option string)
    (delivered receipt : value) : DispatchPage.DispatchBoardFlightVO :=
  DispatchPage.mkRecord (Some "JIT") (Some sheet) (Some "2024-03-01T08:05:00")
    (Some "Dock 3") delivered receipt flag.

(** The three records of the summary scenario: a delayed one with no
    receipt, a delivered one, and one with a receipt that was never
    delivered. *)
Definition scenarioB : list DispatchPage.DispatchBoardFlightVO :=
  [sampleRecord "S1" (Some "DELAYED") VUndefined (VBoolean false);
   sampleRecord "S2" (Some "ON_TIME") (VBoolean true) VUndefined;
   sampleRecord "S3" (Some "ON_TIME") (VBoolean false) (VBoolean true)].

Definition envWith (records : list DispatchPage.DispatchBoardFlightVO)
  : DispatchPage.LoadEnv :=
  DispatchPage.mkLoadEnv 1709280000000
    (fun _ => inr (DispatchPage.mkFetchResult records (Z.of_nat (List.length records))))
    "16:00:00".

Definition envFailing : DispatchPage.LoadEnv :=
  DispatchPage.mkLoadEnv 1709280000000
    (fun _ => inl (FetchHttp.ThrownExn (Error "Error" "HTTP error! status: 502")))
    "16:00:00".

End Props.

(* ================================================================== *)
(** ** utils/fetch.ts: URLs, query strings and the token cookie        *)
(* ================================================================== *)

Module HttpUrl.
Import Js.

(** [s.startsWith(p)] *)
Definition startsWith (s p : string) : bool := prefix p s.

(** [url.replace(/\/$/, '')]: one final slash is removed. *)
Fixpoint stripTrailingSlash (url : string) : string :=
  match url with
  | EmptyString => EmptyString
  | String c EmptyString => if Ascii.eqb c "/" then EmptyString else url
  | String c rest => String c (stripTrailingSlash rest)
  end.

(** [setBaseUrl(url)]: the new value of the field [baseUrl]. *)
Definition setBaseUrl (url : string) : string := stripTrailingSlash url.

(** [buildUrl(url, baseUrl)], with [thisBaseUrl] the field of the instance. *)
Definition buildUrl (thisBaseUrl : string) (url : string) (baseUrl : option string)
  : string :=
  let finalBaseUrl := DispatchPage.orString baseUrl thisBaseUrl in
  if negb (String.eqb finalBaseUrl "")
     && negb (startsWith url "http://")
     && negb (startsWith url "https://")
     && negb (startsWith url "//")
  then (finalBaseUrl ++ (if startsWith url "/" then "" else "/") ++ url)%string
  else url.

(** The separator and the cache-busting parameter appended to a URL. *)
Definition withTimestamp (url : string) (now : Z) : string :=
  (url ++ (if includes url "?" then "&" else "?") ++ "_t=" ++ Z_toString now)%string.

(** [requestUrl] of [request]: the URL handed to [fetch]. *)
Definition requestUrl (thisBaseUrl : string) (url : string) (baseUrl : option string)
    (method : string) (now : Z) : string :=
  let finalUrl := buildUrl thisBaseUrl url baseUrl in
  if String.eqb method "GET" then withTimestamp finalUrl now else finalUrl.

(** *** encodeURIComponent, on the UTF-8 bytes of the string *)

Definition isUnreserved (c : ascii) : bool :=
  let n := nat_of_ascii c in
  (Nat.leb 65 n && Nat.leb n 90) || (Nat.leb 97 n && Nat.leb n 122)
  || (Nat.leb 48 n && Nat.leb n 57)
  || Nat.eqb n 45 || Nat.eqb n 95 || Nat.eqb n 46 || Nat.eqb n 33
  || Nat.eqb n 126 || Nat.eqb n 42 || Nat.eqb n 39 || Nat.eqb n 40 || Nat.eqb n 41.

Definition hexDigit (n : nat) : ascii :=
  if Nat.ltb n 10 then ascii_of_nat (48 + n) else ascii_of_nat (55 + n).

Fixpoint encodeURIComponent (s : string) : string :=
  match s with
  | EmptyString => EmptyString
  | String c rest =>
      if isUnreserved c then String c (encodeURIComponent rest)
      else
        let n := nat_of_ascii c in
        String "%" (String (hexDigit (n / 16)) (String (hexDigit (n mod 16))
          (encodeURIComponent rest)))
  end.

(** *** serializeParams *)

Inductive Scalar :=
| SString (s : string)
| SNumber (x : number)
| SBoolean (b : bool).

(** A parameter value; an array item is [None] when it is [null] or
    [undefined]. *)
Inductive ParamValue :=
| PNull
| PUndefined
| PScalar (s : Scalar)
| PArray (items : list (option Scalar)).

(** [Object.entries(params)], in its order. *)
Definition Params := list (string * ParamValue).

(** [parts.join(sep)] *)
Fixpoint join (sep : string) (parts : list string) : string :=
  match parts with
  | [] => EmptyString
  | [p] => p
  | p :: rest => (p ++ sep ++ join sep rest)%string
  end.

Section Serialize.

Variable rt : Runtime.

(** [String(value)] *)
Definition String_ (v : Scalar) : string :=
  match v with
  | SString s => s
  | SNumber x => Number_toString rt x
  | SBoolean true => "true"
  | SBoolean false => "false"
  end.

Definition part (key : string) (v : Scalar) : string :=
  (encodeURIComponent key ++ "=" ++ encodeURIComponent (String_ v))%string.

Fixpoint filteredItems (items : list (option Scalar)) : list Scalar :=
  match items with
  | [] => []
  | Some v :: rest => v :: filteredItems rest
  | None :: rest => filteredItems rest
  end.

(** What the callback of [forEach] pushes for one entry. *)
Definition partsOf (entry : string * ParamValue) : list string :=
  let '(key, value) := entry in
  match value with
  | PNull | PUndefined => []
  | PArray items => map (part key) (filteredItems items)
  | PScalar v => [part key v]
  end.

Definition serializeParams (params : Params) : string :=
  join "&" (flat_map partsOf params).

(** The URL [get(url, params, options)] passes to [request], and the one
    [request] then fetches ([now1] and [now2] are the two readings of
    [Date.now()]). *)
Definition getUrl (url : string) (params : option Params) (now1 : Z) : string :=
  let requestUrl1 :=
    match params with
    | Some ps =>
        let queryString := serializeParams ps in
        if negb (String.eqb queryString "")
        then (url ++ (if includes url "?" then "&" else "?") ++ queryString)%string
        else url
    | None => url
    end in
  withTimestamp requestUrl1 now1.

Definition getFetchedUrl (thisBaseUrl : string) (url : string) (params : option Params)
    (baseUrl : option string) (now1 now2 : Z) : string :=
  requestUrl thisBaseUrl (getUrl url params now1) baseUrl "GET" now2.

End Serialize.

(** *** The token cookie *)

(** [s.split(sep)] for a one-character separator. *)
Fixpoint splitOn (sep : ascii) (s : string) : list string :=
  match s with
  | EmptyString => [EmptyString]
  | String c rest =>
      if Ascii.eqb c sep then EmptyString :: splitOn sep rest
      else match splitOn sep rest with
           | h :: t => String c h :: t
           | [] => [String c EmptyString]
           end
  end.

(** [s.substring(n)] *)
Fixpoint dropChars (n : nat) (s : string) : string :=
  match n, s with
  | O, _ => s
  | S n', String _ rest => dropChars n' rest
  | S _, EmptyString => EmptyString
  end.

(** The loop of [getTokenFromCookie] over [cookieArray]. *)
Fixpoint findToken (cookieArray : list string) : option string :=
  match cookieArray with
  | [] => None
  | c :: rest =>
      let cookie := trim c in
      if prefix "token=" cookie then Some (dropChars 6 cookie)
      else findToken rest
  end.

(** [getTokenFromCookie()].  [document] is [None] when there is no document;
    otherwise it is how [decodeURIComponent(document.cookie)] ends: with the
    decoded text, or with the URIError it throws. *)
Definition getTokenFromCookie (document : option (Exn + string))
  : Exn + option string :=
  match document with
  | None => inr None
  | Some (inl x) => inl x
  | Some (inr decodedCookie) => inr (findToken (splitOn ";" decodedCookie))
  end.

(** The [Authorization] header [request] adds: none for a missing or an
    empty token. *)
Definition authorization (token : option string) : option string :=
  match token with
  | Some t => if String.eqb t "" then None else Some ("Bearer " ++ t)%string
  | None => None
  end.

(** [request] with the steps that precede its loop: the URL check, then the
    token lookup when [withToken] is set. *)
Definition requestWithToken (rt : Runtime) (reqId : string)
    (fetch : Z -> Exn + FetchHttp.Response)
    (document : option (Exn + string)) (withToken : bool)
    (url : string) (options : FetchHttp.FetchOptions)
  : list FetchHttp.Event * (FetchHttp.Thrown + value) :=
  if String.eqb url "" then FetchHttp.request rt reqId fetch url options
  else if withToken then
    match getTokenFromCookie document with
    | inl x => ([], inl (FetchHttp.ThrownExn x))
    | inr _ => FetchHttp.request rt reqId fetch url options
    end
  else FetchHttp.request rt reqId fetch url options.

End HttpUrl.

(* ================================================================== *)
(** ** api/dispatchBoard.ts: the dispatch list fetch                   *)
(* ================================================================== *)

Module Api.
Import Js.

(** The page object of the backend; every field may be missing. *)
Record PageData := mkPageData {
  pd_content : option (list DispatchPage.DispatchBoardFlightVO);
  pd_items : option (list DispatchPage.DispatchBoardFlightVO);
  pd_totalElements : option Z;
  pd_total : option Z;
  pd_number : option Z;
  pd_size : option Z;
  pd_totalPages : option Z;
  pd_numberOfElements : option Z
}.

Record FetchResult := mkFetchResult {
  content : list DispatchPage.DispatchBoardFlightVO;
  totalElements : Z;
  number : Z;
  size : Z;
  totalPages : Z;
  numberOfElements : Z
}.

(** [a || b] on optional counts: [undefined] and [0] are falsy. *)
Definition orCount (a : option Z) (b : Z) : Z :=
  match a with
  | Some n => if n =? 0 then b else n
  | None => b
  end.

(** [a || b] on optional arrays: an array, even empty, is truthy. *)
Definition orArray {A : Type} (a : option (list A)) (b : list A) : list A :=
  match a with
  | Some l => l
  | None => b
  end.

(** The object both variants return, from the page data ([None] when the
    data is [null] or missing). *)
Definition normalize (data : option PageData) : FetchResult :=
  match data with
  | Some pageData =>
      {| content := orArray (pd_content pageData) (orArray (pd_items pageData) []);
         totalElements := orCount (pd_totalElements pageData) (orCount (pd_total pageData) 0);
         number := orCount (pd_number pageData) 0;
         size := orCount (pd_size pageData) 0;
         totalPages := orCount (pd_totalPages pageData) 0;
         numberOfElements := orCount (pd_numberOfElements pageData) 0 |}
  | None => mkFetchResult [] 0 0 0 0 0
  end.

(** The envelope [{ code, msg, data }] as [response.json()] delivers it. *)
Record Envelope := mkEnvelope {
  env_code : value;
  env_msg : string;
  env_data : option PageData
}.

(** What the variant built on [fetch] receives: the rejection of [fetch], or
    the status with the outcome of [response.json()] ([None] for [null]). *)
Record RawResponse := mkRawResponse {
  raw_status : Z;
  raw_json : Exn + option Envelope
}.

Definition raw_ok (r : RawResponse) : bool :=
  (200 <=? raw_status r) && (raw_status r <=? 299).

(** [fetchDispatchBoard] of api/dispatchBoard.ts: the log lines and the
    outcome. *)
Definition fetchDispatchBoard_fetch (outcome : Exn + RawResponse)
  : list string * (FetchHttp.Thrown + FetchResult) :=
  let attempt : Exn + FetchResult :=
    match outcome with
    | inl x => inl x
    | inr response =>
        if negb (raw_ok response) then
          inl (Error "Error"
                 ("HTTP error! status: " ++ Z_toString (raw_status response))%string)
        else
          match raw_json response with
          | inl x => inl x
          | inr result =>
              inr (normalize (match result with
                              | Some env => env_data env
                              | None => None
                              end))
          end
    end in
  match attempt with
  | inr r => ([], inr r)
  | inl x => (["获取看板数据失败:"], inl (FetchHttp.ThrownExn x))
  end.

(** [fetchDispatchBoard] of the variant built on [fetchHttp.post], given
    how the promise of [post] settles. *)
Definition fetchDispatchBoard_http (posted : FetchHttp.Thrown + option PageData)
  : list string * (FetchHttp.Thrown + FetchResult) :=
  match posted with
  | inr data => ([], inr (normalize data))
  | inl error => (["获取看板数据失败:"], inl error)
  end.

(** The result as [loadData] reads it. *)
Definition toPageResult (r : FetchResult) : DispatchPage.DispatchBoardFetchResult :=
  DispatchPage.mkFetchResult (content r) (totalElements r).

(** The environment of a [loadData] whose fetch goes through the variant
    built on [fetch]. *)
Definition envOfRaw (now : Z) (outcome : Exn + RawResponse) (nowTime : string)
  : DispatchPage.LoadEnv :=
  DispatchPage.mkLoadEnv now
    (fun _ => match snd (fetchDispatchBoard_fetch outcome) with
              | inl e => inl e
              | inr r => inr (toPageResult r)
              end)
    nowTime.

(** The URL [getInfoByFactoryCodeApi] fetches, after [API_BASE_URL]. *)
Definition getInfoPath : string :=
  "/api/hylir-masterdata-center/api/v1/manage/factory/getInfoByFactoryCode".

Definition getInfoUrl (API_BASE_URL factoryCode : string) : string :=
  (API_BASE_URL ++ getInfoPath ++ "?factoryCode="
   ++ HttpUrl.encodeURIComponent factoryCode)%string.

End Api.

(* ================================================================== *)
(** ** components/Trends.tsx: the seven-day trend                      *)
(* ================================================================== *)

Module Trends.
Import Js.

(** [s.split(sep)[0]]: the text before the first [sep]. *)
Fixpoint beforeFirst (sep : ascii) (s : string) : string :=
  match s with
  | EmptyString => EmptyString
  | String c rest => if Ascii.eqb c sep then EmptyString else String c (beforeFirst sep rest)
  end.

(** [formatApiDateTime] *)
Definition formatApiDateTime (dateTimeStr : string) : string :=
  if String.eqb dateTimeStr "" then ""
  else beforeFirst "T" (beforeFirst " " dateTimeStr).

(** The fields of a record the chart reads. *)
Record Item := mkItem {
  gmtCreate : option string;
  isDelivered : value
}.

Record Count := mkCount {
  total : Z;
  shipped : Z
}.

(** [dateCountMap]: the own entries of the object, by date.  Names the
    object inherits can make the test [dateCountMap[itemDate]] succeed, but
    the update then lands on the inherited object and no own entry changes. *)
Definition CountMap := list (string * Count).

Fixpoint lookup (m : CountMap) (k : string) : option Count :=
  match m with
  | [] => None
  | (k', c) :: rest => if String.eqb k' k then Some c else lookup rest k
  end.

(** [dateCountMap[date] = c] *)
Fixpoint assign (m : CountMap) (k : string) (c : Count) : CountMap :=
  match m with
  | [] => [(k, c)]
  | (k', c') :: rest =>
      if String.eqb k' k then (k', c) :: rest else (k', c') :: assign rest k c
  end.

(** The initialisation loop over [last7Days]. *)
Fixpoint initMap (days : list string) (m : CountMap) : CountMap :=
  match days with
  | [] => m
  | d :: rest => initMap rest (assign m d (mkCount 0 0))
  end.

Definition isTrue (v : value) : bool :=
  match v with VBoolean true => true | _ => false end.

(** The body of the loop over [allItems]. *)
Definition countItem (m : CountMap) (item : Item) : CountMap :=
  let itemDate := formatApiDateTime (DispatchPage.orString (gmtCreate item) "") in
  match lookup m itemDate with
  | Some c =>
      let c1 := mkCount (total c + 1) (shipped c) in
      assign m itemDate
        (if isTrue (isDelivered item) then mkCount (total c1) (shipped c1 + 1) else c1)
  | None => m
  end.

Record TrendData := mkTrendData {
  date : string;
  weekday : option string;
  td_total : Z;
  td_shipped : Z
}.

(** [allFlights], for the dates [last7Days] and the items of the answer;
    [getWeekday] is the engine's reading of each date. *)
Definition allFlights (getWeekday : string -> option string)
    (last7Days : list string) (allItems : list Item) : list TrendData :=
  let dateCountMap := fold_left countItem allItems (initMap last7Days []) in
  map (fun d =>
         {| date := d;
            weekday := getWeekday d;
            td_total := match lookup dateCountMap d with Some c => total c | None => 0 end;
            td_shipped := match lookup dateCountMap d with Some c => shipped c | None => 0 end |})
      last7Days.

(** [todayShipped]: [data[data.length - 1]?.shipped || 0] *)
Definition todayShipped (data : list TrendData) : Z :=
  match List.last (map Some data) None with
  | Some d => td_shipped d
  | None => 0
  end.

End Trends.

(* ================================================================== *)
(** ** App.tsx: the refresh countdown                                  *)
(* ================================================================== *)

Module App.

(** The updater the one-second timer passes to [setRefreshCountdown]. *)
Definition tick (prev : Z) : Z := if prev <=? 1 then 60 else prev - 1.

(** What happens to the countdown: a second passes, or the 60-second timer
    reloads and resets it. *)
Inductive Event := Second | Reload.

Definition step (e : Event) (c : Z) : Z :=
  match e with
  | Second => tick c
  | Reload => 60
  end.

Fixpoint run (es : list Event) (c : Z) : Z :=
  match es with
  | [] => c
  | e :: rest => run rest (step e c)
  end.

Definition initialCountdown : Z := 60.

End App.

(* ================================================================== *)
(** ** pages/DispatchPage.tsx: the percentages of the metric cards     *)
(* ================================================================== *)

Module Metrics.
Import Js.

(** Arithmetic on doubles: 53 bits of precision, round to nearest even. *)
Definition prec : Z := 53.
Definition emax : Z := 1024.

(** The double of an integer. *)
Definition ofZ (z : Z) : number := binary_normalize prec emax z 0 false.

(** [x / y] and [x * y] *)
Definition div (x y : number) : number := SFdiv prec emax x y.
Definition mul (x y : number) : number := SFmul prec emax x y.

(** [Math.round(x)]: the integer nearest to [x], the larger one on a tie;
    [None] when the result is NaN or infinite. *)
Definition Math_round (x : number) : option Z :=
  match x with
  | S754_zero _ => Some 0
  | S754_finite s m e =>
      let num := if s then Zneg m else Zpos m in
      if 0 <=? e then Some (num * 2 ^ e)
      else Some ((2 * num + 2 ^ (- e)) / (2 * 2 ^ (- e)))
  | _ => None
  end.

(** [whole > 0 ? Math.round((part / whole) * 100) : 0] *)
Definition percent (part whole : Z) : option Z :=
  if 0 <? whole then Math_round (mul (div (ofZ part) (ofZ whole)) (ofZ 100))
  else Some 0.

(** [completionRate], and the subtext of the receipt card. *)
Definition completionRate (s : DispatchPage.Summary) : option Z :=
  percent (DispatchPage.deliveredCount s) (DispatchPage.totalCount s).

Definition receiptRate (s : DispatchPage.Summary) : option Z :=
  percent (DispatchPage.receiptCount s) (DispatchPage.deliveredCount s).

End Metrics.

(* ================================================================== *)
(** ** Vocabulary of the further properties                            *)
(* ================================================================== *)

Module More.
Import Js.

(** *** Query strings *)

(** The entries a query string carries: every non-null value with its key,
    arrays unfolded, values as [String] prints them. *)
Definition flatEntries (rt : Runtime) (params : HttpUrl.Params) : list (string * string) :=
  flat_map (fun entry : string * HttpUrl.ParamValue =>
              let '(key, value) := entry in
              match value with
              | HttpUrl.PNull | HttpUrl.PUndefined => []
              | HttpUrl.PArray items =>
                  map (fun v => (key, HttpUrl.String_ rt v)) (HttpUrl.filteredItems items)
              | HttpUrl.PScalar v => [(key, HttpUrl.String_ rt v)]
              end) params.

Definition hexValue (c : ascii) : option nat :=
  let n := nat_of_ascii c in
  if Nat.leb 48 n && Nat.leb n 57 then Some (n - 48)%nat
  else if Nat.leb 65 n && Nat.leb n 70 then Some (n - 55)%nat
  else None.

(** Reads back what [encodeURIComponent] wrote; [fuel] bounds the length. *)
Fixpoint percentDecode (fuel : nat) (s : string) : string :=
  match fuel with
  | O => EmptyString
  | S fuel' =>
      match s with
      | EmptyString => EmptyString
      | String c rest =>
          if Ascii.eqb c "%" then
            match rest with
            | String h (String l rest') =>
                match hexValue h, hexValue l with
                | Some a, Some b =>
                    String (ascii_of_nat (16 * a + b)) (percentDecode fuel' rest')
                | _, _ => String c (percentDecode fuel' rest)
                end
            | _ => String c (percentDecode fuel' rest)
            end
          else String c (percentDecode fuel' rest)
      end
  end.

Definition decode (s : string) : string := percentDecode (String.length s) s.

(** Splits [key=value] at its first [=]. *)
Definition readPart (p : string) : string * string :=
  (decode (Trends.beforeFirst "=" p),
   decode (HttpUrl.dropChars (S (String.length (Trends.beforeFirst "=" p))) p)).

(** Reads a query string back into its entries. *)
Definition readQuery (q : string) : list (string * string) :=
  if String.eqb q "" then [] else map readPart (HttpUrl.splitOn "&" q).

Fixpoint allChars (p : ascii -> bool) (s : string) : bool :=
  match s with
  | EmptyString => true
  | String c rest => p c && allChars p rest
  end.

(** The characters [encodeURIComponent] writes. *)
Definition encChar (c : ascii) : bool := HttpUrl.isUnreserved c || Ascii.eqb c "%".

(** The characters of a query string: unreserved ones, [%], [=] and [&]. *)
Definition isQueryChar (c : ascii) : bool :=
  HttpUrl.isUnreserved c || Ascii.eqb c "%" || Ascii.eqb c "=" || Ascii.eqb c "&".

(** A path the base URL is put in front of with a slash added. *)
Definition relativePath (p : string) : bool :=
  negb (HttpUrl.startsWith p "/") && negb (HttpUrl.startsWith p "http://")
  && negb (HttpUrl.startsWith p "https://").

(** *** Cookies *)

Definition noChar (x : ascii) (s : string) : bool :=
  allChars (fun c => negb (Ascii.eqb c x)) s.

Definition firstChar (s : string) : option ascii :=
  match s with
  | EmptyString => None
  | String c _ => Some c
  end.

Fixpoint lastChar (s : string) : option ascii :=
  match s with
  | EmptyString => None
  | String c EmptyString => Some c
  | String _ rest => lastChar rest
  end.

(** A visible ASCII character (or none at all): white space of any kind,
    ASCII or not, does not start with one. *)
Definition visibleAscii (c : option ascii) : bool :=
  match c with
  | Some a => let n := nat_of_ascii a in Nat.leb 33 n && Nat.leb n 126
  | None => true
  end.

(** A cookie the jar can hold: a non-empty name with no [=], neither part
    with a [;], a visible ASCII character at the start of the name and at
    the end of a non-empty value. *)
Definition wellFormedCookie (c : string * string) : bool :=
  let '(name, v) := c in
  negb (String.eqb name "") && noChar "=" name && noChar ";" name && noChar ";" v
  && visibleAscii (firstChar name) && visibleAscii (lastChar v).

Definition cookiePair (c : string * string) : string := (fst c ++ "=" ++ snd c)%string.

(** [document.cookie] for a jar: [name=value] pairs joined by ["; "]. *)
Definition cookieString (jar : list (string * string)) : string :=
  HttpUrl.join "; " (map (fun c => (fst c ++ "=" ++ snd c)%string) jar).

(** The value of the first cookie of the jar named [name]. *)
Fixpoint jarLookup (name : string) (jar : list (string * string)) : option string :=
  match jar with
  | [] => None
  | (n, v) :: rest => if String.eqb n name then Some v else jarLookup name rest
  end.

(** *** The page *)

Definition AlertBanner (alerts : list DispatchPage.Alert) : option (list DispatchPage.Alert) :=
  if (List.length alerts =? 0)%nat then None else Some alerts.

(** The slices of the page a fetch replaces. *)
Definition dataSlices (p : DispatchPage.Page)
  : list DispatchPage.Order * DispatchPage.Summary * list DispatchPage.Alert * Z * string :=
  (DispatchPage.orders p, DispatchPage.summary p, DispatchPage.alerts p,
   DispatchPage.pendingWithReceiptCount p, DispatchPage.lastUpdateTime p).

Definition isHigh (o : DispatchPage.Order) : bool :=
  match DispatchPage.risk o with DispatchPage.high => true | _ => false end.

(** *** The table *)

(** The distance, in frames, between the container and the threshold. *)
Definition framesToGo (el : ShippingTable.Element) : Z :=
  ShippingTable.scrollHeight el - ShippingTable.clientHeight el
  - ShippingTable.BOTTOM_THRESHOLD - ShippingTable.scrollTop el.

(** The calls of [onRefresh] the current cycle can still make. *)
Definition budget (t : ShippingTable.Table) : nat :=
  if ShippingTable.shouldScrollRef t then 1%nat else O.

Fixpoint countUpdates (es : list ShippingTable.Event) : nat :=
  match es with
  | [] => O
  | e :: rest => if ShippingTable.isUpdate e then S (countUpdates rest) else countUpdates rest
  end.

(** Whether an update starts a new cycle: auto-scroll on, orders present. *)
Definition resets (e : ShippingTable.Event) : bool :=
  match e with
  | ShippingTable.Update p _ _ =>
      ShippingTable.autoScroll p && negb (List.length (ShippingTable.orders p) =? 0)%nat
  | _ => false
  end.

Fixpoint countResets (es : list ShippingTable.Event) : nat :=
  match es with
  | [] => O
  | e :: rest => if resets e then S (countResets rest) else countResets rest
  end.

(** The flags the banner and the loop read agree. *)
Definition flagsAgree (t : ShippingTable.Table) : Prop :=
  ShippingTable.isAtBottom t = ShippingTable.isAtBottomRef t /\
  ShippingTable.isAtBottom t = negb (ShippingTable.shouldScrollRef t).

(** *** The page and its table *)

(** The props of [<ShippingTable orders={orders} onRefresh={handleTableRefresh}
    refreshKey={tableRefreshKey} />]; [autoScroll] keeps its default. *)
Definition tableOrder (o : DispatchPage.Order) : ShippingTable.Order :=
  ShippingTable.mkOrder (DispatchPage.id o) (DispatchPage.type o)
    (DispatchPage.receiver o) (DispatchPage.requestTime o) (DispatchPage.status o)
    (ToBoolean (DispatchPage.hasReturn o)) (DispatchPage.risk o).

Definition tableProps (p : DispatchPage.Page) : ShippingTable.ShippingTableProps :=
  ShippingTable.mkProps (map tableOrder (DispatchPage.orders p)) true true
    (Some (DispatchPage.tableRefreshKey p)).

(** *** The chart *)

(** The item falls on the day [d]. *)
Definition onDay (d : string) (item : Trends.Item) : bool :=
  String.eqb (Trends.formatApiDateTime (DispatchPage.orString (Trends.gmtCreate item) "")) d.

(** What one item adds to the count of the day [d]. *)
Definition bump (d : string) (item : Trends.Item) (c : Trends.Count) : Trends.Count :=
  if onDay d item
  then Trends.mkCount (Trends.total c + 1)
         (if Trends.isTrue (Trends.isDelivered item)
          then Trends.shipped c + 1 else Trends.shipped c)
  else c.

(** *** The percentages *)

(** The percentage rounded on the exact quotient, halves upwards. *)
Definition exactPercent (part whole : Z) : Z := (200 * part + whole) / (2 * whole).

(** The exact percentage lies half-way between two integers. *)
Definition tie (part whole : Z) : bool := (200 * part) mod (2 * whole) =? whole.

Definition percentOk (part whole : Z) : bool :=
  match Metrics.percent part whole with
  | Some r =>
      (0 <=? r) && (r <=? 100) &&
      ((r =? exactPercent part whole)
       || ((r =? exactPercent part whole - 1) && tie part whole))
  | None => false
  end.

Definition allPercentOk (n : nat) : bool :=
  forallb (fun whole =>
             forallb (fun part => percentOk (Z.of_nat part) (Z.of_nat whole))
                     (seq 0 (S whole)))
          (seq 1 n).

(** *** Samples *)

Definition sampleParams : HttpUrl.Params :=
  [("page", HttpUrl.PScalar (HttpUrl.SNumber (number_of_Z 1)));
   ("q", HttpUrl.PScalar (HttpUrl.SString "a b&c"));
   ("skip", HttpUrl.PNull);
   ("tag", HttpUrl.PArray [Some (HttpUrl.SString "x"); None; Some (HttpUrl.SBoolean true)])].

Definition sampleJar : list (string * string) :=
  [("lang", "zh-CN"); ("token", "abc.def"); ("theme", "dark")].

Definition sampleItems : list Trends.Item :=
  [Trends.mkItem (Some "2026-02-10 17:28:29") (VBoolean true);
   Trends.mkItem (Some "2026-02-10T08:30:00") (VNumber (number_of_Z 1));
   Trends.mkItem (Some "2026-02-09 10:00:00") (VBoolean false);
   Trends.mkItem (Some "2026-01-01 10:00:00") (VBoolean true);
   Trends.mkItem None (VBoolean true)].

Definition sampleDays : list string :=
  ["2026-02-04"; "2026-02-05"; "2026-02-06"; "2026-02-07";
   "2026-02-08"; "2026-02-09"; "2026-02-10"].

(** A transport that answers every attempt with a 503. *)
Definition alwaysUnavailable (attempt : Z) : Exn + FetchHttp.Response :=
  inr (FetchHttp.plain 503 "Service Unavailable").

(** An error envelope delivered with HTTP 200 and no data. *)
Definition errorEnvelope : Exn + Api.RawResponse :=
  inr (Api.mkRawResponse 200
         (inr (Some (Api.mkEnvelope (VNumber (number_of_Z 500)) "internal error" None)))).

End More.

(* ================================================================== *)
(** * Properties                                                       *)
(* ================================================================== *)

(** ** The built-ins on sample inputs *)

Example parseInt_samples :
  Js.parseInt "1" 10 = Some 1 /\ Js.parseInt "0" 10 = Some 0 /\
  Js.parseInt " 42px" 10 = Some 42 /\ Js.parseInt "-7" 10 = Some (-7) /\
  Js.parseInt "abc" 10 = None /\ Js.parseInt "" 10 = None /\
  Js.parseInt "0x1F" 16 = Some 31 /\ Js.parseInt "0x1F" 10 = Some 0.
Proof. repeat split; reflexivity. Qed.

Example trim_samples :
  Js.trim " a b " = "a b" /\
  Js.trim (Props.ideographicSpace ++ "F1" ++ Props.ideographicSpace) = "F1" /\
  Js.trim Props.noBreakSpace = "" /\
  Js.parseInt (Props.ideographicSpace ++ "1") 10 = Some 1 /\
  forallb (fun ws => String.eqb (Js.trim (ws ++ "x y" ++ ws)) "x y"
                     && Js.isWhiteSpace ws)
          Props.whiteSpaceCodePoints = true /\
  forallb (fun c => String.eqb (Js.trim (c ++ "x" ++ c)) (c ++ "x" ++ c)
                    && negb (Js.isWhiteSpace c))
          Props.notWhiteSpaceCodePoints = true.
Proof. repeat split; vm_compute; reflexivity. Qed.

Example isoParse_samples :
  Js.isoParse "1970-01-01T00:00:00" = Some 0 /\
  Js.isoParse "2024-03-01T08:05:00" = Some 1709280300000 /\
  Js.isoParse "2024-02-30T08:05:00" = None /\
  Js.isoParse "not-a-date" = None.
Proof. repeat split; vm_compute; reflexivity. Qed.

(** ** White space *)

Section WhiteSpaceFacts.
Import Js More.

Lemma trimStart_eq a s1 :
  trimStart (String a s1) =
  if isWhiteSpace1 a then trimStart s1
  else
    match s1 with
    | EmptyString => String a s1
    | String b s2 =>
        if isWhiteSpace2 a b then trimStart s2
        else
          match s2 with
          | EmptyString => String a s1
          | String c s3 => if isWhiteSpace3 a b c then trimStart s3 else String a s1
          end
    end.
Proof. destruct s1 as [| b [| c s3]]; reflexivity. Qed.

Lemma isWhiteSpace1_bytes a :
  isWhiteSpace1 a = true -> (nat_of_ascii a <= 32)%nat.
Proof.
  unfold isWhiteSpace1. cbv zeta.
  rewrite !orb_true_iff, !Nat.eqb_eq. lia.
Qed.

Lemma isWhiteSpace2_bytes a b :
  isWhiteSpace2 a b = true -> nat_of_ascii a = 194%nat /\ nat_of_ascii b = 160%nat.
Proof.
  unfold isWhiteSpace2. now rewrite andb_true_iff, !Nat.eqb_eq.
Qed.

Lemma isWhiteSpace3_bytes a b c :
  isWhiteSpace3 a b c = true ->
  (225 <= nat_of_ascii a /\ 128 <= nat_of_ascii b /\ 128 <= nat_of_ascii c)%nat.
Proof.
  unfold isWhiteSpace3. cbv zeta.
  rewrite !orb_true_iff, !andb_true_iff, !orb_true_iff, !andb_true_iff,
    !Nat.eqb_eq, !Nat.leb_le.
  lia.
Qed.

Lemma visibleAscii_bounds a :
  visibleAscii (Some a) = true -> (33 <= nat_of_ascii a <= 126)%nat.
Proof.
  unfold visibleAscii. cbv zeta. now rewrite andb_true_iff, !Nat.leb_le.
Qed.

Lemma visible_not_white1 a : visibleAscii (Some a) = true -> isWhiteSpace1 a = false.
Proof.
  intros H. apply visibleAscii_bounds in H.
  destruct (isWhiteSpace1 a) eqn:E; [apply isWhiteSpace1_bytes in E; lia | reflexivity].
Qed.

Lemma visible_not_white2 a b :
  visibleAscii (Some a) = true \/ visibleAscii (Some b) = true -> isWhiteSpace2 a b = false.
Proof.
  intros H. destruct (isWhiteSpace2 a b) eqn:E; [| reflexivity].
  apply isWhiteSpace2_bytes in E. destruct H as [H | H]; apply visibleAscii_bounds in H; lia.
Qed.

Lemma visible_not_white3 a b c :
  visibleAscii (Some a) = true \/ visibleAscii (Some b) = true \/
  visibleAscii (Some c) = true ->
  isWhiteSpace3 a b c = false.
Proof.
  intros H. destruct (isWhiteSpace3 a b c) eqn:E; [| reflexivity].
  apply isWhiteSpace3_bytes in E.
  destruct H as [H | [H | H]]; apply visibleAscii_bounds in H; lia.
Qed.

(** White space at the head is skipped, whatever follows it. *)
Lemma trimStart_skips_length n : forall ws s,
  (String.length ws <= n)%nat -> isWhiteSpace ws = true ->
  trimStart (ws ++ s) = trimStart s.
Proof.
  unfold isWhiteSpace.
  induction n as [| n IH]; intros ws s Hlen Hw.
  - destruct ws; [reflexivity | cbn in Hlen; lia].
  - apply String.eqb_eq in Hw.
    destruct ws as [| a ws1]; [reflexivity |].
    rewrite trimStart_eq in Hw. change (String a ws1 ++ s)%string with (String a (ws1 ++ s)).
    rewrite trimStart_eq. cbn in Hlen.
    destruct (isWhiteSpace1 a).
    { apply IH; [lia | now apply String.eqb_eq]. }
    destruct ws1 as [| b ws2]; [discriminate |].
    change (String b ws2 ++ s)%string with (String b (ws2 ++ s)). cbn in Hlen.
    cbv beta match. destruct (isWhiteSpace2 a b).
    { apply IH; [lia | now apply String.eqb_eq]. }
    destruct ws2 as [| c ws3]; [discriminate |].
    change (String c ws3 ++ s)%string with (String c (ws3 ++ s)). cbn in Hlen.
    cbv beta match. destruct (isWhiteSpace3 a b c); [| discriminate].
    apply IH; [lia | now apply String.eqb_eq].
Qed.

Lemma trimStart_skips ws s :
  isWhiteSpace ws = true -> trimStart (ws ++ s) = trimStart s.
Proof. apply (trimStart_skips_length (String.length ws)). lia. Qed.

(** A visible ASCII character stops [trimStart]. *)
Lemma trimStart_visible a s :
  visibleAscii (Some a) = true -> trimStart (String a s) = String a s.
Proof.
  intros H. rewrite trimStart_eq, (visible_not_white1 a H).
  destruct s as [| b [| c s3]]; trivial.
  - now rewrite visible_not_white2 by now left.
  - rewrite visible_not_white2 by now left. now rewrite visible_not_white3 by now left.
Qed.

Lemma lastChar_step c d s : lastChar (String c (String d s)) = lastChar (String d s).
Proof. reflexivity. Qed.

(** A text that ends with a visible ASCII character is not white space,
    whatever is appended to it. *)
Lemma visible_end_not_white_length n : forall t w,
  (String.length t <= n)%nat -> t <> "" -> visibleAscii (lastChar t) = true ->
  isWhiteSpace (t ++ w) = false.
Proof.
  unfold isWhiteSpace.
  induction n as [| n IH]; intros t w Hlen Hne Hv.
  - destruct t; [now destruct Hne | cbn in Hlen; lia].
  - destruct t as [| a t1]; [now destruct Hne |].
    change (String a t1 ++ w)%string with (String a (t1 ++ w)).
    rewrite trimStart_eq. cbn in Hlen.
    destruct t1 as [| b t2].
    { (* [a] is the last character *)
      cbn [lastChar] in Hv. rewrite (visible_not_white1 a Hv). cbn [append].
      destruct w as [| b [| c w3]]; trivial.
      - now rewrite visible_not_white2 by now left.
      - rewrite visible_not_white2 by now left.
        now rewrite visible_not_white3 by now left. }
    rewrite lastChar_step in Hv.
    destruct (isWhiteSpace1 a).
    { apply IH; [lia | discriminate | exact Hv]. }
    change (String b t2 ++ w)%string with (String b (t2 ++ w)). cbn in Hlen.
    cbv beta match. destruct t2 as [| c t3].
    { (* [b] is the last character *)
      cbn [lastChar] in Hv. rewrite visible_not_white2 by now right. cbn [append].
      destruct w as [| c w3]; trivial.
      now rewrite visible_not_white3 by (right; now left). }
    rewrite lastChar_step in Hv.
    destruct (isWhiteSpace2 a b).
    { apply IH; [lia | discriminate | exact Hv]. }
    change (String c t3 ++ w)%string with (String c (t3 ++ w)). cbn in Hlen.
    cbv beta match. destruct t3 as [| d t4].
    { cbn [lastChar] in Hv. now rewrite visible_not_white3 by (right; now right). }
    rewrite lastChar_step in Hv.
    destruct (isWhiteSpace3 a b c); [| reflexivity].
    apply IH; [lia | discriminate | exact Hv].
Qed.

Lemma visible_end_not_white t w :
  t <> "" -> visibleAscii (lastChar t) = true -> isWhiteSpace (t ++ w) = false.
Proof. apply (visible_end_not_white_length (String.length t)). lia. Qed.

Lemma trimEnd_white w : isWhiteSpace w = true -> trimEnd w = "".
Proof. destruct w as [| c w]; [reflexivity |]. cbn [trimEnd]. now intros ->. Qed.

(** [trimEnd] drops the white space after a visible ASCII character, and
    nothing else. *)
Lemma trimEnd_drops t : forall w,
  visibleAscii (lastChar t) = true -> isWhiteSpace w = true ->
  trimEnd (t ++ w) = t.
Proof.
  induction t as [| c t IH]; intros w Hv Hw; [now apply trimEnd_white |].
  change (String c t ++ w)%string with (String c (t ++ w)). cbn [trimEnd].
  change (String c (t ++ w)) with (String c t ++ w)%string.
  rewrite (visible_end_not_white (String c t) w); [| discriminate | exact Hv].
  f_equal. apply IH; [| exact Hw].
  destruct t as [| d t']; [reflexivity | exact Hv].
Qed.

Lemma append_nil_right (s : string) : (s ++ "")%string = s.
Proof. induction s as [| c s IH]; cbn; [reflexivity | now rewrite IH]. Qed.

Lemma trimEnd_id s : visibleAscii (lastChar s) = true -> trimEnd s = s.
Proof.
  intros H. rewrite <- (append_nil_right s) at 1. now apply trimEnd_drops.
Qed.

(** [trim] drops the white space, of any kind, around a text that starts
    and ends with a visible ASCII character, and nothing else. *)
Lemma trim_strips ws1 ws2 t :
  isWhiteSpace ws1 = true -> isWhiteSpace ws2 = true ->
  t <> "" -> visibleAscii (firstChar t) = true -> visibleAscii (lastChar t) = true ->
  trim (ws1 ++ t ++ ws2) = t.
Proof.
  intros H1 H2 Hne Hf Hl. unfold trim. rewrite (trimStart_skips ws1 _ H1).
  destruct t as [| a t']; [now destruct Hne |].
  change (String a t' ++ ws2)%string with (String a (t' ++ ws2)).
  rewrite (trimStart_visible a _ Hf).
  change (String a (t' ++ ws2)) with (String a t' ++ ws2)%string.
  now apply trimEnd_drops.
Qed.

(** A text made of white space only trims to the empty string. *)
Lemma trim_white ws : isWhiteSpace ws = true -> trim ws = "".
Proof.
  unfold trim, isWhiteSpace. intros H. apply String.eqb_eq in H. now rewrite H.
Qed.

End WhiteSpaceFacts.

(** ** Transformations: alerts, order status, time formatting *)

Section TransformFacts.
Import Js DispatchPage Props.

Lemma slice_from_start {A : Type} (a : list A) (n : nat) :
  slice a 0 (Z.of_nat n) = firstn n a.
Proof.
  unfold slice. cbn [Z.ltb Z.compare].
  destruct (Z.of_nat n <? 0) eqn:Hn; [apply Z.ltb_lt in Hn; lia |].
  replace (Z.min 0 (Z.of_nat (List.length a))) with 0 by lia.
  replace (Z.to_nat (Z.max (Z.min (Z.of_nat n) (Z.of_nat (List.length a)) - 0) 0))
    with (Nat.min n (List.length a)) by lia.
  cbn [Z.to_nat skipn].
  destruct (Nat.le_gt_cases n (List.length a)) as [Hle | Hgt].
  - now rewrite Nat.min_l by lia.
  - rewrite Nat.min_r by lia. rewrite !firstn_all2; trivial; lia.
Qed.

Lemma length_filter_countIf {A : Type} (p : A -> bool) (l : list A) :
  List.length (filter p l) = countIf p l.
Proof.
  induction l as [| x l IH]; cbn; [reflexivity |].
  destruct (p x); cbn; now rewrite IH.
Qed.

Lemma isDelayedWithoutReceipt_spec r :
  isDelayedWithoutReceipt r = true <->
  riskFlag r = Some "DELAYED" /\ ToBoolean (hasReceipt r) = false.
Proof.
  unfold isDelayedWithoutReceipt. destruct (riskFlag r) as [f |].
  - rewrite andb_true_iff, negb_true_iff. split.
    + intros [Hf Hr]. apply String.eqb_eq in Hf. now subst.
    + intros [Hf Hr]. injection Hf as ->. now rewrite String.eqb_refl.
  - split; [discriminate | intros [H _]; discriminate].
Qed.

(** C6.  For every record list, the alerts are exactly the records whose
    risk flag is ['DELAYED'] and that have no receipt, taken in input order
    and cut to the first 8 of them: the i-th alert comes from the i-th such
    record, its id is the sheet number of that record (the empty string
    when the record has none), its message is the fixed text and its
    timestamp is the formatted required time of that record; hence there
    are [min 8 n] alerts when [n] records match. *)
Theorem transformAlerts_first_eight rt records :
  let matches := filter isDelayedWithoutReceipt records in
  let alert r :=
    {| alert_id := match sheetNo r with Some s => s | None => "" end;
       alert_message := "超时未发货";
       alert_timestamp := formatTime rt (lastRecRequireTime r) |} in
  transformAlerts rt records = map alert (firstn 8 matches) /\
  List.length (transformAlerts rt records) = Nat.min 8 (countIf isDelayedWithoutReceipt records) /\
  (forall r, In r matches <->
     In r records /\ riskFlag r = Some "DELAYED" /\ ToBoolean (hasReceipt r) = false) /\
  (forall i, (i < 8)%nat ->
     nth_error (transformAlerts rt records) i = option_map alert (nth_error matches i)) /\
  (forall i, (8 <= i)%nat -> nth_error (transformAlerts rt records) i = None) /\
  (forall a, In a (transformAlerts rt records) ->
     alert_message a = "超时未发货" /\
     exists r, In r records /\ riskFlag r = Some "DELAYED" /\
               ToBoolean (hasReceipt r) = false /\
               alert_id a = match sheetNo r with Some s => s | None => "" end /\
               alert_timestamp a = formatTime rt (lastRecRequireTime r)).
Proof.
  intros matches alert.
  assert (Ealert : forall r, toAlert rt r = alert r).
  { intros r. unfold toAlert, alert, orString.
    destruct (sheetNo r) as [x |]; [| reflexivity].
    destruct (String.eqb_spec x "") as [-> | _]; reflexivity. }
  assert (E : transformAlerts rt records = map alert (firstn 8 matches)).
  { unfold transformAlerts. fold matches.
    change 8 with (Z.of_nat 8). rewrite slice_from_start.
    apply map_ext. exact Ealert. }
  assert (Hin : forall r, In r matches <->
            In r records /\ riskFlag r = Some "DELAYED" /\ ToBoolean (hasReceipt r) = false).
  { intros r. unfold matches. rewrite filter_In, isDelayedWithoutReceipt_spec. tauto. }
  split; [exact E |]. split; [| split; [exact Hin | split; [| split]]].
  - rewrite E, length_map, length_firstn. unfold matches.
    now rewrite length_filter_countIf.
  - intros i Hi. rewrite E, nth_error_map, nth_error_firstn.
    apply Nat.ltb_lt in Hi. now rewrite Hi.
  - intros i Hi. apply nth_error_None. rewrite E, length_map, length_firstn. lia.
  - intros a Ha. rewrite E in Ha. apply in_map_iff in Ha.
    destruct Ha as [r [<- Hr]]. split; [reflexivity |].
    assert (Hm : In r matches).
    { rewrite <- (firstn_skipn 8 matches). apply in_or_app. now left. }
    apply Hin in Hm. destruct Hm as (H1 & H2 & H3).
    exists r. now repeat split.
Qed.

Lemma parseInt_skips ws s radix :
  isWhiteSpace ws = true -> parseInt (ws ++ s) radix = parseInt s radix.
Proof.
  intros H. unfold parseInt. now rewrite (trimStart_skips ws s H).
Qed.

(** C4, as amended.  The status derived from a delivered flag is decided by
    the type of the flag: a boolean is shipped when [true]; a number is
    shipped unless it is [0], [-0] or NaN; a string is shipped exactly when
    [parseInt(flag, 10)] reads a non-zero integer from it, so ["1"] is
    shipped and ["0"] pending, while other strings go by what [parseInt]
    reads, white space of any kind before the number being skipped; an
    absent or [null] flag is pending; any other representation, an object
    or an array, is truthy and so shipped. *)
Theorem getOrderStatus_by_type :
  (forall b, getOrderStatus (VBoolean b) = if b then shipped else pending) /\
  (forall x, getOrderStatus (VNumber x) = if nonZero x then shipped else pending) /\
  (forall s, getOrderStatus (VString s) =
             match parseInt s 10 with
             | Some z => if z =? 0 then pending else shipped
             | None => pending
             end) /\
  (forall ws s, isWhiteSpace ws = true ->
     getOrderStatus (VString (ws ++ s)) = getOrderStatus (VString s)) /\
  getOrderStatus VUndefined = pending /\
  getOrderStatus VNull = pending /\
  (forall props, getOrderStatus (VObject props) = shipped) /\
  getOrderStatus (VString "1") = shipped /\
  getOrderStatus (VString "0") = pending /\
  getOrderStatus (VString "") = pending /\
  getOrderStatus (VString "abc") = pending /\
  getOrderStatus (VString "1abc") = shipped /\
  getOrderStatus (VString (ideographicSpace ++ "1")) = shipped /\
  getOrderStatus (VString (noBreakSpace ++ "0")) = pending.
Proof.
  assert (Hs : forall s, getOrderStatus (VString s) =
                         match parseInt s 10 with
                         | Some z => if z =? 0 then pending else shipped
                         | None => pending
                         end).
  { intros s. unfold getOrderStatus.
    destruct (parseInt s 10) as [[| p | p] |]; reflexivity. }
  split; [intros b; reflexivity |].
  split; [intros x; destruct x as [s | s | | s m e]; reflexivity |].
  split; [exact Hs |].
  split; [intros ws s Hw; now rewrite !Hs, (parseInt_skips ws s 10 Hw) |].
  repeat split.
Qed.

(** C4, the claim as stated fails: the string ["2"] and the empty object
    are none of the listed representations, so the claim makes them
    pending, and the code makes them shipped. *)
Lemma getOrderStatus_other_string_shipped :
  listedShipped (VString "2") = false /\
  listedPending (VString "2") = false /\
  getOrderStatus (VString "2") = shipped /\
  listedShipped (VObject []) = false /\
  listedPending (VObject []) = false /\
  getOrderStatus (VObject []) = shipped.
Proof. repeat split. Qed.

Lemma padStart_two_digits_nat (n : nat) :
  (n < 100)%nat -> padStart (Z_toString (Z.of_nat n)) 2 "0" = twoDigits (Z.of_nat n).
Proof.
  intros H. do 100 (destruct n as [| n]; [vm_compute; reflexivity |]). lia.
Qed.

Lemma padStart_two_digits (z : Z) :
  0 <= z < 100 -> padStart (Z_toString z) 2 "0" = twoDigits z.
Proof.
  intros H. rewrite <- (Z2Nat.id z) by lia. apply padStart_two_digits_nat. lia.
Qed.

Lemma formatTime_absent rt :
  formatTime rt None = "-" /\ formatTime rt (Some "") = "-".
Proof. split; reflexivity. Qed.

Lemma formatTime_parsed rt s t :
  s <> "" -> Date_parse rt s = Some t ->
  formatTime rt (Some s) =
  (twoDigits (((t + LocalTZA rt t) / 3600000) mod 24) ++ ":" ++
   twoDigits (((t + LocalTZA rt t) / 60000) mod 60))%string.
Proof.
  intros Hs Hp. unfold formatTime. apply String.eqb_neq in Hs. rewrite Hs.
  unfold new_Date. rewrite Hp. cbn [getHours getMinutes int_toString].
  unfold msPerHour, msPerMinute.
  rewrite !padStart_two_digits; [reflexivity | |].
  - pose proof (Z.mod_pos_bound ((t + LocalTZA rt t) / 60000) 60). lia.
  - pose proof (Z.mod_pos_bound ((t + LocalTZA rt t) / 3600000) 24). lia.
Qed.

Lemma formatTime_unparseable rt s :
  s <> "" -> Date_parse rt s = None -> formatTime rt (Some s) = "NaN:NaN".
Proof.
  intros Hs Hp. unfold formatTime. apply String.eqb_neq in Hs. rewrite Hs.
  unfold new_Date. rewrite Hp. reflexivity.
Qed.

(** C5, where the code departs from the claim: on a non-empty string that
    [Date.parse] rejects, [formatTime] neither throws nor returns the
    placeholder ["-"]; it returns ["NaN:NaN"]. *)
Theorem formatTime_unparseable_prints_NaN :
  Date_parse refRuntime "not-a-date" = None /\
  formatTime refRuntime (Some "not-a-date") = "NaN:NaN" /\
  formatTime refRuntime (Some "not-a-date") <> "-".
Proof.
  split; [reflexivity |]. split; [reflexivity | discriminate].
Qed.

Example formatTime_samples :
  formatTime refRuntime (Some "2024-03-01T08:05:00") = "08:05" /\
  formatTime refRuntime (Some "2024-03-01T23:59:59Z") = "23:59" /\
  formatTime refRuntime None = "-".
Proof. repeat split; vm_compute; reflexivity. Qed.

End TransformFacts.

(** ** The loaders of the page *)

Section PageFacts.
Import Js DispatchPage Props.

Ltac run_monad :=
  unfold exec, loadData, handleTableRefresh, unmount, loadFactoryInfo,
    try_catch, try_catch_finally, bind, ret, await, when,
    setOrders, setAlerts, setSummary, setPendingWithReceiptCount, setLoading,
    setLastUpdateTime, setFactoryName, setFactoryCode, writeTimerRef, readTimerRef,
    bumpTableRefreshKey, bumpTrendsRefreshKey,
    setInterval, clearInterval, console_error, modifyPage.

Section LoadDataFacts.

Variable rt : Runtime.
Variable env : LoadEnv.

Let answer := fetchDispatchBoard env (loadDataParams (Date_now env)).

Lemma hasData_length records :
  (0 <? Z.of_nat (List.length (transformOrders rt records))) =
  negb (match records with [] => true | _ => false end).
Proof.
  unfold transformOrders. rewrite length_map. destruct records; reflexivity.
Qed.

Lemma transformOrders_nil records :
  transformOrders rt records = [] <-> records = [].
Proof.
  destruct records; cbn; split; congruence.
Qed.

(** The slices of the page after a successful fetch. *)
Lemma loadData_success_page w result :
  answer = inr result ->
  let records := content result in
  let p' := page (exec (loadData rt env) w) in
  orders p' = transformOrders rt records /\
  alerts p' = transformAlerts rt records /\
  summary p' =
    {| totalCount := Z.of_nat (List.length records);
       deliveredCount := Z.of_nat (countIf (fun r => ToBoolean (isDelivered r)) records);
       pendingCount := Z.of_nat (List.length records)
                       - Z.of_nat (countIf (fun r => ToBoolean (isDelivered r)) records);
       delayedCount := Z.of_nat (countIf isDelayedWithoutReceipt records);
       receiptCount := Z.of_nat (countIf (fun r => ToBoolean (hasReceipt r)) records) |} /\
  pendingWithReceiptCount p' =
    Z.of_nat (countIf (fun r => ToBoolean (hasReceipt r) && isFalse (isDelivered r)) records) /\
  lastUpdateTime p' = nowTime env /\
  loading p' = false.
Proof.
  intros H records p'. unfold answer in H. subst p'. run_monad. cbn. rewrite H. cbn.
  rewrite hasData_length. fold records.
  rewrite <- !length_filter_countIf.
  destruct records; cbn; destruct (truthyHandle (refreshTimerRef (page w)));
    cbn; repeat split; reflexivity.
Qed.

(** The timer after a successful fetch, from a world where the ref holds the
    only armed timer. *)
Lemma truthyHandle_false_None (r : option Z) :
  (forall h, r = Some h -> h <> 0) -> truthyHandle r = false -> r = None.
Proof.
  destruct r as [h |]; [| reflexivity]. cbn. intros Hnz Ht.
  apply negb_false_iff, Z.eqb_eq in Ht. now destruct (Hnz h eq_refl).
Qed.

Lemma truthyHandle_Some (h : Z) : h <> 0 -> truthyHandle (Some h) = true.
Proof. intros Hh. cbn. now apply negb_true_iff, Z.eqb_neq. Qed.

Lemma loadData_success_timer w result :
  timerInv w ->
  answer = inr result ->
  let w' := exec (loadData rt env) w in
  (content result = [] ->
     intervals w' = [pollingTimer (nextHandle w)] /\
     refreshTimerRef (page w') = Some (nextHandle w) /\
     nextHandle w' = nextHandle w + 1) /\
  (content result <> [] ->
     intervals w' = [] /\ refreshTimerRef (page w') = None /\
     nextHandle w' = nextHandle w).
Proof.
  intros [Hn [Hnz Hinv]] H w'. unfold answer in H. subst w'. run_monad. cbn.
  rewrite H. cbn. rewrite hasData_length.
  destruct Hinv as [Hi | [h [Hi Hr]]].
  - destruct (content result); cbn;
      destruct (truthyHandle (refreshTimerRef (page w))) eqn:Ht; cbn; rewrite ?Hi;
      split; intros; try congruence; repeat split; try reflexivity.
    now apply truthyHandle_false_None.
  - pose proof (truthyHandle_Some h (Hnz h Hr)) as Ht.
    destruct (content result); cbn; rewrite Hr, Ht; cbn; rewrite Hi; cbn;
      rewrite Z.eqb_refl; cbn;
      split; intros; try congruence; repeat split; reflexivity.
Qed.


Lemma loadData_failure w e :
  answer = inl e ->
  loadData rt env w =
  (inr tt,
   mkWorld
     (mkPage (orders (page w)) (summary (page w)) (alerts (page w))
        (pendingWithReceiptCount (page w)) false (lastUpdateTime (page w))
        (factoryName (page w)) (factoryCode (page w)) (tableRefreshKey (page w))
        (trendsRefreshKey (page w)) (refreshTimerRef (page w)))
     (intervals w) (nextHandle w) (console w ++ ["加载数据失败:"])%list).
Proof.
  intros H. unfold answer in H. run_monad. cbn. rewrite H. reflexivity.
Qed.

Lemma timerInv_frame w w' :
  nextHandle w' = nextHandle w ->
  intervals w' = intervals w ->
  refreshTimerRef (page w') = refreshTimerRef (page w) ->
  timerInv w -> timerInv w'.
Proof.
  unfold timerInv. intros -> -> ->. trivial.
Qed.

Lemma loadData_keeps_timerInv w :
  timerInv w -> timerInv (exec (loadData rt env) w).
Proof.
  intros Hinv. destruct answer as [e | result] eqn:Ha.
  - apply timerInv_frame with (w := w); trivial;
      unfold exec; rewrite (loadData_failure w e Ha); reflexivity.
  - destruct (loadData_success_timer w result Hinv Ha) as [Hempty Hdata].
    destruct Hinv as [Hn _].
    destruct (content result) as [| r rs] eqn:Hc.
    + destruct (Hempty eq_refl) as [Hi [Hr Hh]].
      split; [lia |]. split.
      * intros h Hh'. rewrite Hr in Hh'. injection Hh' as <-. lia.
      * right. eauto.
    + destruct Hdata as [Hi [Hr Hh]]; [discriminate |].
      split; [lia |]. split.
      * intros h Hh'. rewrite Hr in Hh'. discriminate.
      * now left.
Qed.

End LoadDataFacts.

Lemma handleTableRefresh_keeps_timerInv rt env w :
  timerInv w -> timerInv (exec (handleTableRefresh rt env) w).
Proof.
  intros Hinv.
  set (w1 := mkWorld
     (mkPage (orders (page w)) (summary (page w)) (alerts (page w))
        (pendingWithReceiptCount (page w)) (loading (page w)) (lastUpdateTime (page w))
        (factoryName (page w)) (factoryCode (page w)) (tableRefreshKey (page w) + 1)
        (trendsRefreshKey (page w) + 1) (refreshTimerRef (page w)))
     (intervals w) (nextHandle w) (console w)).
  assert (E : exec (handleTableRefresh rt env) w = exec (loadData rt env) w1)
    by reflexivity.
  rewrite E. apply loadData_keeps_timerInv.
  now apply timerInv_frame with (w := w).
Qed.

Lemma loadFactoryInfo_keeps_timerInv rt ps envCode api w :
  timerInv w -> timerInv (exec (loadFactoryInfo rt ps envCode api) w).
Proof.
  apply timerInv_frame; run_monad; cbn;
    destruct (api (resolveFactoryCode ps envCode)) as [e | res]; cbn; trivial;
    match goal with |- context [get_prop ?i ?k] => destruct (get_prop i k) end;
    reflexivity.
Qed.

Lemma unmount_keeps_timerInv w :
  timerInv w -> timerInv (exec unmount w).
Proof.
  intros [Hn [Hnz Hinv]]. run_monad. cbn.
  destruct Hinv as [Hi | [h [Hi Hr]]].
  - destruct (truthyHandle (refreshTimerRef (page w))); cbn;
      (split; [exact Hn | split; [exact Hnz | left]]); rewrite ?Hi; trivial.
  - rewrite Hr, (truthyHandle_Some h (Hnz h Hr)). cbn.
    split; [exact Hn | split; [| left]].
    + exact Hnz.
    + rewrite Hi. cbn. now rewrite Z.eqb_refl.
Qed.

(** Completing a suspended call is running the call. *)
Lemma loadData_resume rt env w :
  exec (loadData rt env) (exec (setLoading true) w) = exec (loadData rt env) w.
Proof. reflexivity. Qed.

Lemma reachable_timerInv rt w : reachable rt w -> timerInv w.
Proof.
  induction 1.
  - split; [reflexivity | split; [discriminate | now left]].
  - now apply timerInv_frame with (w := w).
  - now apply loadData_keeps_timerInv.
  - now apply handleTableRefresh_keeps_timerInv.
  - now apply loadFactoryInfo_keeps_timerInv.
  - now apply unmount_keeps_timerInv.
Qed.

(** C1.  After a successful run of [loadData] from any world the page can
    reach, the polling timer is armed if and only if the transformed order
    list of that fetch is empty: with no order exactly one interval timer
    is armed, it fires every 5 minutes, it calls [loadData] and the ref
    holds its handle; with orders no interval timer is left armed and the
    ref is [null]. *)
Theorem loadData_arms_timer_iff_empty rt env w result :
  reachable rt w ->
  fetchDispatchBoard env (loadDataParams (Date_now env)) = inr result ->
  let w' := exec (loadData rt env) w in
  let transformedOrders := transformOrders rt (content result) in
  orders (page w') = transformedOrders /\
  (armed w' <-> transformedOrders = []) /\
  (transformedOrders = [] -> intervals w' = [pollingTimer (nextHandle w)]) /\
  (transformedOrders <> [] ->
     intervals w' = [] /\ refreshTimerRef (page w') = None).
Proof.
  intros Hreach Ha w' orders'.
  pose proof (reachable_timerInv rt w Hreach) as Hinv.
  destruct (loadData_success_page rt env w result Ha) as [Ho _].
  destruct (loadData_success_timer rt env w result Hinv Ha) as [Hempty Hdata].
  fold w' in Ho, Hempty, Hdata. subst orders'.
  split; [exact Ho |].
  rewrite transformOrders_nil.
  split; [| split].
  - split.
    + intros [h [Hi _]]. destruct (content result) as [| r rs]; [reflexivity |].
      destruct Hdata as [Hi' _]; [discriminate |]. rewrite Hi' in Hi. discriminate.
    + intros Hc. destruct (Hempty Hc) as [Hi [Hr _]]. exists (nextHandle w). now split.
  - intros Hc. now destruct (Hempty Hc).
  - intros Hc. destruct Hdata as [Hi [Hr _]]; [exact Hc | now split].
Qed.

Lemma loadData_arms_timer_iff_empty_witness :
  reachable refRuntime initialWorld /\
  fetchDispatchBoard (envWith []) (loadDataParams (Date_now (envWith []))) =
    inr (mkFetchResult [] 0) /\
  armed (exec (loadData refRuntime (envWith [])) initialWorld).
Proof.
  split; [constructor |]. split; [reflexivity |].
  apply (loadData_arms_timer_iff_empty refRuntime (envWith []) initialWorld
           (mkFetchResult [] 0) (reach_init refRuntime) eq_refl).
  reflexivity.
Defined.

(** C3.  When the fetch of [loadData] throws, [loadData] itself does not
    throw and leaves orders, summary, alerts, the pending-with-receipt
    count, the last update time, the timer ref and the armed timers as they
    were; the last update time is set to the completion time whenever the
    fetch succeeds, and it changes only then. *)
Theorem loadData_failure_keeps_state rt env w :
  let w' := exec (loadData rt env) w in
  (forall e,
     fetchDispatchBoard env (loadDataParams (Date_now env)) = inl e ->
     fst (loadData rt env w) = inr tt /\
     orders (page w') = orders (page w) /\
     summary (page w') = summary (page w) /\
     alerts (page w') = alerts (page w) /\
     pendingWithReceiptCount (page w') = pendingWithReceiptCount (page w) /\
     lastUpdateTime (page w') = lastUpdateTime (page w) /\
     refreshTimerRef (page w') = refreshTimerRef (page w) /\
     intervals w' = intervals w /\
     nextHandle w' = nextHandle w) /\
  (forall result,
     fetchDispatchBoard env (loadDataParams (Date_now env)) = inr result ->
     lastUpdateTime (page w') = nowTime env) /\
  (lastUpdateTime (page w') <> lastUpdateTime (page w) ->
     exists result,
       fetchDispatchBoard env (loadDataParams (Date_now env)) = inr result).
Proof.
  intros w'. split; [| split].
  - intros e He. subst w'. unfold exec. rewrite (loadData_failure rt env w e He).
    cbn. repeat split.
  - intros result Hr. now destruct (loadData_success_page rt env w result Hr)
      as (_ & _ & _ & _ & Ht & _).
  - intros Hchanged.
    destruct (fetchDispatchBoard env (loadDataParams (Date_now env))) as [e | result] eqn:Ha.
    + exfalso. apply Hchanged. subst w'. unfold exec.
      now rewrite (loadData_failure rt env w e Ha).
    + now exists result.
Qed.

Lemma loadData_failure_keeps_state_witness :
  fetchDispatchBoard envFailing (loadDataParams (Date_now envFailing)) =
    inl (ThrownExn (Error "Error" "HTTP error! status: 502")) /\
  orders (page (exec (loadData refRuntime envFailing)
                  (exec (loadData refRuntime (envWith scenarioB)) initialWorld))) =
  orders (page (exec (loadData refRuntime (envWith scenarioB)) initialWorld)).
Proof.
  split; [reflexivity |].
  apply (proj1 (loadData_failure_keeps_state refRuntime envFailing
                  (exec (loadData refRuntime (envWith scenarioB)) initialWorld))
           (ThrownExn (Error "Error" "HTTP error! status: 502")) eq_refl).
Defined.

Lemma ReceiptWarning_visible r d p :
  ReceiptWarning r d p <> None <-> 0 < p \/ d < r.
Proof.
  unfold ReceiptWarning.
  destruct (0 <? p) eqn:Hp; destruct (d <? r) eqn:Hd; cbn;
    rewrite ?Z.ltb_lt, ?Z.ltb_ge in *; split; intros H; try discriminate;
    try lia; try (exfalso; now apply H).
Qed.

Lemma isFalse_spec v : isFalse v = true <-> v = VBoolean false.
Proof.
  destruct v as [| | [|] | | |]; cbn; split; congruence.
Qed.

(** C9.  After a successful [loadData], the pending-with-receipt count is
    the number of records whose [hasReceipt] is truthy and whose
    [isDelivered] is the boolean [false], and the receipt warning is
    rendered if and only if that count is positive or the receipt count
    exceeds the delivered count. *)
Theorem pendingWithReceipt_count_and_warning rt env w result :
  fetchDispatchBoard env (loadDataParams (Date_now env)) = inr result ->
  let records := content result in
  let p' := page (exec (loadData rt env) w) in
  pendingWithReceiptCount p' =
    Z.of_nat (countIf (fun r => ToBoolean (hasReceipt r) && isFalse (isDelivered r))
                records) /\
  receiptCount (summary p') =
    Z.of_nat (countIf (fun r => ToBoolean (hasReceipt r)) records) /\
  deliveredCount (summary p') =
    Z.of_nat (countIf (fun r => ToBoolean (isDelivered r)) records) /\
  (renderReceiptWarning p' <> None <->
     0 < pendingWithReceiptCount p' \/
     deliveredCount (summary p') < receiptCount (summary p')).
Proof.
  intros Ha records p'.
  destruct (loadData_success_page rt env w result Ha) as (_ & _ & Hs & Hp & _).
  fold records p' in Hs, Hp.
  split; [exact Hp |]. rewrite Hs. cbn. split; [reflexivity |]. split; [reflexivity |].
  unfold renderReceiptWarning. rewrite Hs. cbn. apply ReceiptWarning_visible.
Qed.

Lemma pendingWithReceipt_count_and_warning_witness :
  fetchDispatchBoard (envWith scenarioB) (loadDataParams (Date_now (envWith scenarioB))) =
    inr (mkFetchResult scenarioB 3) /\
  pendingWithReceiptCount (page (exec (loadData refRuntime (envWith scenarioB)) initialWorld)) =
    Z.of_nat (countIf (fun r => ToBoolean (hasReceipt r) && isFalse (isDelivered r)) scenarioB).
Proof.
  split; [reflexivity |].
  apply (pendingWithReceipt_count_and_warning refRuntime (envWith scenarioB) initialWorld
           (mkFetchResult scenarioB 3) eq_refl).
Defined.

Lemma delivered_shipped_pointwise rt r :
  ((if ToBoolean (isDelivered r) then 1 else 0) =
   (if isShipped (toOrder rt r) then 1 else 0) + (if misreadString r then 1 else 0))%nat.
Proof.
  unfold isShipped, misreadString, toOrder, getOrderStatus. cbn.
  destruct (isDelivered r) as [| | [|] | [s | s | | s m e] | s | ps]; cbn; try reflexivity.
  destruct (String.eqb s "") eqn:Hs.
  - apply String.eqb_eq in Hs. subst s. reflexivity.
  - cbn. destruct (parseInt s 10) as [[| p | p] |]; reflexivity.
Qed.

Lemma delivered_shipped_count rt records :
  (countIf (fun r => ToBoolean (isDelivered r)) records =
   countIf isShipped (transformOrders rt records) + countIf misreadString records)%nat.
Proof.
  induction records as [| r rs IH]; [reflexivity |].
  cbn [countIf transformOrders map]. fold (transformOrders rt rs).
  pose proof (delivered_shipped_pointwise rt r) as Hp.
  destruct (ToBoolean (isDelivered r)), (isShipped (toOrder rt r)), (misreadString r);
    cbn in Hp; try discriminate; lia.
Qed.

Lemma countIf_none {A} (p : A -> bool) (l : list A) :
  (forall x, In x l -> p x = false) -> countIf p l = O.
Proof.
  induction l as [| x l IH]; cbn; [reflexivity |]. intros H.
  rewrite (H x (or_introl eq_refl)). apply IH. intros y Hy. apply H. now right.
Qed.

Lemma booleanOrNumber_not_misread r :
  booleanOrNumber (isDelivered r) = true -> misreadString r = false.
Proof.
  unfold misreadString. destruct (isDelivered r); cbn; congruence.
Qed.

(** C10.  The delivered count of the summary is the number of shipped
    orders plus the number of records whose flag is a non-empty string that
    [parseInt] reads as [0] or NaN: the two agree when every flag is absent,
    a boolean or a number, and any record with such a string (["0"] is one,
    with or without white space of any kind before it) is counted as
    delivered while its order is pending; a string that [parseInt] reads as
    a non-zero integer (["1"], also after white space of any kind) is
    delivered on both sides. *)
Theorem deliveredCount_vs_shipped rt env w result :
  fetchDispatchBoard env (loadDataParams (Date_now env)) = inr result ->
  let records := content result in
  let p' := page (exec (loadData rt env) w) in
  deliveredCount (summary p') =
    Z.of_nat (countIf isShipped (orders p')) + Z.of_nat (countIf misreadString records) /\
  ((forall r, In r records -> booleanOrNumber (isDelivered r) = true) ->
     deliveredCount (summary p') = Z.of_nat (countIf isShipped (orders p'))) /\
  (forall r, In r records -> misreadString r = true ->
     ToBoolean (isDelivered r) = true /\
     status (toOrder rt r) = pending /\
     Z.of_nat (countIf isShipped (orders p')) < deliveredCount (summary p')) /\
  (forall r, isDelivered r = VString "0" -> misreadString r = true) /\
  (forall r ws, isWhiteSpace ws = true ->
     (isDelivered r = VString (ws ++ "0") -> misreadString r = true) /\
     (isDelivered r = VString (ws ++ "1") ->
        misreadString r = false /\ ToBoolean (isDelivered r) = true /\
        status (toOrder rt r) = shipped)) /\
  (forall r, isDelivered r = VString (ideographicSpace ++ "1") ->
     misreadString r = false /\ status (toOrder rt r) = shipped).
Proof.
  intros Ha records p'.
  destruct (loadData_success_page rt env w result Ha) as (Ho & _ & Hs & _).
  fold records p' in Ho, Hs. rewrite Hs, Ho. cbn [deliveredCount].
  pose proof (delivered_shipped_count rt records) as Hc.
  split; [lia |]. split; [| split; [| split; [| split]]].
  - intros Hall. rewrite (countIf_none misreadString records) in Hc; [lia |].
    intros r Hr. apply booleanOrNumber_not_misread. now apply Hall.
  - intros r Hin Hm. pose proof (delivered_shipped_pointwise rt r) as Hp.
    rewrite Hm in Hp.
    assert (Hpos : (0 < countIf misreadString records)%nat).
    { clear - Hin Hm. induction records as [| x l IH]; [destruct Hin |].
      cbn. destruct Hin as [-> | Hin]; [rewrite Hm; lia |].
      destruct (misreadString x); [lia | now apply IH]. }
    destruct (ToBoolean (isDelivered r)), (isShipped (toOrder rt r)) eqn:Hsh;
      cbn in Hp; try discriminate; try lia.
    repeat split; [| lia].
    unfold isShipped in Hsh. unfold misreadString in Hm.
    destruct (isDelivered r) as [| | | | s |] eqn:Hd; try discriminate.
    unfold toOrder, getOrderStatus in *. cbn in *. rewrite Hd in *.
    destruct (parseInt s 10) as [[| q | q] |]; cbn in *;
      rewrite ?andb_false_r in Hm; try discriminate; reflexivity.
  - intros r Hd. unfold misreadString. now rewrite Hd.
  - intros r ws Hw.
    assert (Hne : forall d, String.eqb (ws ++ String d "") "" = false)
      by (intros d; destruct ws; reflexivity).
    split; intros Hd.
    + unfold misreadString. rewrite Hd, Hne, (parseInt_skips ws "0" 10 Hw). reflexivity.
    + unfold misreadString, toOrder, getOrderStatus. cbn [status]. rewrite Hd. cbn [ToBoolean].
      rewrite Hne, (parseInt_skips ws "1" 10 Hw). now repeat split.
  - intros r Hd. unfold misreadString, toOrder, getOrderStatus. cbn [status].
    rewrite Hd. now split.
Qed.

Lemma deliveredCount_vs_shipped_witness :
  fetchDispatchBoard (envWith scenarioB) (loadDataParams (Date_now (envWith scenarioB))) =
    inr (mkFetchResult scenarioB 3) /\
  (forall r, In r scenarioB -> booleanOrNumber (isDelivered r) = true) /\
  deliveredCount (summary (page (exec (loadData refRuntime (envWith scenarioB)) initialWorld))) =
  Z.of_nat (countIf isShipped
              (orders (page (exec (loadData refRuntime (envWith scenarioB)) initialWorld)))).
Proof.
  assert (H : forall r, In r scenarioB -> booleanOrNumber (isDelivered r) = true).
  { intros r [<- | [<- | [<- | []]]]; reflexivity. }
  split; [reflexivity |]. split; [exact H |].
  apply (deliveredCount_vs_shipped refRuntime (envWith scenarioB) initialWorld
           (mkFetchResult scenarioB 3) eq_refl). exact H.
Defined.

Lemma resolveFactoryCode_no_window envCode :
  resolveFactoryCode None envCode = configuredDefault envCode.
Proof.
  unfold resolveFactoryCode, configuredDefault. cbn.
  destruct envCode as [s |]; cbn; [| reflexivity].
  destruct (String.eqb s ""); reflexivity.
Qed.

Lemma resolveFactoryCode_exact ps envCode :
  blankFactoryCode ps = false ->
  resolveFactoryCode (Some ps) envCode = exact_resolveFactoryCode ps envCode.
Proof.
  unfold blankFactoryCode, resolveFactoryCode, exact_resolveFactoryCode,
    factoryCodeFromUrl, firstNonEmptyTrimmed.
  fold (configuredDefault envCode).
  assert (Hd : (if truthyString envCode then orString envCode "" else "DEFAULT_FACTORY_CODE")
               = configuredDefault envCode).
  { unfold configuredDefault. destruct envCode as [s |]; cbn; [| reflexivity].
    destruct (String.eqb s ""); reflexivity. }
  assert (Hsecond :
    forall g2,
      (let fromUrl := if truthyString g2 then g2 else None in
       let trimmed :=
         if truthyString fromUrl
         then match fromUrl with Some s => Some (trim s) | None => None end
         else fromUrl in
       if truthyString trimmed then orString trimmed ""
       else configuredDefault envCode) =
      match g2 with
      | Some s => if String.eqb (trim s) "" then configuredDefault envCode else trim s
      | None => configuredDefault envCode
      end).
  { intros [s2 |]; cbn; [| reflexivity].
    destruct (String.eqb s2 "") eqn:E2; cbn.
    - apply String.eqb_eq in E2. subst s2. reflexivity.
    - rewrite E2. cbn. destruct (String.eqb (trim s2) "") eqn:T2; cbn; rewrite ?T2; reflexivity. }
  rewrite Hd.
  destruct (URLSearchParams_get ps "factoryCode") as [s1 |] eqn:H1; cbn.
  - destruct (String.eqb s1 "") eqn:E1; cbn.
    + apply String.eqb_eq in E1. subst s1. cbn. intros _. apply Hsecond.
    + intros Hb. rewrite E1, Hb. cbn. rewrite Hb. reflexivity.
  - intros _. apply Hsecond.
Qed.

Lemma loadFactoryInfo_outcome rt urlParams envCode api w :
  let code := resolveFactoryCode urlParams envCode in
  let p' := page (exec (loadFactoryInfo rt urlParams envCode api) w) in
  match api code with
  | inl _ => factoryName p' = VString "—" /\ factoryCode p' = factoryCode (page w)
  | inr res =>
      let info :=
        if ToBoolean (get_prop_opt res "data") then get_prop_opt res "data" else res in
      match get_prop info "factoryName" with
      | Some name => factoryName p' = or_else name (VString "—") /\ factoryCode p' = code
      | None => factoryName p' = VString "—" /\ factoryCode p' = factoryCode (page w)
      end
  end.
Proof.
  intros code p'. subst p'. run_monad. cbn. fold code.
  destruct (api code) as [e | res]; cbn; [now split |].
  match goal with |- context [get_prop ?i ?k] => destruct (get_prop i k) end;
    cbn; now split.
Qed.

(** C8, as amended.  When the value of [factoryCode] is not a non-empty
    run of white space, [loadFactoryInfo] resolves the factory code in
    priority order from the query parameter named exactly [factoryCode],
    then the one named exactly [factorycode], then the configured default,
    the first value that is non-empty once trimmed winning, with the white
    space of any kind around it removed; the display name becomes the
    [factoryName] of the answer when that is truthy, and the em-dash when
    the lookup throws, the answer is [null] or the name is missing or
    empty. *)
Theorem loadFactoryInfo_resolution rt ps envCode api w :
  blankFactoryCode ps = false ->
  let code := exact_resolveFactoryCode ps envCode in
  let p' := page (exec (loadFactoryInfo rt (Some ps) envCode api) w) in
  let first := URLSearchParams_get ps "factoryCode" in
  let second := URLSearchParams_get ps "factorycode" in
  let default :=
    match envCode with
    | Some e => if String.eqb e "" then "DEFAULT_FACTORY_CODE" else e
    | None => "DEFAULT_FACTORY_CODE"
    end in
  resolveFactoryCode (Some ps) envCode = code /\
  match api code with
  | inl _ => factoryName p' = VString "—"
  | inr res =>
      let info :=
        if ToBoolean (get_prop_opt res "data") then get_prop_opt res "data" else res in
      match get_prop info "factoryName" with
      | Some name =>
          factoryName p' = (if ToBoolean name then name else VString "—") /\
          factoryCode p' = code
      | None => factoryName p' = VString "—"
      end
  end /\
  (forall ws1 ws2 t,
     isWhiteSpace ws1 = true -> isWhiteSpace ws2 = true -> t <> "" ->
     More.visibleAscii (More.firstChar t) = true ->
     More.visibleAscii (More.lastChar t) = true ->
     (first = Some (ws1 ++ t ++ ws2)%string -> code = t) /\
     (first = None \/ first = Some "" ->
      second = Some (ws1 ++ t ++ ws2)%string -> code = t)) /\
  (first = None \/ first = Some "" ->
   second = None \/ (exists ws, second = Some ws /\ isWhiteSpace ws = true) ->
   code = default).
Proof.
  intros Hb code p' first second default.
  pose proof (resolveFactoryCode_exact ps envCode Hb) as E. fold code in E.
  split; [exact E |]. split.
  { pose proof (loadFactoryInfo_outcome rt (Some ps) envCode api w) as H.
    cbv zeta in H. rewrite E in H. fold p' in H.
    destruct (api code) as [e | res]; [now destruct H |].
    cbv zeta.
    match goal with |- context [get_prop ?i ?k] => destruct (get_prop i k) end;
      [exact H | now destruct H]. }
  assert (Hcode : code = firstNonEmptyTrimmed [first; second] default) by reflexivity.
  assert (Hskip : first = None \/ first = Some "" ->
                  code = firstNonEmptyTrimmed [second] default).
  { intros [H | H]; rewrite Hcode, H; reflexivity. }
  split.
  - intros ws1 ws2 t H1 H2 Hne Hf Hl.
    pose proof (trim_strips ws1 ws2 t H1 H2 Hne Hf Hl) as Ht.
    assert (Hnb : String.eqb t "" = false) by now apply String.eqb_neq.
    split.
    + intros H. rewrite Hcode, H. cbn [firstNonEmptyTrimmed]. now rewrite Ht, Hnb.
    + intros Hfirst H. rewrite (Hskip Hfirst), H. cbn [firstNonEmptyTrimmed].
      now rewrite Ht, Hnb.
  - intros Hfirst [H | (ws & H & Hw)]; rewrite (Hskip Hfirst), H; cbn [firstNonEmptyTrimmed];
      [reflexivity |].
    now rewrite (trim_white ws Hw).
Qed.

Lemma loadFactoryInfo_resolution_witness :
  blankFactoryCode [("factorycode", ideographicSpace ++ "F2" ++ noBreakSpace)] = false /\
  resolveFactoryCode (Some [("factorycode", ideographicSpace ++ "F2" ++ noBreakSpace)]) None
  = "F2".
Proof.
  split; [reflexivity |].
  apply (loadFactoryInfo_resolution refRuntime
           [("factorycode", (ideographicSpace ++ "F2" ++ noBreakSpace)%string)] None
           sampleApi initialWorld eq_refl).
Defined.

(** C8, the claim as stated fails: a parameter spelled [FACTORYCODE]
    matches [factorycode] up to letter case, so the claimed order resolves
    to its value, while the code falls back to the default. *)
Lemma resolveFactoryCode_name_case_matters :
  resolveFactoryCode (Some [("FACTORYCODE", "F1")]) None = "DEFAULT_FACTORY_CODE" /\
  spec_resolveFactoryCode [("FACTORYCODE", "F1")] None = "F1".
Proof. split; reflexivity. Qed.

Example resolveFactoryCode_blank_first :
  resolveFactoryCode (Some [("factoryCode", " "); ("factorycode", "F2")]) None
  = "DEFAULT_FACTORY_CODE".
Proof. reflexivity. Qed.

End PageFacts.

(** ** The retry loop of the HTTP client *)

Section ClientFacts.
Import Js FetchHttp Props.

Section RequestFacts.

Variable rt : Runtime.
Variable reqId : string.
Variable fetch : Z -> Exn + Response.
Variable unwrap : bool.
Variables retry retryDelay : Z.

Let body (k : Z) := tryBody rt reqId unwrap (fetch k).
Let loop := retryLoop rt reqId fetch unwrap retry retryDelay.

Lemma loop_success fuel attempt last v :
  attempt <= retry -> body attempt = inr v ->
  loop (S fuel) attempt last = ([Fetched attempt], inr v).
Proof.
  intros Hle Hb. unfold loop, body in *. cbn [retryLoop].
  apply Z.leb_le in Hle. now rewrite Hle, Hb.
Qed.

Lemma loop_fatal fuel attempt last e :
  attempt <= retry -> body attempt = inl e -> nonNetwork e = true ->
  loop (S fuel) attempt last = ([Fetched attempt], inl e).
Proof.
  intros Hle Hb Hn. unfold loop, body in *. cbn [retryLoop].
  apply Z.leb_le in Hle. rewrite Hle, Hb.
  now rewrite Hn.
Qed.

Lemma loop_retry fuel attempt last e :
  attempt < retry -> body attempt = inl e -> nonNetwork e = false ->
  isRetryableError e = true ->
  loop (S fuel) attempt last =
  (Fetched attempt :: Slept retryDelay :: fst (loop fuel (attempt + 1) (Some e)),
   snd (loop fuel (attempt + 1) (Some e))).
Proof.
  intros Hlt Hb Hn Hr. unfold loop, body in *. cbn [retryLoop].
  assert (Hle : (attempt <=? retry) = true) by (apply Z.leb_le; lia).
  apply Z.ltb_lt in Hlt. rewrite Hle, Hb, Hn, Hlt, Hr. cbn.
  now destruct (retryLoop rt reqId fetch unwrap retry retryDelay fuel (attempt + 1) (Some e)).
Qed.

Lemma loop_give_up fuel attempt last e :
  attempt <= retry -> body attempt = inl e -> nonNetwork e = false ->
  (attempt <? retry) && isRetryableError e = false ->
  loop (S fuel) attempt last = ([Fetched attempt], inl (giveUp reqId e)).
Proof.
  intros Hle Hb Hn Hr. unfold loop, body in *. cbn [retryLoop].
  apply Z.leb_le in Hle. now rewrite Hle, Hb, Hn, Hr.
Qed.

(** The shape of the trace: one fetch per attempt, a pause before every
    attempt but the first, and no attempt past [retry]. *)
Lemma loop_trace fuel : forall attempt last,
  attempt <= retry -> retry + 1 - attempt <= Z.of_nat fuel ->
  exists n, (1 <= n)%nat /\ attempt + Z.of_nat n <= retry + 1 /\
            fst (loop fuel attempt last) = attemptsTrace n attempt retryDelay.
Proof.
  induction fuel as [| fuel IH]; intros attempt last Hle Hfuel; [lia |].
  destruct (body attempt) as [e | v] eqn:Hb.
  - destruct (nonNetwork e) eqn:Hn.
    + rewrite (loop_fatal fuel attempt last e Hle Hb Hn). exists 1%nat. cbn. repeat split; lia.
    + destruct ((attempt <? retry) && isRetryableError e) eqn:Hr.
      * apply andb_true_iff in Hr. destruct Hr as [Hlt Hr]. apply Z.ltb_lt in Hlt.
        rewrite (loop_retry fuel attempt last e Hlt Hb Hn Hr). cbn [fst].
        destruct (IH (attempt + 1) (Some e)) as (n & Hn1 & Hn2 & Ht); [lia | lia |].
        exists (S n). rewrite Ht. split; [lia |]. split; [lia |].
        destruct n as [| n]; [lia | reflexivity].
      * rewrite (loop_give_up fuel attempt last e Hle Hb Hn Hr).
        exists 1%nat. cbn. repeat split; lia.
  - rewrite (loop_success fuel attempt last v Hle Hb). exists 1%nat. cbn. repeat split; lia.
Qed.

(** An attempt is followed by another one only when its failure was
    retryable and the budget was not spent. *)
Lemma loop_retry_only fuel : forall attempt last k,
  attempt <= k -> In (Fetched (k + 1)) (fst (loop fuel attempt last)) ->
  exists e, body k = inl e /\ nonNetwork e = false /\
            isRetryableError e = true /\ k < retry.
Proof.
  induction fuel as [| fuel IH]; intros attempt last k Hk Hin; [destruct Hin |].
  destruct (Z.leb_spec attempt retry) as [Hle | Hgt].
  2:{ unfold loop in Hin. cbn [retryLoop] in Hin.
      apply Z.leb_gt in Hgt. rewrite Hgt in Hin. destruct Hin. }
  assert (Hone : ~ In (Fetched (k + 1)) [Fetched attempt]).
  { intros [E | []]. injection E. lia. }
  destruct (body attempt) as [e | v] eqn:Hb.
  - destruct (nonNetwork e) eqn:Hn.
    + rewrite (loop_fatal fuel attempt last e Hle Hb Hn) in Hin. now destruct Hone.
    + destruct ((attempt <? retry) && isRetryableError e) eqn:Hr.
      * apply andb_true_iff in Hr. destruct Hr as [Hlt Hr]. apply Z.ltb_lt in Hlt.
        rewrite (loop_retry fuel attempt last e Hlt Hb Hn Hr) in Hin. cbn [fst] in Hin.
        destruct Hin as [E | [E | Hin]]; [injection E; lia | discriminate |].
        destruct (Z.eq_dec k attempt) as [-> | Hne].
        -- exists e. repeat split; trivial.
        -- apply (IH (attempt + 1) (Some e) k); [lia | exact Hin].
      * rewrite (loop_give_up fuel attempt last e Hle Hb Hn Hr) in Hin. now destruct Hone.
  - rewrite (loop_success fuel attempt last v Hle Hb) in Hin. now destruct Hone.
Qed.

(** A retryable failure met while the budget lasts is followed by another
    attempt. *)
Lemma loop_retries fuel : forall attempt last k e,
  retry + 1 - attempt <= Z.of_nat fuel ->
  In (Fetched k) (fst (loop fuel attempt last)) ->
  body k = inl e -> nonNetwork e = false -> isRetryableError e = true -> k < retry ->
  In (Fetched (k + 1)) (fst (loop fuel attempt last)).
Proof.
  induction fuel as [| fuel IH]; intros attempt last k e Hfuel Hin Hbk Hnk Hrk Hlt;
    [destruct Hin |].
  destruct (Z.leb_spec attempt retry) as [Hle | Hgt].
  2:{ unfold loop in Hin. cbn [retryLoop] in Hin.
      apply Z.leb_gt in Hgt. rewrite Hgt in Hin. destruct Hin. }
  assert (Hone : In (Fetched k) [Fetched attempt] -> k = attempt).
  { intros [E | []]. now injection E. }
  destruct (body attempt) as [e' | v] eqn:Hb.
  - destruct (nonNetwork e') eqn:Hn.
    + rewrite (loop_fatal fuel attempt last e' Hle Hb Hn) in Hin.
      apply Hone in Hin. subst k. congruence.
    + destruct ((attempt <? retry) && isRetryableError e') eqn:Hr.
      * apply andb_true_iff in Hr. destruct Hr as [Hlt' Hr]. apply Z.ltb_lt in Hlt'.
        rewrite (loop_retry fuel attempt last e' Hlt' Hb Hn Hr) in *. cbn [fst] in *.
        destruct Hin as [E | [E | Hin]]; [| discriminate |].
        -- injection E as <-. right; right.
           destruct fuel as [| fuel']; [lia |].
           destruct (loop_trace (S fuel') (attempt + 1) (Some e')) as (n & Hn1 & _ & Ht);
             [lia | lia |].
           rewrite Ht. destruct n as [| [| n]]; [lia | now left | now left].
        -- right; right. apply (IH (attempt + 1) (Some e') k e); trivial. lia.
      * rewrite (loop_give_up fuel attempt last e' Hle Hb Hn Hr) in Hin.
        apply Hone in Hin. subst k.
        assert (e' = e) by congruence. subst e'.
        apply Z.ltb_lt in Hlt. rewrite Hlt, Hrk in Hr. discriminate.
  - rewrite (loop_success fuel attempt last v Hle Hb) in Hin.
    apply Hone in Hin. subst k. congruence.
Qed.

End RequestFacts.

Section RequestPolicy.

Variable rt : Runtime.
Variable reqId : string.

Lemma is4xx_not_ok r : is4xx r = true -> ok r = false.
Proof.
  unfold is4xx, ok. intros H. apply andb_true_iff in H. destruct H as [H1 H2].
  apply Z.leb_le in H1. apply andb_false_iff. right. apply Z.leb_gt. lia.
Qed.

Lemma is5xx_server_error r : is5xx r = true -> isServerError r = true.
Proof.
  unfold is5xx, isServerError, is4xx, ok. intros H.
  apply andb_true_iff in H. destruct H as [H1 H2].
  apply Z.leb_le in H1. apply Z.ltb_lt in H2.
  apply andb_true_iff. split; apply negb_true_iff, andb_false_iff.
  - right. apply Z.leb_gt. lia.
  - right. apply Z.ltb_ge. lia.
Qed.

Lemma tryBody_client_error unwrap r :
  is4xx r = true ->
  exists e, tryBody rt reqId unwrap (inr r) = inl (ThrownFetchError e) /\
            status e = Some (resp_status r) /\ isNetworkError e = false /\
            requestId e = Some reqId.
Proof.
  intros H. unfold tryBody. rewrite (is4xx_not_ok r H). cbn [negb].
  unfold is4xx in H. rewrite H. eexists. split; [reflexivity |]. now repeat split.
Qed.

Lemma tryBody_server_error unwrap r :
  isServerError r = true ->
  exists e, tryBody rt reqId unwrap (inr r) = inl (ThrownFetchError e) /\
            status e = Some (resp_status r) /\ isNetworkError e = true.
Proof.
  unfold isServerError, is4xx. intros H. apply andb_true_iff in H. destruct H as [H1 H2].
  apply negb_true_iff in H2. unfold tryBody. rewrite H1, H2.
  eexists. split; [reflexivity |]. now split.
Qed.

Lemma includes_nonempty ct :
  includes ct "application/json" = true -> String.eqb ct "" = false.
Proof.
  destruct ct; [discriminate | reflexivity].
Qed.

Lemma tryBody_envelope r ct props :
  ok r = true -> resp_contentType r = Some ct ->
  includes ct "application/json" = true ->
  resp_json r = inr (VObject props) ->
  tryBody rt reqId true (inr r) =
  let result := VObject props in
  let c := get_prop_opt result "code" in
  if isSuccessCode c then inr (get_prop_opt result "data")
  else inl (ThrownFetchError (mkFetchError
         (ToString rt (or_else (get_prop_opt result "msg")
                         (VString ("API Error: " ++ ToString rt c)%string)))
         c (Some (resp_status r)) (Some reqId) false)).
Proof.
  intros Hok Hct Hinc Hjson. unfold tryBody.
  rewrite Hok, Hct, Hinc, (includes_nonempty ct Hinc), Hjson. cbn.
  destruct (isSuccessCode _); reflexivity.
Qed.

(** What can make [isRetryableError] accept the failure of an attempt. *)
Lemma retryable_cause unwrap o e :
  tryBody rt reqId unwrap o = inl e -> isRetryableError e = true -> retryCause o e.
Proof.
  intros Hb Hr. destruct e as [fe | [name msg | v]].
  - left. destruct o as [x | r]; [discriminate |]. exists r. split; [reflexivity |].
    cbn in Hr. unfold tryBody in Hb. unfold isServerError, is4xx.
    destruct (ok r); cbn [negb] in *.
    + exfalso.
      destruct (resp_contentType r) as [ct |];
        [destruct (negb (String.eqb ct "") && includes ct "application/json") |];
        cbn [negb] in Hb;
        repeat match type of Hb with
        | context [match ?x with _ => _ end] => destruct x; try discriminate
        end;
        injection Hb as <-; discriminate.
    + destruct ((400 <=? resp_status r) && (resp_status r <? 500));
        [injection Hb as <-; discriminate | reflexivity].
  - right. exists name, msg. now split.
  - discriminate.
Qed.

End RequestPolicy.

Lemma request_started rt reqId fetch url options :
  url <> "" ->
  request rt reqId fetch url options =
  retryLoop rt reqId fetch
    (withDefault (opt_unwrap options) true)
    (withDefault (opt_retry options) defaultRetry)
    (withDefault (opt_retryDelay options) defaultRetryDelay)
    (Z.to_nat (withDefault (opt_retry options) defaultRetry + 1)) 0 None.
Proof.
  intros Hurl. unfold request. apply String.eqb_neq in Hurl. now rewrite Hurl.
Qed.

(** The retry policy of the loop as the code has it.  For a non-empty URL
    and a retry budget [retry >= 0] (3 by default, with a pause of 1000 ms
    by default): the attempts number at most [retry + 1] and each but the
    first follows a pause of the retry delay; an attempt is followed by
    another one only if the budget is not spent and it failed with a
    response outside 2xx that is not a 4xx, or with an exception that
    [isRetryableError] accepts; every 5xx response met while the budget
    lasts is retried; a 4xx response and a non-success envelope code on the
    first attempt raise a typed error at once, with no retry; and two 5xx
    responses followed by a successful envelope return its payload. *)
Theorem request_retry_policy rt reqId fetch url options :
  url <> "" ->
  let unwrap := withDefault (opt_unwrap options) true in
  let retry := withDefault (opt_retry options) defaultRetry in
  let retryDelay := withDefault (opt_retryDelay options) defaultRetryDelay in
  0 <= retry ->
  let trace := fst (request rt reqId fetch url options) in
  let result := snd (request rt reqId fetch url options) in
  (opt_retry options = None -> retry = 3) /\
  (opt_retryDelay options = None -> retryDelay = 1000) /\
  (exists n, (1 <= n)%nat /\ Z.of_nat n <= retry + 1 /\
             trace = attemptsTrace n 0 retryDelay) /\
  (forall k, 0 <= k -> In (Fetched (k + 1)) trace ->
     k < retry /\
     exists e, tryBody rt reqId unwrap (fetch k) = inl e /\ retryCause (fetch k) e) /\
  (forall k r, In (Fetched k) trace -> fetch k = inr r -> is5xx r = true ->
     k < retry -> In (Fetched (k + 1)) trace) /\
  (forall r, fetch 0 = inr r -> is4xx r = true ->
     trace = [Fetched 0] /\
     exists e, result = inl (ThrownFetchError e) /\
               status e = Some (resp_status r) /\ isNetworkError e = false) /\
  (forall r ct props,
     fetch 0 = inr r -> ok r = true ->
     resp_contentType r = Some ct -> includes ct "application/json" = true ->
     resp_json r = inr (VObject props) -> unwrap = true ->
     isSuccessCode (get_prop_opt (VObject props) "code") = false ->
     trace = [Fetched 0] /\
     exists e, result = inl (ThrownFetchError e) /\
               code e = get_prop_opt (VObject props) "code" /\
               status e = Some (resp_status r) /\ isNetworkError e = false) /\
  (forall r0 r1 r2 ct props,
     fetch 0 = inr r0 -> is5xx r0 = true ->
     fetch 1 = inr r1 -> is5xx r1 = true ->
     fetch 2 = inr r2 -> ok r2 = true ->
     resp_contentType r2 = Some ct -> includes ct "application/json" = true ->
     resp_json r2 = inr (VObject props) -> unwrap = true ->
     isSuccessCode (get_prop_opt (VObject props) "code") = true ->
     2 <= retry ->
     trace = [Fetched 0; Slept retryDelay; Fetched 1; Slept retryDelay; Fetched 2] /\
     result = inr (get_prop_opt (VObject props) "data")).
Proof.
  intros Hurl unwrap retry retryDelay Hretry trace result.
  subst trace result. rewrite (request_started rt reqId fetch url options Hurl).
  fold unwrap retry retryDelay.
  assert (Hfuel : retry + 1 - 0 <= Z.of_nat (Z.to_nat (retry + 1))) by lia.
  assert (Hsucc : Z.to_nat (retry + 1) = S (Z.to_nat retry)) by lia.
  split; [intros H; subst retry; now rewrite H |].
  split; [intros H; subst retryDelay; now rewrite H |].
  split.
  { destruct (loop_trace rt reqId fetch unwrap retry retryDelay
                (Z.to_nat (retry + 1)) 0 None Hretry Hfuel) as (n & H1 & H2 & H3).
    exists n. split; [exact H1 |]. split; [lia | exact H3]. }
  split; [| split; [| split; [| split]]].
  - intros k Hk Hin.
    destruct (loop_retry_only rt reqId fetch unwrap retry retryDelay _ 0 None k Hk Hin)
      as (e & Hb & _ & Hr & Hlt).
    split; [exact Hlt |]. exists e. split; [exact Hb |].
    now apply (retryable_cause rt reqId unwrap).
  - intros k r Hin Hf H5 Hlt.
    destruct (tryBody_server_error rt reqId unwrap r (is5xx_server_error r H5))
      as (e & Hb & _ & Hnet).
    apply (loop_retries rt reqId fetch unwrap retry retryDelay _ 0 None k
             (ThrownFetchError e)); trivial.
    + now rewrite Hf.
    + cbn. now rewrite Hnet.
  - intros r Hf H4.
    destruct (tryBody_client_error rt reqId unwrap r H4) as (e & Hb & Hs & Hnet & _).
    rewrite Hsucc.
    rewrite (loop_fatal rt reqId fetch unwrap retry retryDelay _ 0 None (ThrownFetchError e));
      [| lia | now rewrite Hf | cbn; now rewrite Hnet].
    split; [reflexivity |]. exists e. now repeat split.
  - intros r ct props Hf Hok Hct Hinc Hjson Hun Hcode.
    rewrite Hsucc.
    pose proof (tryBody_envelope rt reqId r ct props Hok Hct Hinc Hjson) as Hb.
    cbv zeta in Hb. rewrite Hcode in Hb.
    match type of Hb with
    | _ = inl ?e =>
        rewrite (loop_fatal rt reqId fetch unwrap retry retryDelay
                   (Z.to_nat retry) 0 None e Hretry);
          [| rewrite Hf, Hun; exact Hb | reflexivity]
    end.
    split; [reflexivity |]. eexists. split; [reflexivity |]. now repeat split.
  - intros r0 r1 r2 ct props Hf0 H0 Hf1 H1 Hf2 Hok Hct Hinc Hjson Hun Hcode H2.
    destruct (tryBody_server_error rt reqId unwrap r0 (is5xx_server_error r0 H0))
      as (e0 & Hb0 & _ & Hn0).
    destruct (tryBody_server_error rt reqId unwrap r1 (is5xx_server_error r1 H1))
      as (e1 & Hb1 & _ & Hn1).
    pose proof (tryBody_envelope rt reqId r2 ct props Hok Hct Hinc Hjson) as Hb2.
    cbv zeta in Hb2. rewrite Hcode in Hb2.
    assert (Hthree : Z.to_nat (retry + 1) = S (S (S (Z.to_nat (retry - 2))))) by lia.
    rewrite Hthree.
    rewrite (loop_retry rt reqId fetch unwrap retry retryDelay _ 0 None (ThrownFetchError e0));
      [| lia | now rewrite Hf0 | cbn; now rewrite Hn0 | exact Hn0].
    change (0 + 1) with 1.
    rewrite (loop_retry rt reqId fetch unwrap retry retryDelay _ 1 _ (ThrownFetchError e1));
      [| lia | now rewrite Hf1 | cbn; now rewrite Hn1 | exact Hn1].
    change (1 + 1) with 2.
    rewrite (loop_success rt reqId fetch unwrap retry retryDelay _ 2 _
               (get_prop_opt (VObject props) "data"));
      [| lia | rewrite Hf2, Hun; exact Hb2].
    now split.
Qed.

Lemma request_retry_policy_witness :
  "/api/list" <> "" /\
  0 <= withDefault (opt_retry noOptions) defaultRetry /\
  fst (request refRuntime "req_1" (twoFailuresThenSuccess (VString "payload"))
         "/api/list" noOptions)
  = [Fetched 0; Slept 1000; Fetched 1; Slept 1000; Fetched 2] /\
  snd (request refRuntime "req_1" (twoFailuresThenSuccess (VString "payload"))
         "/api/list" noOptions)
  = inr (VString "payload").
Proof.
  assert (Hurl : "/api/list" <> "") by discriminate.
  assert (Hretry : 0 <= withDefault (opt_retry noOptions) defaultRetry) by discriminate.
  split; [exact Hurl |]. split; [exact Hretry |].
  destruct (request_retry_policy refRuntime "req_1"
              (twoFailuresThenSuccess (VString "payload")) "/api/list" noOptions
              Hurl Hretry) as (_ & _ & _ & _ & _ & _ & _ & HE).
  apply (HE (plain 500 "Internal Server Error") (plain 500 "Internal Server Error")
            (envelope 200 (VNumber (number_of_Z 200)) "ok" (VString "payload"))
            "application/json"
            [("code", VNumber (number_of_Z 200)); ("msg", VString "ok");
             ("data", VString "payload")]);
    try reflexivity.
  discriminate.
Defined.

(** C7, where the code departs from the claim.  A response with status 300
    is not a 5xx response and not a network or timeout failure, yet the
    client retries after it exactly as after a 500: answered by a 300 and
    then by a success, it pauses, fetches again and returns the payload;
    answered by a 300 every time, it makes all four attempts and raises the
    error it labels a server error, marked as a network error.  The same
    holds for every response outside 2xx that is not a 4xx, while the
    budget lasts; a 404 is not retried and a 500 is, as the claim says. *)
Theorem request_retries_after_300 :
  ok (plain 300 "Multiple Choices") = false /\
  is4xx (plain 300 "Multiple Choices") = false /\
  is5xx (plain 300 "Multiple Choices") = false /\
  request refRuntime "req_1" (multipleChoicesThenSuccess (VString "payload"))
    "/api/list" noOptions
  = ([Fetched 0; Slept 1000; Fetched 1], inr (VString "payload")) /\
  request refRuntime "req_1" alwaysMultipleChoices "/api/list" noOptions
  = ([Fetched 0; Slept 1000; Fetched 1; Slept 1000; Fetched 2; Slept 1000; Fetched 3],
     inl (ThrownFetchError
            (mkFetchError "服务器错误: 300 Multiple Choices" VUndefined (Some 300)
               (Some "req_1") true))) /\
  (forall rt reqId fetch url options k r,
     url <> "" ->
     In (Fetched k) (fst (request rt reqId fetch url options)) ->
     fetch k = inr r -> ok r = false -> is4xx r = false ->
     k < withDefault (opt_retry options) defaultRetry ->
     In (Fetched (k + 1)) (fst (request rt reqId fetch url options))) /\
  fst (request refRuntime "req_1" alwaysNotFound "/api/list" noOptions) = [Fetched 0] /\
  request refRuntime "req_1" (twoFailuresThenSuccess (VString "payload"))
    "/api/list" noOptions
  = ([Fetched 0; Slept 1000; Fetched 1; Slept 1000; Fetched 2], inr (VString "payload")).
Proof.
  do 5 (split; [reflexivity |]).
  split; [| split; reflexivity].
  intros rt reqId fetch url options k r Hurl Hin Hf Hok H4 Hlt.
  rewrite (request_started rt reqId fetch url options Hurl) in *.
  assert (Hs : isServerError r = true).
  { unfold isServerError. now rewrite Hok, H4. }
  destruct (tryBody_server_error rt reqId (withDefault (opt_unwrap options) true) r Hs)
    as (e & Hb & _ & Hnet).
  apply (loop_retries rt reqId fetch _ _ _ _ 0 None k (ThrownFetchError e)); trivial.
  - lia.
  - now rewrite Hf.
  - cbn. now rewrite Hnet.
Qed.

Example request_not_found_scenario :
  fst (request refRuntime "req_1" alwaysNotFound "/api/list" noOptions) = [Fetched 0] /\
  exists e, snd (request refRuntime "req_1" alwaysNotFound "/api/list" noOptions)
            = inl (ThrownFetchError e) /\ status e = Some 404.
Proof. split; [reflexivity |]. eexists. split; reflexivity. Qed.

Example request_timeout_not_retried :
  request refRuntime "req_1" alwaysAborted "/api/list" noOptions
  = ([Fetched 0],
     inl (ThrownFetchError
            (mkFetchError "请求超时" VUndefined None (Some "req_1") false))).
Proof. reflexivity. Qed.

End ClientFacts.

(** ** The scroll controller *)

Section TableFacts.
Import ShippingTable Props.

Lemma reachBottom_stops t :
  shouldScrollRef (reachBottom t) = false /\
  (refreshCalls t <= refreshCalls (reachBottom t) <= S (refreshCalls t))%nat.
Proof.
  unfold reachBottom. cbn. destruct (onRefresh (props t)); split; trivial; lia.
Qed.

Lemma handleScroll_cases t :
  handleScroll t = t \/
  (shouldScrollRef t = true /\ handleScroll t = reachBottom t).
Proof.
  unfold handleScroll. destruct (containerRef t) as [el |]; [| now left].
  destruct (shouldScrollRef t); cbn; [| now left].
  destruct (atThreshold el); [now right | now left].
Qed.

Lemma animate_cases t :
  animate t = t \/
  (shouldScrollRef t = true /\ animate t = reachBottom t) \/
  (shouldScrollRef (animate t) = shouldScrollRef t /\
   refreshCalls (animate t) = refreshCalls t).
Proof.
  unfold animate. destruct (containerRef t) as [el |]; [| now left].
  destruct (shouldScrollRef t) eqn:Hs; cbn; [| now left].
  destruct (atThreshold el); [right; left; now split |].
  right; right. cbn. now split.
Qed.

(** One event other than a reset: the callback count grows by at most one,
    growing sets [shouldScrollRef] to false, and a false [shouldScrollRef]
    stays false with the count unchanged. *)
Lemma step_calls e t :
  isUpdate e = false ->
  let t' := step e t in
  (refreshCalls t <= refreshCalls t' <= S (refreshCalls t))%nat /\
  (refreshCalls t' <> refreshCalls t -> shouldScrollRef t' = false) /\
  (shouldScrollRef t = false ->
     shouldScrollRef t' = false /\ refreshCalls t' = refreshCalls t).
Proof.
  intros He. destruct e as [p sh ch | | | top | sh ch]; try discriminate; cbn [step].
  - (* Frame *)
    destruct (frames t) as [| h rest]; [repeat split; try lia; tauto |].
    match goal with |- context [animate ?x] => set (t0 := x) end.
    assert (Hc : refreshCalls t0 = refreshCalls t) by reflexivity.
    assert (Hs : shouldScrollRef t0 = shouldScrollRef t) by reflexivity.
    destruct (animate_cases t0) as [E | [[Ht E] | [E1 E2]]].
    + rewrite E, Hc, Hs. repeat split; try lia; tauto.
    + rewrite E. destruct (reachBottom_stops t0) as [Hb Hr].
      rewrite Hc in Hr. rewrite Hs in Ht.
      repeat split; try lia; trivial; intros; congruence.
    + rewrite E1, E2, Hc, Hs. repeat split; try lia; tauto.
  - (* Scroll *)
    destruct (handleScroll_cases t) as [E | [Ht E]]; rewrite E.
    + repeat split; try lia; tauto.
    + destruct (reachBottom_stops t) as [Hb Hr].
      repeat split; try lia; trivial; intros; congruence.
  - (* UserScroll *)
    destruct (containerRef t) as [el |]; [| repeat split; try lia; tauto].
    match goal with |- context [handleScroll ?x] => set (t0 := x) end.
    assert (Hc : refreshCalls t0 = refreshCalls t) by reflexivity.
    assert (Hs : shouldScrollRef t0 = shouldScrollRef t) by reflexivity.
    destruct (handleScroll_cases t0) as [E | [Ht E]]; rewrite E.
    + rewrite Hc, Hs. repeat split; try lia; tauto.
    + destruct (reachBottom_stops t0) as [Hb Hr].
      rewrite Hc in Hr. rewrite Hs in Ht.
      repeat split; try lia; trivial; intros; congruence.
  - (* Layout *)
    destruct (containerRef t) as [el |]; cbn; repeat split; try lia; tauto.

Qed.

Lemma run_stopped es t :
  noUpdate es = true -> shouldScrollRef t = false ->
  shouldScrollRef (run es t) = false /\ refreshCalls (run es t) = refreshCalls t.
Proof.
  revert t. induction es as [| e es IH]; intros t Hes Hs; [now split |].
  cbn in Hes. apply andb_true_iff in Hes. destruct Hes as [He Hes].
  apply negb_true_iff in He.
  destruct (step_calls e t He) as (_ & _ & Hstop).
  destruct (Hstop Hs) as [Hs' Hc']. cbn [run].
  destruct (IH (step e t) Hes Hs') as [Hs'' Hc'']. split; congruence.
Qed.

Lemma run_at_most_once es t :
  noUpdate es = true ->
  (refreshCalls t <= refreshCalls (run es t) <= S (refreshCalls t))%nat.
Proof.
  revert t. induction es as [| e es IH]; intros t Hes; [cbn; lia |].
  cbn in Hes. apply andb_true_iff in Hes. destruct Hes as [He Hes].
  apply negb_true_iff in He.
  destruct (step_calls e t He) as (Hb & Hfire & _). cbn [run].
  destruct (Nat.eq_dec (refreshCalls (step e t)) (refreshCalls t)) as [E | N].
  - specialize (IH (step e t) Hes). lia.
  - destruct (run_stopped es (step e t) Hes (Hfire N)) as [_ Hc]. lia.
Qed.

Lemma threshold_paths_agree t el :
  containerRef t = Some el -> shouldScrollRef t = true -> atThreshold el = true ->
  handleScroll t = reachBottom t /\ animate t = reachBottom t.
Proof.
  intros Hc Hs Ha. unfold handleScroll, animate. now rewrite Hc, Hs, Ha.
Qed.

Lemma cancelCurrent_wf t :
  wf t -> frames (cancelCurrent t) = [] /\ nextFrame (cancelCurrent t) = nextFrame t.
Proof.
  intros [Hn [Hf | [h (Hf & Hr & Hh & Hc)]]]; unfold cancelCurrent.
  - destruct (truthyHandle (scrollRef t)); cbn; rewrite ?Hf; now split.
  - rewrite Hr. cbn. apply Z.eqb_neq in Hh. rewrite Hh. cbn.
    rewrite Hf. cbn. rewrite Z.eqb_refl. now split.
Qed.

Lemma wf_no_frames t :
  0 < nextFrame t -> frames t = [] -> wf t.
Proof. intros Hn Hf. split; [exact Hn | now left]. Qed.

Lemma wf_frames_cases t :
  wf t -> hasCleanup t = false -> frames t = [].
Proof.
  intros [_ [Hf | [h (_ & _ & _ & Hc)]]] Hno; [exact Hf | congruence].
Qed.

(** The commit and the cleanup touch disjoint parts of the table. *)
Lemma cleanup_commit p sh ch t :
  cleanup (commit p sh ch t) = commit p sh ch (cleanup t).
Proof.
  unfold cleanup.
  change (hasCleanup (commit p sh ch t)) with (hasCleanup t).
  destruct (hasCleanup t); [| reflexivity].
  unfold cancelCurrent.
  change (scrollRef (commit p sh ch t)) with (scrollRef t).
  destruct (truthyHandle (scrollRef t)); reflexivity.
Qed.

Lemma update_wf p sh ch t : wf t -> wf (step (Update p sh ch) t).
Proof.
  intros Hwf. cbn [step]. rewrite cleanup_commit.
  assert (H1 : frames (cleanup t) = [] /\ nextFrame (cleanup t) = nextFrame t).
  { unfold cleanup. destruct (hasCleanup t) eqn:Hc.
    - now apply cancelCurrent_wf.
    - split; [now apply wf_frames_cases | reflexivity]. }
  destruct H1 as [Hf Hn]. destruct Hwf as [Hpos _].
  set (t1 := commit p sh ch (cleanup t)).
  assert (Hf1 : frames t1 = []) by exact Hf.
  assert (Hn1 : nextFrame t1 = nextFrame t) by exact Hn.
  assert (Hwf1 : wf t1) by (apply wf_no_frames; [rewrite Hn1; exact Hpos | exact Hf1]).
  unfold effect.
  destruct (negb (autoScroll (props t1)) || (List.length (orders (props t1)) =? 0)%nat).
  - apply wf_no_frames; [change (0 < nextFrame t1); rewrite Hn1; exact Hpos | exact Hf1].
  - destruct (cancelCurrent_wf t1 Hwf1) as [Hf2 Hn2].
    split; [change (0 < nextFrame (cancelCurrent t1) + 1); rewrite Hn2, Hn1; lia |].
    right. exists (nextFrame (cancelCurrent t1)). cbn. rewrite Hf2.
    repeat split. rewrite Hn2, Hn1. lia.
Qed.

Lemma reachBottom_wf t : wf t -> wf (reachBottom t).
Proof. intros H. exact H. Qed.

Lemma handleScroll_wf t : wf t -> wf (handleScroll t).
Proof.
  intros Hwf. destruct (handleScroll_cases t) as [E | [_ E]]; rewrite E; exact Hwf.
Qed.

Lemma step_wf e t : wf t -> wf (step e t).
Proof.
  intros Hwf. destruct e as [p sh ch | | | top | sh ch]; cbn [step].
  - now apply update_wf.
  - destruct Hwf as [Hpos [Hf | [h (Hf & Hr & Hh & Hc)]]]; rewrite Hf;
      [now apply wf_no_frames |].
    unfold animate. cbn.
    destruct (containerRef t) as [el |]; [| apply wf_no_frames; trivial].
    destruct (shouldScrollRef t); cbn; [| apply wf_no_frames; trivial].
    destruct (atThreshold el); [apply wf_no_frames; trivial |].
    split; cbn; [lia |]. right. exists (nextFrame t). repeat split; trivial. lia.
  - now apply handleScroll_wf.
  - destruct (containerRef t) as [el |]; [| exact Hwf].
    apply handleScroll_wf. exact Hwf.
  - destruct (containerRef t) as [el |]; exact Hwf.
Qed.

Lemma mount_wf p sh ch : wf (mount p sh ch).
Proof.
  unfold mount.
  set (t0 := mkTable p None None true false false false [] 1 0).
  assert (Hwf0 : wf t0) by (apply wf_no_frames; [reflexivity | reflexivity]).
  set (t1 := commit p sh ch t0).
  assert (Hwf1 : wf t1) by exact Hwf0.
  unfold effect.
  destruct (negb (autoScroll (props t1)) || (List.length (orders (props t1)) =? 0)%nat).
  - exact Hwf1.
  - split; cbn; [lia |]. right. exists 1. repeat split. discriminate.
Qed.

Lemma empty_update_idle p sh ch t :
  wf t -> orders p = [] ->
  let t' := step (Update p sh ch) t in
  containerRef t' = None /\ frames t' = [] /\ render t' = EmptyState /\
  refreshCalls t' = refreshCalls t.
Proof.
  intros Hwf Ho t'. subst t'. cbn [step]. rewrite cleanup_commit.
  assert (H1 : frames (cleanup t) = [] /\ refreshCalls (cleanup t) = refreshCalls t).
  { unfold cleanup. destruct (hasCleanup t) eqn:Hc.
    - split; [now apply cancelCurrent_wf |].
      unfold cancelCurrent. now destruct (truthyHandle (scrollRef t)).
    - split; [now apply wf_frames_cases | reflexivity]. }
  destruct H1 as [Hf Hc].
  unfold effect, commit, render. cbn. rewrite Ho. cbn.
  rewrite orb_true_r. cbn. rewrite Ho. cbn. repeat split; trivial.
Qed.

Lemma idle_table_ignores es t :
  noUpdate es = true -> containerRef t = None -> frames t = [] -> run es t = t.
Proof.
  revert t. induction es as [| e es IH]; intros t Hes Hc Hf; [reflexivity |].
  cbn in Hes. apply andb_true_iff in Hes. destruct Hes as [He Hes].
  assert (E : step e t = t).
  { destruct e as [p sh ch | | | top | sh ch]; try discriminate; cbn.
    - now rewrite Hf.
    - unfold handleScroll. now rewrite Hc.
    - now rewrite Hc.
    - now rewrite Hc. }
  cbn [run]. rewrite E. now apply IH.
Qed.

Lemma atThreshold_spec el :
  atThreshold el = true <->
  scrollHeight el - clientHeight el - 50 <= scrollTop el.
Proof. unfold atThreshold, BOTTOM_THRESHOLD. apply Z.leb_le. Qed.

(** A render with orders and auto-scroll on starts a cycle: scrolling is
    allowed again, the container is back at the top, one frame is pending. *)
Lemma update_starts_cycle p sh ch t :
  wf t -> orders p <> [] -> autoScroll p = true ->
  let t' := step (Update p sh ch) t in
  shouldScrollRef t' = true /\ isAtBottom t' = false /\
  (exists el, containerRef t' = Some el /\ scrollTop el = 0) /\
  (exists h, frames t' = [h]) /\
  refreshCalls t' = refreshCalls t.
Proof.
  intros Hwf Ho Ha t'. subst t'. cbn [step]. rewrite cleanup_commit.
  assert (H1 : frames (cleanup t) = [] /\ refreshCalls (cleanup t) = refreshCalls t).
  { unfold cleanup. destruct (hasCleanup t) eqn:Hc.
    - split; [now apply cancelCurrent_wf |].
      unfold cancelCurrent. now destruct (truthyHandle (scrollRef t)).
    - split; [now apply wf_frames_cases | reflexivity]. }
  destruct H1 as [Hf Hc].
  set (t1 := commit p sh ch (cleanup t)).
  assert (Hf1 : frames t1 = []) by exact Hf.
  assert (Hc1 : refreshCalls t1 = refreshCalls t) by exact Hc.
  assert (Hp1 : props t1 = p) by reflexivity.
  assert (Hel : exists el, containerRef t1 = Some el).
  { unfold t1, commit. cbn. destruct (orders p) as [| o os]; [now destruct Ho |].
    cbn. destruct (containerRef (cleanup t)); eauto. }
  destruct Hel as [el Hel].
  unfold effect. rewrite Hp1, Ha. cbn [negb orb].
  destruct (orders p) as [| o os] eqn:Hop; [now destruct Ho |]. cbn [List.length Nat.eqb].
  assert (Hcc : containerRef (cancelCurrent t1) = Some el /\
                frames (cancelCurrent t1) = [] /\
                refreshCalls (cancelCurrent t1) = refreshCalls t).
  { unfold cancelCurrent. destruct (truthyHandle (scrollRef t1));
      cbn [containerRef frames refreshCalls]; rewrite ?Hf1; cbn [filter];
      repeat split; trivial. }
  destruct Hcc as (Hce & Hcf & Hcr).
  cbn [shouldScrollRef isAtBottom containerRef frames refreshCalls].
  rewrite Hce, Hcf. cbn [app scrollTop].
  repeat split; trivial; eauto.
Qed.

(** C2.  In a scroll cycle (a run of frames, scroll events, manual
    scrolls and layouts with no reset) the bottom-reached callback is
    called at most once; once scrolling has stopped it is not called again
    before the next reset; at the threshold
    [scrollTop >= scrollHeight - clientHeight - 50] the frame callback and
    the scroll handler do the same thing, which stops scrolling, shows the
    bottom banner and calls the callback once; and with an empty order list
    the table renders the empty state, has no frame pending, ignores every
    event of the cycle and never calls the callback. *)
Theorem bottom_callback_once_per_cycle (t : Table) (es : list Event) :
  wf t -> noUpdate es = true ->
  (refreshCalls t <= refreshCalls (run es t) <= S (refreshCalls t))%nat /\
  (shouldScrollRef t = false -> refreshCalls (run es t) = refreshCalls t) /\
  (forall el,
     containerRef t = Some el -> shouldScrollRef t = true ->
     scrollHeight el - clientHeight el - 50 <= scrollTop el ->
     animate t = handleScroll t /\
     shouldScrollRef (handleScroll t) = false /\
     isAtBottom (handleScroll t) = true /\
     refreshCalls (handleScroll t) =
       (if onRefresh (props t) then S (refreshCalls t) else refreshCalls t) /\
     refreshCalls (run es (handleScroll t)) = refreshCalls (handleScroll t)) /\
  (forall p sh ch,
     orders p = [] ->
     let t' := step (Update p sh ch) t in
     render t' = EmptyState /\ frames t' = [] /\
     run es t' = t' /\ refreshCalls (run es t') = refreshCalls t) /\
  (forall p sh ch,
     orders p = [] ->
     render (mount p sh ch) = EmptyState /\ frames (mount p sh ch) = [] /\
     run es (mount p sh ch) = mount p sh ch /\ refreshCalls (mount p sh ch) = O).
Proof.
  intros Hwf Hes.
  split; [now apply run_at_most_once |].
  split; [intros Hs; now apply run_stopped |].
  split; [| split].
  - intros el Hc Hs Hth. apply atThreshold_spec in Hth.
    destruct (threshold_paths_agree t el Hc Hs Hth) as [E1 E2].
    rewrite E1, E2. split; [reflexivity |].
    split; [reflexivity |]. split; [reflexivity |]. split; [reflexivity |].
    now apply run_stopped.
  - intros p sh ch Ho t'.
    destruct (empty_update_idle p sh ch t Hwf Ho) as (Hc & Hf & Hr & Hn).
    fold t' in Hc, Hf, Hr, Hn.
    assert (E : run es t' = t') by now apply idle_table_ignores.
    rewrite E. now repeat split.
  - intros p sh ch Ho.
    assert (E : mount p sh ch =
                mkTable p None None true false false false [] 1 0).
    { unfold mount, effect, commit. cbn. rewrite Ho. cbn.
      now rewrite orb_true_r. }
    rewrite E. unfold render. cbn. rewrite Ho. cbn.
    repeat split. now apply idle_table_ignores.
Qed.

Lemma bottom_callback_once_per_cycle_witness :
  wf (mount sampleProps 120 100) /\
  noUpdate [Frame; Scroll; Frame; UserScroll 20; Frame] = true /\
  refreshCalls (run [Frame; Scroll; Frame; UserScroll 20; Frame] (mount sampleProps 120 100))
  = 1%nat /\
  (refreshCalls (mount sampleProps 120 100)
   <= refreshCalls (run [Frame; Scroll; Frame; UserScroll 20; Frame] (mount sampleProps 120 100))
   <= S (refreshCalls (mount sampleProps 120 100)))%nat.
Proof.
  assert (Hwf : wf (mount sampleProps 120 100)).
  { split; [reflexivity |]. right. exists 1. repeat split. discriminate. }
  split; [exact Hwf |]. split; [reflexivity |]. split; [reflexivity |].
  apply (bottom_callback_once_per_cycle (mount sampleProps 120 100)
           [Frame; Scroll; Frame; UserScroll 20; Frame] Hwf eq_refl).
Defined.

Example scroll_long_list :
  let t := mount sampleProps 400 100 in
  refreshCalls (run (repeat Frame 250) t) = O /\
  refreshCalls (run (repeat Frame 251) t) = 1%nat /\
  refreshCalls (run (repeat Frame 300 ++ [Scroll; UserScroll 300]) t) = 1%nat /\
  refreshCalls (run (repeat Frame 251 ++ [Update sampleProps 400 100] ++ repeat Frame 251) t)
  = 2%nat.
Proof. vm_compute. repeat split. Qed.

End TableFacts.

(* ================================================================== *)
(** * Further properties                                              *)
(* ================================================================== *)

(** ** URLs, query strings and the token cookie *)

Section UrlFacts.
Import Js FetchHttp Props HttpUrl More.

(** *** Strings *)

Lemma append_empty_r (s : string) : (s ++ "")%string = s.
Proof. induction s as [| c s IH]; cbn; [reflexivity | now rewrite IH]. Qed.

Lemma append_assoc (a b c : string) : ((a ++ b) ++ c)%string = (a ++ b ++ c)%string.
Proof. induction a as [| x a IH]; cbn; [reflexivity | now rewrite IH]. Qed.

Lemma prefix_app (p s : string) : prefix p (p ++ s) = true.
Proof.
  induction p as [| c p IH]; cbn; [now destruct s |].
  destruct (ascii_dec c c) as [_ | N]; [exact IH | now destruct N].
Qed.

Lemma prefix_cons (a b : ascii) (p s : string) :
  prefix (String a p) (String b s) = Ascii.eqb a b && prefix p s.
Proof.
  cbn. destruct (ascii_dec a b) as [-> | N].
  - now rewrite Ascii.eqb_refl.
  - apply Ascii.eqb_neq in N. now rewrite N.
Qed.

Lemma includes_app_l (a b sub : string) :
  includes a sub = true -> includes (a ++ b) sub = true.
Proof.
  assert (Hp : forall p a b, prefix p a = true -> prefix p (a ++ b) = true).
  { induction p as [| c p IH]; intros [| x a'] b' H; cbn in *; trivial; try discriminate.
    - now destruct b'.
    - destruct (ascii_dec c x); [now apply IH | discriminate]. }
  induction a as [| x a IH]; intros H.
  - cbn in H. destruct sub; [| discriminate]. now destruct b.
  - cbn [includes] in H. change (String x a ++ b)%string with (String x (a ++ b)).
    cbn [includes]. destruct (prefix sub (String x a)) eqn:E.
    + change (String x (a ++ b)) with (String x a ++ b)%string. now rewrite (Hp _ _ b E).
    + destruct (prefix sub (String x (a ++ b))); [reflexivity | now apply IH].
Qed.

Lemma includes_app_r (a b sub : string) :
  includes b sub = true -> includes (a ++ b) sub = true.
Proof.
  intros H. induction a as [| x a IH]; [exact H |].
  change (String x a ++ b)%string with (String x (a ++ b)). cbn [includes].
  now destruct (prefix sub (String x (a ++ b))).
Qed.

(** *** buildUrl and setBaseUrl *)

Lemma stripTrailingSlash_slash (b : string) : stripTrailingSlash (b ++ "/") = b.
Proof.
  induction b as [| c b IH]; [reflexivity |].
  change (String c b ++ "/")%string with (String c (b ++ "/")).
  cbn [stripTrailingSlash]. rewrite IH.
  destruct b; reflexivity.
Qed.

Lemma stripTrailingSlash_other (b : string) :
  lastChar b <> Some "/"%char -> stripTrailingSlash b = b.
Proof.
  induction b as [| c b IH]; intros H; [reflexivity |].
  destruct b as [| d b'].
  - cbn in *. destruct (Ascii.eqb_spec c "/") as [-> | _]; [now destruct H | reflexivity].
  - change (stripTrailingSlash (String c (String d b')))
      with (String c (stripTrailingSlash (String d b'))).
    now rewrite IH.
Qed.

Lemma buildUrl_suffix thisBaseUrl url baseUrl :
  exists pre, buildUrl thisBaseUrl url baseUrl = (pre ++ url)%string.
Proof.
  unfold buildUrl.
  destruct (negb (String.eqb (DispatchPage.orString baseUrl thisBaseUrl) "")
            && negb (startsWith url "http://") && negb (startsWith url "https://")
            && negb (startsWith url "//")).
  - eexists. now rewrite <- append_assoc.
  - now exists "".
Qed.

Lemma buildUrl_relative base p :
  base <> "" -> relativePath p = true ->
  buildUrl base p None = (base ++ "/" ++ p)%string /\
  buildUrl base ("/" ++ p) None = (base ++ "/" ++ p)%string.
Proof.
  intros Hb Hrel. apply String.eqb_neq in Hb.
  unfold relativePath in Hrel. apply andb_true_iff in Hrel. destruct Hrel as [Hrel H2].
  apply andb_true_iff in Hrel. destruct Hrel as [Hs H1].
  apply negb_true_iff in Hs, H1, H2.
  assert (Hss : startsWith p "//" = false).
  { destruct p as [| c p']; [reflexivity |]. unfold startsWith in *.
    rewrite prefix_cons in *. destruct (Ascii.eqb "/" c); [| reflexivity].
    cbn in Hs. now destruct p'. }
  unfold buildUrl, DispatchPage.orString.
  split.
  - now rewrite Hb, H1, H2, Hss, Hs.
  - rewrite Hb. cbn [negb andb].
    replace (startsWith ("/" ++ p) "http://") with false by reflexivity.
    replace (startsWith ("/" ++ p) "https://") with false by reflexivity.
    replace (startsWith ("/" ++ p) "//") with (startsWith p "/")
      by (unfold startsWith; cbn [append]; now rewrite !prefix_cons).
    rewrite Hs. cbn [negb andb].
    replace (startsWith ("/" ++ p) "/") with true
      by (unfold startsWith; cbn [append]; rewrite prefix_cons; now destruct p).
    reflexivity.
Qed.

(** X1.  A stored base URL and a relative path are joined with exactly one
    slash, whether or not the base was given with a final slash and the
    path with a leading one: [setBaseUrl] drops one final slash and
    [buildUrl] adds a slash only when the path has none.  A base URL passed
    per call is not stripped, so its final slash is doubled. *)
Theorem buildUrl_one_slash (b p : string) :
  b <> "" -> lastChar b <> Some "/"%char -> relativePath p = true ->
  buildUrl (setBaseUrl b) p None = (b ++ "/" ++ p)%string /\
  buildUrl (setBaseUrl (b ++ "/")) p None = (b ++ "/" ++ p)%string /\
  buildUrl (setBaseUrl b) ("/" ++ p) None = (b ++ "/" ++ p)%string /\
  buildUrl (setBaseUrl (b ++ "/")) ("/" ++ p) None = (b ++ "/" ++ p)%string /\
  forall stored, buildUrl stored p (Some (b ++ "/")%string) = (b ++ "//" ++ p)%string.
Proof.
  intros Hb Hlast Hrel. unfold setBaseUrl.
  rewrite stripTrailingSlash_slash, (stripTrailingSlash_other b Hlast).
  destruct (buildUrl_relative b p Hb Hrel) as [H1 H2].
  repeat split; trivial.
  intros stored.
  assert (Hne : (b ++ "/")%string <> "") by (destruct b; discriminate).
  destruct (buildUrl_relative (b ++ "/") p Hne Hrel) as [H3 _].
  assert (Hsame : buildUrl stored p (Some (b ++ "/")%string) = buildUrl (b ++ "/") p None).
  { apply String.eqb_neq in Hne. unfold buildUrl, DispatchPage.orString. cbv zeta. now rewrite !Hne. }
  rewrite Hsame, H3. now rewrite append_assoc.
Qed.

Lemma buildUrl_one_slash_witness :
  buildUrl (setBaseUrl "https://api.example.com/v1/") "/dispatch/list" None
  = "https://api.example.com/v1/dispatch/list".
Proof.
  apply (buildUrl_one_slash "https://api.example.com/v1" "dispatch/list");
    [discriminate | discriminate | reflexivity].
Defined.

(** *** The query string *)

Lemma hexValue_hexDigit n : (n < 16)%nat -> hexValue (hexDigit n) = Some n.
Proof.
  intros H. do 16 (destruct n as [| n]; [reflexivity |]). lia.
Qed.

Lemma isUnreserved_hexDigit n : (n < 16)%nat -> isUnreserved (hexDigit n) = true.
Proof.
  intros H. do 16 (destruct n as [| n]; [reflexivity |]). lia.
Qed.

Lemma isUnreserved_not (c x : ascii) :
  isUnreserved x = false -> isUnreserved c = true -> Ascii.eqb c x = false.
Proof.
  intros Hx Hc. destruct (Ascii.eqb_spec c x) as [-> | _]; [congruence | reflexivity].
Qed.

Lemma allChars_app p a b : allChars p (a ++ b) = allChars p a && allChars p b.
Proof.
  induction a as [| c a IH]; [reflexivity |].
  cbn. now rewrite IH, andb_assoc.
Qed.

Lemma allChars_weaken (p q : ascii -> bool) s :
  (forall c, p c = true -> q c = true) -> allChars p s = true -> allChars q s = true.
Proof.
  intros Hpq. induction s as [| c s IH]; [reflexivity |].
  cbn. intros H. apply andb_true_iff in H. destruct H as [H1 H2].
  now rewrite (Hpq c H1), IH.
Qed.

Lemma encodeURIComponent_chars s : allChars encChar (encodeURIComponent s) = true.
Proof.
  induction s as [| c s IH]; [reflexivity |].
  cbn [encodeURIComponent]. destruct (isUnreserved c) eqn:Hc.
  - cbn. unfold encChar at 1. now rewrite Hc.
  - assert (Hn : (nat_of_ascii c < 256)%nat) by apply nat_ascii_bounded.
    cbn [allChars]. unfold encChar at 1 2 3.
    rewrite !isUnreserved_hexDigit.
    + now rewrite IH.
    + apply Nat.mod_upper_bound. discriminate.
    + apply Nat.Div0.div_lt_upper_bound. exact Hn.
Qed.

Lemma encodeURIComponent_no (x : ascii) s :
  encChar x = false -> noChar x (encodeURIComponent s) = true.
Proof.
  intros Hx. unfold noChar.
  apply (allChars_weaken encChar); [| apply encodeURIComponent_chars].
  intros c Hc. destruct (Ascii.eqb_spec c x) as [-> | _]; [congruence | reflexivity].
Qed.

Lemma percentDecode_encode s : forall fuel,
  (String.length (encodeURIComponent s) <= fuel)%nat ->
  percentDecode fuel (encodeURIComponent s) = s.
Proof.
  induction s as [| c s IH]; intros fuel Hf.
  - now destruct fuel.
  - cbn [encodeURIComponent] in *. destruct (isUnreserved c) eqn:Hc.
    + destruct fuel as [| fuel]; [cbn in Hf; lia |].
      cbn [percentDecode]. rewrite (isUnreserved_not c "%" eq_refl Hc).
      rewrite IH; [reflexivity | cbn in Hf; lia].
    + destruct fuel as [| fuel]; [cbn in Hf; lia |].
      assert (Hn : (nat_of_ascii c < 256)%nat) by apply nat_ascii_bounded.
      cbn [percentDecode]. rewrite Ascii.eqb_refl.
      rewrite !hexValue_hexDigit.
      * rewrite <- Nat.div_mod_eq, ascii_nat_embedding.
        rewrite IH; [reflexivity | cbn in Hf; lia].
      * apply Nat.mod_upper_bound. discriminate.
      * apply Nat.Div0.div_lt_upper_bound. exact Hn.
Qed.

Lemma decode_encode s : decode (encodeURIComponent s) = s.
Proof. unfold decode. now apply percentDecode_encode. Qed.

Lemma splitOn_nosep sep a : noChar sep a = true -> splitOn sep a = [a].
Proof.
  induction a as [| c a IH]; [reflexivity |].
  unfold noChar. cbn. intros H. apply andb_true_iff in H. destruct H as [H1 H2].
  apply negb_true_iff in H1. rewrite H1. now rewrite (IH H2).
Qed.

Lemma splitOn_app sep a b :
  noChar sep a = true -> splitOn sep (a ++ String sep b) = a :: splitOn sep b.
Proof.
  induction a as [| c a IH].
  - intros _. cbn. now rewrite Ascii.eqb_refl.
  - unfold noChar. cbn. intros H. apply andb_true_iff in H. destruct H as [H1 H2].
    apply negb_true_iff in H1. rewrite H1. now rewrite (IH H2).
Qed.

Lemma splitOn_join sep parts :
  parts <> [] -> Forall (fun p => noChar sep p = true) parts ->
  splitOn sep (join (String sep "") parts) = parts.
Proof.
  induction parts as [| p rest IH]; intros Hne Hall; [now destruct Hne |].
  inversion Hall as [| ? ? Hp Hrest]; subst.
  destruct rest as [| q rest'].
  - now apply splitOn_nosep.
  - change (join (String sep "") (p :: q :: rest'))
      with (p ++ String sep (join (String sep "") (q :: rest')))%string.
    rewrite (splitOn_app sep p _ Hp). f_equal. apply IH; [discriminate | exact Hrest].
Qed.

Lemma beforeFirst_app sep a b :
  noChar sep a = true -> Trends.beforeFirst sep (a ++ String sep b) = a.
Proof.
  induction a as [| c a IH].
  - intros _. cbn. now rewrite Ascii.eqb_refl.
  - unfold noChar. cbn. intros H. apply andb_true_iff in H. destruct H as [H1 H2].
    apply negb_true_iff in H1. rewrite H1. now rewrite (IH H2).
Qed.

Lemma dropChars_app a x b : dropChars (S (String.length a)) (a ++ String x b) = b.
Proof. induction a as [| c a IH]; [reflexivity | exact IH]. Qed.

Lemma readPart_part rt key v : readPart (part rt key v) = (key, String_ rt v).
Proof.
  unfold readPart, part.
  change (encodeURIComponent key ++ "=" ++ encodeURIComponent (String_ rt v))%string
    with (encodeURIComponent key ++ String "=" (encodeURIComponent (String_ rt v)))%string.
  rewrite beforeFirst_app by now apply encodeURIComponent_no.
  now rewrite dropChars_app, !decode_encode.
Qed.

Lemma part_chars rt key v : allChars isQueryChar (part rt key v) = true.
Proof.
  assert (H : forall s, allChars isQueryChar (encodeURIComponent s) = true).
  { intros s. apply (allChars_weaken encChar); [| apply encodeURIComponent_chars].
    unfold encChar, isQueryChar. intros c Hc. now rewrite Hc. }
  unfold part. rewrite !allChars_app, !H. reflexivity.
Qed.

Lemma part_no_amp rt key v : noChar "&" (part rt key v) = true.
Proof.
  unfold part, noChar. rewrite !allChars_app.
  fold (noChar "&" (encodeURIComponent key)).
  fold (noChar "&" (encodeURIComponent (String_ rt v))).
  now rewrite !encodeURIComponent_no.
Qed.

Lemma join_chars parts :
  Forall (fun p => allChars isQueryChar p = true) parts ->
  allChars isQueryChar (join "&" parts) = true.
Proof.
  induction 1 as [| p rest Hp Hrest IH]; [reflexivity |].
  destruct rest as [| q rest']; [exact Hp |].
  change (join "&" (p :: q :: rest')) with (p ++ "&" ++ join "&" (q :: rest'))%string.
  now rewrite !allChars_app, Hp, IH.
Qed.

Lemma partsOf_parts rt entry :
  Forall (fun p => exists key v, p = part rt key v) (partsOf rt entry).
Proof.
  destruct entry as [key [| | v | items]]; cbn; auto.
  - constructor; eauto.
  - induction (filteredItems items) as [| v vs IH]; cbn; constructor; eauto.
Qed.

Lemma serialized_parts rt ps :
  Forall (fun p => exists key v, p = part rt key v) (flat_map (partsOf rt) ps).
Proof.
  induction ps as [| e ps IH]; cbn; [constructor |].
  apply Forall_app. split; [apply partsOf_parts | exact IH].
Qed.

Lemma readPart_entries rt ps :
  map readPart (flat_map (partsOf rt) ps) = flatEntries rt ps.
Proof.
  unfold flatEntries. induction ps as [| [key value] ps IH]; [reflexivity |].
  cbn [flat_map]. rewrite map_app, IH. f_equal.
  destruct value as [| | v | items]; cbn; trivial.
  - now rewrite readPart_part.
  - rewrite map_map. apply map_ext. intros v. apply readPart_part.
Qed.

(** X2.  The query string [serializeParams] writes can be read back: split at
    [&], each part split at its first [=] and percent-decoded, it yields
    exactly the entries with a value other than [null] and [undefined], in
    order, arrays unfolded into one entry per remaining item; and it holds
    only unreserved characters, [%], [=] and [&]. *)
Theorem serializeParams_reads_back rt (params : Params) :
  readQuery (serializeParams rt params) = flatEntries rt params /\
  allChars isQueryChar (serializeParams rt params) = true.
Proof.
  pose proof (serialized_parts rt params) as Hparts.
  split.
  - unfold readQuery, serializeParams. rewrite <- readPart_entries.
    destruct (flat_map (partsOf rt) params) as [| p rest] eqn:E; [reflexivity |].
    assert (Hne : String.eqb (join "&" (p :: rest)) "" = false).
    { inversion Hparts as [| ? ? (key & v & ->) _]; subst.
      apply String.eqb_neq. unfold part.
      destruct rest; destruct (encodeURIComponent key); discriminate. }
    rewrite Hne. f_equal. apply (splitOn_join "&"); [discriminate |].
    eapply Forall_impl; [| exact Hparts].
    intros q (key & v & ->). apply part_no_amp.
  - unfold serializeParams. apply join_chars.
    eapply Forall_impl; [| exact Hparts].
    intros q (key & v & ->). apply part_chars.
Qed.

(** *** The two timestamps of [get] *)

Lemma withTimestamp_has_query url now : includes (withTimestamp url now) "?" = true.
Proof.
  unfold withTimestamp. destruct (includes url "?") eqn:E.
  - now apply includes_app_l.
  - apply includes_app_r. reflexivity.
Qed.

(** X3.  The URL a [get] fetches ends with two cache-busting parameters,
    [_t=<now1>&_t=<now2>]: [get] appends one and [request] appends another
    to every GET, the second always after [&]. *)
Theorem get_adds_two_timestamps rt thisBaseUrl url params baseUrl now1 now2 :
  exists pre sep,
    getFetchedUrl rt thisBaseUrl url params baseUrl now1 now2
    = (pre ++ sep ++ "_t=" ++ Z_toString now1 ++ "&_t=" ++ Z_toString now2)%string /\
    (sep = "?" \/ sep = "&").
Proof.
  unfold getFetchedUrl, requestUrl. cbn [String.eqb Ascii.eqb Bool.eqb].
  destruct (buildUrl_suffix thisBaseUrl (getUrl rt url params now1) baseUrl) as [pre ->].
  unfold withTimestamp at 1.
  rewrite (includes_app_r pre _ "?") by apply withTimestamp_has_query.
  unfold getUrl. set (u1 := match params with Some _ => _ | None => _ end).
  unfold withTimestamp.
  exists (pre ++ u1)%string, (if includes u1 "?" then "&" else "?").
  split; [| destruct (includes u1 "?"); auto].
  now rewrite !append_assoc.
Qed.

(** *** The token cookie *)

Lemma lastChar_cons s : forall c, lastChar (String c s) <> None.
Proof.
  induction s as [| d s IH]; intros c; [discriminate |].
  change (lastChar (String c (String d s))) with (lastChar (String d s)). apply IH.
Qed.

Lemma lastChar_app a b :
  lastChar (a ++ b) = match lastChar b with Some c => Some c | None => lastChar a end.
Proof.
  induction a as [| c a IH].
  - cbn. now destruct (lastChar b).
  - change (String c a ++ b)%string with (String c (a ++ b)).
    destruct a as [| d a'].
    + cbn [append]. destruct b as [| e b']; [reflexivity |].
      change (lastChar (String c (String e b'))) with (lastChar (String e b')).
      destruct (lastChar (String e b')) eqn:E; [reflexivity |].
      now destruct (lastChar_cons b' e).
    + change (lastChar (String c (String d a' ++ b))) with (lastChar (String d a' ++ b)).
      rewrite IH. reflexivity.
Qed.

Lemma prefix_name p : forall n v,
  noChar "=" p = true -> noChar "=" n = true ->
  prefix (p ++ "=") (n ++ "=" ++ v) = String.eqb n p.
Proof.
  unfold noChar.
  induction p as [| a p IH]; intros [| b n] v Hp Hn.
  - cbn. now destruct v.
  - cbn in Hn. apply andb_true_iff in Hn. destruct Hn as [Hb _].
    apply negb_true_iff in Hb.
    change (String b n ++ "=" ++ v)%string with (String b (n ++ "=" ++ v)).
    change ("" ++ "=")%string with (String "=" "").
    rewrite prefix_cons. rewrite Ascii.eqb_sym, Hb. reflexivity.
  - cbn in Hp. apply andb_true_iff in Hp. destruct Hp as [Ha _].
    apply negb_true_iff in Ha.
    change ("" ++ "=" ++ v)%string with (String "=" v).
    change (String a p ++ "=")%string with (String a (p ++ "=")).
    rewrite prefix_cons, Ha. reflexivity.
  - cbn in Hp, Hn. apply andb_true_iff in Hp, Hn. destruct Hp as [_ Hp], Hn as [_ Hn].
    change (String b n ++ "=" ++ v)%string with (String b (n ++ "=" ++ v)).
    change (String a p ++ "=")%string with (String a (p ++ "=")).
    rewrite prefix_cons, (IH n v Hp Hn). cbn [String.eqb].
    rewrite (Ascii.eqb_sym a b). now destruct (Ascii.eqb b a).
Qed.

Lemma wellFormedCookie_spec n v :
  wellFormedCookie (n, v) = true ->
  n <> "" /\ noChar "=" n = true /\ noChar ";" n = true /\ noChar ";" v = true /\
  visibleAscii (firstChar n) = true /\ visibleAscii (lastChar v) = true.
Proof.
  unfold wellFormedCookie. rewrite !andb_true_iff, negb_true_iff.
  intros (((((A & B) & C) & D) & E) & F). apply String.eqb_neq in A. now repeat split.
Qed.

Lemma pair_trim pad c :
  wellFormedCookie c = true -> pad = "" \/ pad = " " ->
  noChar ";" (pad ++ cookiePair c) = true /\ trim (pad ++ cookiePair c) = cookiePair c.
Proof.
  destruct c as [n v]. unfold cookiePair. cbn [fst snd]. intros H Hpad.
  destruct (wellFormedCookie_spec n v H) as (Hne & _ & Hn1 & Hv1 & Hfirst & Hlast).
  split.
  - unfold noChar in *. rewrite !allChars_app.
    destruct Hpad as [-> | ->]; cbn [allChars]; now rewrite Hn1, Hv1.
  - assert (Hs : trimStart (pad ++ n ++ "=" ++ v) = (n ++ "=" ++ v)%string).
    { assert (Hn : trimStart (n ++ "=" ++ v) = (n ++ "=" ++ v)%string).
      { destruct n as [| a n']; [now destruct Hne |]. cbn [firstChar] in Hfirst.
        cbn [append]. now apply trimStart_visible. }
      destruct Hpad as [-> | ->]; [exact Hn |].
      rewrite (trimStart_skips " " _ eq_refl). exact Hn. }
    unfold trim. rewrite Hs. apply trimEnd_id.
    rewrite !lastChar_app. destruct (lastChar v); [exact Hlast | reflexivity].
Qed.

Lemma findToken_jar jar : forall pad,
  forallb wellFormedCookie jar = true -> pad = "" \/ pad = " " ->
  findToken (splitOn ";" (pad ++ cookieString jar)) = jarLookup "token" jar.
Proof.
  induction jar as [| c rest IH]; intros pad Hwf Hpad.
  - cbn. rewrite append_empty_r. destruct Hpad as [-> | ->]; reflexivity.
  - cbn [forallb] in Hwf. apply andb_true_iff in Hwf. destruct Hwf as [Hc Hrest].
    destruct (pair_trim pad c Hc Hpad) as [Hno Htrim].
    assert (Hhead : forall others,
              findToken ((pad ++ cookiePair c)%string :: others)
              = if String.eqb (fst c) "token" then Some (snd c) else findToken others).
    { intros others. cbn [findToken]. rewrite Htrim. unfold cookiePair.
      destruct c as [n v]. cbn [fst snd].
      destruct (wellFormedCookie_spec n v Hc) as (_ & Heq & _).
      change "token=" with ("token" ++ "=")%string.
      rewrite (prefix_name "token" n v eq_refl Heq).
      destruct (String.eqb_spec n "token") as [-> | _]; reflexivity. }
    destruct c as [n v]. cbn [jarLookup]. cbn [fst snd] in Hhead.
    unfold cookieString. cbn [map].
    destruct rest as [| c2 rest'].
    + cbn [join map]. fold (cookiePair (n, v)).
      rewrite (splitOn_nosep _ _ Hno), Hhead. reflexivity.
    + change (join "; " ((fst (n, v) ++ "=" ++ snd (n, v))%string
                         :: map (fun c => (fst c ++ "=" ++ snd c)%string) (c2 :: rest')))
        with (cookiePair (n, v) ++ String ";" (" " ++ cookieString (c2 :: rest')))%string.
      rewrite <- append_assoc.
      rewrite (splitOn_app _ _ _ Hno), Hhead.
      rewrite (IH " " Hrest (or_intror eq_refl)). reflexivity.
Qed.

(** X4.  When the decoded cookie text lists well-formed cookies as
    [name=value] joined by ["; "], [getTokenFromCookie] returns the value
    of the first cookie named exactly [token], and [null] when there is
    none. *)
Theorem getTokenFromCookie_reads_jar (jar : list (string * string)) :
  forallb wellFormedCookie jar = true ->
  getTokenFromCookie (Some (inr (cookieString jar))) = inr (jarLookup "token" jar).
Proof.
  intros Hwf. cbn [getTokenFromCookie]. f_equal.
  exact (findToken_jar jar "" Hwf (or_introl eq_refl)).
Qed.

Lemma getTokenFromCookie_reads_jar_witness :
  getTokenFromCookie (Some (inr "lang=zh-CN; token=abc.def; theme=dark"))
  = inr (Some "abc.def").
Proof.
  apply (getTokenFromCookie_reads_jar sampleJar). reflexivity.
Defined.

End UrlFacts.

(** ** The retry loop, continued *)

Section ClientMore.
Import Js FetchHttp Props HttpUrl More.

Section Loop.

Variable rt : Runtime.
Variable reqId : string.
Variable fetch : Z -> Exn + Response.
Variable unwrap : bool.
Variables retry retryDelay : Z.

Let body (k : Z) := tryBody rt reqId unwrap (fetch k).
Let loop := retryLoop rt reqId fetch unwrap retry retryDelay.

(** Every typed error the [try] block raises carries the request id. *)
Lemma tryBody_error_tagged o fe :
  tryBody rt reqId unwrap o = inl (ThrownFetchError fe) -> requestId fe = Some reqId.
Proof.
  unfold tryBody. intros H.
  destruct o as [x | r]; [discriminate |].
  destruct (ok r); cbn [negb] in H.
  - destruct (resp_contentType r) as [ct |];
      [destruct (negb (String.eqb ct "") && includes ct "application/json") |];
      cbn [negb] in H;
      repeat match type of H with
      | context [match ?x with _ => _ end] => destruct x; try discriminate
      end;
      injection H as <-; reflexivity.
  - destruct ((400 <=? resp_status r) && (resp_status r <? 500));
      injection H as <-; reflexivity.
Qed.

Let tagged (e : Thrown) : Prop :=
  exists fe, e = ThrownFetchError fe /\ requestId fe = Some reqId.

Lemma loop_errors_tagged fuel : forall attempt last e,
  (forall fe, last = Some (ThrownFetchError fe) -> requestId fe = Some reqId) ->
  snd (loop fuel attempt last) = inl e -> tagged e.
Proof.
  assert (Hafter : forall last e,
            (forall fe, last = Some (ThrownFetchError fe) -> requestId fe = Some reqId) ->
            afterLoop reqId last = e -> tagged e).
  { intros last e Hl <-. unfold afterLoop.
    destruct last as [[fe | x] |]; eexists; split; try reflexivity.
    now apply Hl. }
  induction fuel as [| fuel IH]; intros attempt last e Hlast Hres.
  - cbn in Hres. injection Hres as Hres. now apply (Hafter last).
  - unfold loop in Hres. cbn [retryLoop] in Hres.
    destruct (attempt <=? retry).
    2:{ cbn in Hres. injection Hres as Hres. now apply (Hafter last). }
    destruct (tryBody rt reqId unwrap (fetch attempt)) as [err | v] eqn:Hb;
      [| discriminate].
    assert (Herr : forall fe, err = ThrownFetchError fe -> requestId fe = Some reqId).
    { intros fe ->. now apply (tryBody_error_tagged (fetch attempt)). }
    destruct (nonNetwork err) eqn:Hn.
    + cbn in Hres. injection Hres as <-.
      destruct err as [fe | x]; [| discriminate]. exists fe. split; [reflexivity | now apply Herr].
    + destruct ((attempt <? retry) && isRetryableError err).
      * destruct (retryLoop rt reqId fetch unwrap retry retryDelay fuel (attempt + 1) (Some err))
          as [tr res] eqn:Hrec.
        cbn in Hres. apply (IH (attempt + 1) (Some err) e).
        -- intros fe E. injection E as ->. now apply Herr.
        -- unfold loop. now rewrite Hrec.
      * cbn in Hres. injection Hres as <-. unfold giveUp.
        destruct err as [fe | [name msg | v]].
        -- exists fe. split; [reflexivity | now apply Herr].
        -- destruct (String.eqb name "AbortError"); eexists; split; reflexivity.
        -- eexists; split; reflexivity.
Qed.

(** When every attempt fails in a retryable way, the budget is spent: one
    fetch per attempt up to [retry], and the last failure is raised. *)
Lemma loop_exhausts fuel : forall attempt last,
  attempt <= retry -> Z.of_nat fuel = retry + 1 - attempt ->
  (forall k, attempt <= k <= retry ->
     exists e, body k = inl e /\ nonNetwork e = false /\ isRetryableError e = true) ->
  exists e, body retry = inl e /\
            loop fuel attempt last = (attemptsTrace fuel attempt retryDelay, inl (giveUp reqId e)).
Proof.
  induction fuel as [| fuel IH]; intros attempt last Hle Hfuel Hall; [lia |].
  destruct (Hall attempt) as (e & Hb & Hn & Hr); [lia |].
  destruct (Z.eq_dec attempt retry) as [-> | Hne].
  - exists e. split; [exact Hb |].
    assert (fuel = O) by lia. subst fuel. unfold loop.
    assert (Hg : (retry <? retry) && isRetryableError e = false)
      by now rewrite Z.ltb_irrefl.
    now rewrite (loop_give_up rt reqId fetch unwrap retry retryDelay 0 retry last e
                   (Z.le_refl _) Hb Hn Hg).
  - destruct (IH (attempt + 1) (Some e)) as (e' & Hb' & Hloop); [lia | lia | |].
    { intros k Hk. apply Hall. lia. }
    exists e'. split; [exact Hb' |]. unfold loop in *.
    assert (Hlt : attempt < retry) by lia.
    rewrite (loop_retry rt reqId fetch unwrap retry retryDelay fuel attempt last e
               Hlt Hb Hn Hr).
    rewrite Hloop. cbn [fst snd].
    destruct fuel as [| fuel']; [lia | reflexivity].
Qed.

End Loop.

(** A 2xx response whose body is read, and is not [null], settles the call:
    with a payload or with a typed application error. *)
Lemma tryBody_ok_settles rt reqId unwrap r text j :
  ok r = true -> resp_text r = inr text -> resp_json r = inr j ->
  get_prop j "code" <> None ->
  (exists v, tryBody rt reqId unwrap (inr r) = inr v) \/
  (exists fe, tryBody rt reqId unwrap (inr r) = inl (ThrownFetchError fe) /\
              isNetworkError fe = false).
Proof.
  intros Hok Ht Hj Hc. unfold tryBody. rewrite Hok, Ht, Hj. cbn [negb].
  destruct (get_prop j "code") as [c |] eqn:Hcode; [| now destruct Hc].
  destruct (match resp_contentType r with
            | Some ct => negb (String.eqb ct "") && includes ct "application/json"
            | None => false
            end); cbn [negb].
  - destruct unwrap; [| left; eauto].
    destruct (ToBoolean j && negb (String.eqb (typeof j) "object"));
      [right; eexists; split; reflexivity |].
    destruct (isSuccessCode c); cbn [negb];
      [left; eauto | right; eexists; split; reflexivity].
  - destruct unwrap; left; eauto.
Qed.


(** X5.  Whenever a request fails, the error raised is a [FetchError] that
    carries the request id; the one exception is a cookie text that
    [decodeURIComponent] rejects while [withToken] is set, whose exception
    escapes as it is, before anything is fetched. *)
Theorem request_errors_are_typed rt reqId fetch document withToken url options e :
  snd (requestWithToken rt reqId fetch document withToken url options) = inl e ->
  (exists fe, e = ThrownFetchError fe /\ requestId fe = Some reqId) \/
  (exists x, e = ThrownExn x /\ withToken = true /\ document = Some (@inl Exn string x) /\
             fst (requestWithToken rt reqId fetch document withToken url options) = []).
Proof.
  assert (Hreq : snd (request rt reqId fetch url options) = inl e ->
                 exists fe, e = ThrownFetchError fe /\ requestId fe = Some reqId).
  { unfold request. destruct (String.eqb url "").
    - cbn. intros H. injection H as <-. eexists. split; reflexivity.
    - apply loop_errors_tagged. discriminate. }
  unfold requestWithToken.
  destruct (String.eqb url ""); [intros H; left; now apply Hreq |].
  destruct withToken; [| intros H; left; now apply Hreq].
  destruct document as [[x | cookie] |]; cbn [getTokenFromCookie].
  - cbn. intros H. injection H as <-. right. exists x. now repeat split.
  - intros H; left; now apply Hreq.
  - intros H; left; now apply Hreq.
Qed.

Lemma request_errors_are_typed_witness :
  snd (requestWithToken refRuntime "req_1" alwaysNotFound None false "/api/list" noOptions)
  = inl (ThrownFetchError
           (mkFetchError "请求错误: 404 Not Found" VUndefined (Some 404) (Some "req_1") false)) /\
  ((exists fe,
      ThrownFetchError
        (mkFetchError "请求错误: 404 Not Found" VUndefined (Some 404) (Some "req_1") false)
      = ThrownFetchError fe /\ requestId fe = Some "req_1") \/
   (exists x,
      ThrownFetchError
        (mkFetchError "请求错误: 404 Not Found" VUndefined (Some 404) (Some "req_1") false)
      = ThrownExn x /\ false = true /\ None = Some (@inl Exn string x) /\
      fst (requestWithToken refRuntime "req_1" alwaysNotFound None false "/api/list" noOptions)
      = [])).
Proof.
  split; [reflexivity |].
  apply (request_errors_are_typed refRuntime "req_1" alwaysNotFound None false
           "/api/list" noOptions). reflexivity.
Defined.

(** X6.  When every attempt up to [retry] is answered by a server error (a
    response that is neither 2xx nor 4xx), the request makes [retry + 1]
    fetches, pauses [retryDelay] between them, and raises the error of the
    last response, with its status and marked as a network error. *)
Theorem request_exhausts_budget rt reqId fetch url options :
  url <> "" ->
  let retry := withDefault (opt_retry options) defaultRetry in
  let retryDelay := withDefault (opt_retryDelay options) defaultRetryDelay in
  0 <= retry ->
  (forall k, 0 <= k <= retry -> exists r, fetch k = inr r /\ isServerError r = true) ->
  fst (request rt reqId fetch url options)
    = attemptsTrace (Z.to_nat (retry + 1)) 0 retryDelay /\
  exists r fe,
    fetch retry = inr r /\
    snd (request rt reqId fetch url options) = inl (ThrownFetchError fe) /\
    status fe = Some (resp_status r) /\ isNetworkError fe = true.
Proof.
  intros Hurl retry retryDelay Hretry Hall.
  rewrite (request_started rt reqId fetch url options Hurl). fold retry retryDelay.
  set (unwrap := withDefault (opt_unwrap options) true).
  destruct (loop_exhausts rt reqId fetch unwrap retry retryDelay
              (Z.to_nat (retry + 1)) 0 None) as (e & Hb & Hloop); [exact Hretry | lia | |].
  { intros k Hk. destruct (Hall k Hk) as (r & Hf & Hs).
    destruct (tryBody_server_error rt reqId unwrap r Hs) as (fe & Hbody & _ & Hnet).
    exists (ThrownFetchError fe). rewrite Hf. split; [exact Hbody |].
    cbn. now rewrite Hnet. }
  rewrite Hloop. split; [reflexivity |].
  destruct (Hall retry) as (r & Hf & Hs); [lia |].
  destruct (tryBody_server_error rt reqId unwrap r Hs) as (fe & Hbody & Hst & Hnet).
  rewrite Hf, Hbody in Hb. injection Hb as <-.
  exists r, fe. now repeat split.
Qed.

Lemma request_exhausts_budget_witness :
  "/api/list" <> "" /\
  0 <= withDefault (opt_retry noOptions) defaultRetry /\
  fst (request refRuntime "req_1" alwaysUnavailable "/api/list" noOptions)
  = [Fetched 0; Slept 1000; Fetched 1; Slept 1000; Fetched 2; Slept 1000; Fetched 3].
Proof.
  assert (Hurl : "/api/list" <> "") by discriminate.
  assert (Hretry : 0 <= withDefault (opt_retry noOptions) defaultRetry) by discriminate.
  split; [exact Hurl |]. split; [exact Hretry |].
  apply (request_exhausts_budget refRuntime "req_1" alwaysUnavailable "/api/list" noOptions
           Hurl Hretry).
  intros k _. exists (plain 503 "Service Unavailable"). split; reflexivity.
Defined.

(** X7.  With a negative [retry] the loop body never runs: nothing is
    fetched and the request fails with the catch-all error of the end of
    [request], marked as a network error. *)
Theorem request_negative_budget rt reqId fetch url options :
  url <> "" ->
  withDefault (opt_retry options) defaultRetry < 0 ->
  request rt reqId fetch url options
  = ([], inl (ThrownFetchError
                (mkFetchError "请求失败" VUndefined None (Some reqId) true))).
Proof.
  intros Hurl Hneg. rewrite (request_started rt reqId fetch url options Hurl).
  replace (Z.to_nat (withDefault (opt_retry options) defaultRetry + 1)) with O by lia.
  reflexivity.
Qed.

Lemma request_negative_budget_witness :
  "/api/list" <> "" /\
  withDefault (opt_retry (mkFetchOptions None (Some (-1)) None)) defaultRetry < 0 /\
  request refRuntime "req_1" alwaysNotFound "/api/list" (mkFetchOptions None (Some (-1)) None)
  = ([], inl (ThrownFetchError
                (mkFetchError "请求失败" VUndefined None (Some "req_1") true))).
Proof.
  assert (Hurl : "/api/list" <> "") by discriminate.
  assert (Hneg : withDefault (opt_retry (mkFetchOptions None (Some (-1)) None)) defaultRetry < 0)
    by reflexivity.
  split; [exact Hurl |]. split; [exact Hneg |].
  apply (request_negative_budget refRuntime "req_1" alwaysNotFound "/api/list"
           (mkFetchOptions None (Some (-1)) None) Hurl Hneg).
Defined.

(** X8.  When every attempt is aborted, the request fails with the timeout
    error, which is not marked as a network error; the attempt is repeated
    only if the message of the abort holds one of the markers
    [isRetryableError] looks for, and otherwise exactly one fetch is made. *)
Theorem request_aborted_is_timeout rt reqId fetch url options msg :
  url <> "" ->
  let retry := withDefault (opt_retry options) defaultRetry in
  let retryDelay := withDefault (opt_retryDelay options) defaultRetryDelay in
  0 <= retry ->
  (forall k, fetch k = inl (Error "AbortError" msg)) ->
  snd (request rt reqId fetch url options)
    = inl (ThrownFetchError (mkFetchError "请求超时" VUndefined None (Some reqId) false)) /\
  fst (request rt reqId fetch url options)
    = if isRetryableError (ThrownExn (Error "AbortError" msg))
      then attemptsTrace (Z.to_nat (retry + 1)) 0 retryDelay
      else [Fetched 0].
Proof.
  intros Hurl retry retryDelay Hretry Hall.
  rewrite (request_started rt reqId fetch url options Hurl). fold retry retryDelay.
  set (unwrap := withDefault (opt_unwrap options) true).
  set (err := ThrownExn (Error "AbortError" msg)).
  assert (Hb : forall k, tryBody rt reqId unwrap (fetch k) = inl err).
  { intros k. now rewrite Hall. }
  destruct (isRetryableError err) eqn:Hr.
  - destruct (loop_exhausts rt reqId fetch unwrap retry retryDelay
                (Z.to_nat (retry + 1)) 0 None) as (e & Hbe & Hloop);
      [exact Hretry | lia | |].
    { intros k _. exists err. now repeat split. }
    rewrite Hb in Hbe. injection Hbe as <-. rewrite Hloop. now split.
  - replace (Z.to_nat (retry + 1)) with (S (Z.to_nat retry)) by lia.
    assert (Hg : (0 <? retry) && isRetryableError err = false)
      by (rewrite Hr; apply andb_false_r).
    rewrite (loop_give_up rt reqId fetch unwrap retry retryDelay _ 0 None err
               Hretry (Hb 0) eq_refl Hg).
    now split.
Qed.

Lemma request_aborted_is_timeout_witness :
  "/api/list" <> "" /\
  0 <= withDefault (opt_retry noOptions) defaultRetry /\
  (forall k, alwaysAborted k = inl (Error "AbortError" "signal is aborted without reason")) /\
  fst (request refRuntime "req_1" alwaysAborted "/api/list" noOptions) = [Fetched 0].
Proof.
  assert (Hurl : "/api/list" <> "") by discriminate.
  assert (Hretry : 0 <= withDefault (opt_retry noOptions) defaultRetry) by discriminate.
  assert (Hall : forall k, alwaysAborted k
                           = inl (Error "AbortError" "signal is aborted without reason"))
    by reflexivity.
  split; [exact Hurl |]. split; [exact Hretry |]. split; [exact Hall |].
  apply (request_aborted_is_timeout refRuntime "req_1" alwaysAborted "/api/list" noOptions
           "signal is aborted without reason" Hurl Hretry Hall).
Defined.

(** X9.  A 2xx response whose body can be read and is not [null] settles the
    call, with a payload or with a typed error: no further attempt follows
    it. *)
Theorem request_2xx_is_final rt reqId fetch url options k r text j :
  url <> "" -> 0 <= k ->
  fetch k = inr r -> ok r = true ->
  resp_text r = inr text -> resp_json r = inr j -> get_prop j "code" <> None ->
  ~ In (Fetched (k + 1)) (fst (request rt reqId fetch url options)).
Proof.
  intros Hurl Hk Hf Hok Ht Hj Hc Hin.
  rewrite (request_started rt reqId fetch url options Hurl) in Hin.
  destruct (loop_retry_only rt reqId fetch _ _ _ _ 0 None k Hk Hin)
    as (e & Hb & Hn & Hr & _).
  rewrite Hf in Hb.
  destruct (tryBody_ok_settles rt reqId (withDefault (opt_unwrap options) true)
              r text j Hok Ht Hj Hc) as [[v Hv] | (fe & Hfe & Hnet)].
  - rewrite Hv in Hb. discriminate.
  - rewrite Hfe in Hb. injection Hb as <-. cbn in Hn. rewrite Hnet in Hn. discriminate.
Qed.

Lemma request_2xx_is_final_witness :
  "/api/list" <> "" /\ 0 <= 2 /\
  ~ In (Fetched (2 + 1))
       (fst (request refRuntime "req_1" (twoFailuresThenSuccess (VString "payload"))
               "/api/list" noOptions)).
Proof.
  assert (Hurl : "/api/list" <> "") by discriminate.
  assert (Hk : 0 <= 2) by discriminate.
  split; [exact Hurl |]. split; [exact Hk |].
  apply (request_2xx_is_final refRuntime "req_1" (twoFailuresThenSuccess (VString "payload"))
           "/api/list" noOptions 2
           (envelope 200 (VNumber (number_of_Z 200)) "ok" (VString "payload")) ""
           (VObject [("code", VNumber (number_of_Z 200)); ("msg", VString "ok");
                     ("data", VString "payload")])
           Hurl Hk eq_refl eq_refl eq_refl eq_refl).
  discriminate.
Defined.

End ClientMore.

(** ** The page, continued *)

Section PageMore.
Import Js DispatchPage Props More.

Ltac run_page :=
  unfold exec, loadData, handleTableRefresh, unmount, loadFactoryInfo,
    try_catch, try_catch_finally, bind, ret, await, when,
    setOrders, setAlerts, setSummary, setPendingWithReceiptCount, setLoading,
    setLastUpdateTime, setFactoryName, setFactoryCode, writeTimerRef, readTimerRef,
    bumpTableRefreshKey, bumpTrendsRefreshKey,
    setInterval, clearInterval, console_error, modifyPage.

(** What a run of [loadData] leaves alone, and how it ends. *)
Lemma loadData_frame rt env w :
  let w' := exec (loadData rt env) w in
  fst (loadData rt env w) = inr tt /\
  loading (page w') = false /\
  factoryName (page w') = factoryName (page w) /\
  factoryCode (page w') = factoryCode (page w) /\
  tableRefreshKey (page w') = tableRefreshKey (page w) /\
  trendsRefreshKey (page w') = trendsRefreshKey (page w).
Proof.
  intros w'. subst w'.
  destruct (fetchDispatchBoard env (loadDataParams (Date_now env))) as [e | result] eqn:Ha.
  - unfold exec. rewrite (loadData_failure rt env w e Ha). cbn. now repeat split.
  - run_page. cbn. rewrite Ha. cbn. rewrite hasData_length.
    destruct (content result); cbn; destruct (truthyHandle (refreshTimerRef (page w)));
      cbn; now repeat split.
Qed.

Lemma loadFactoryInfo_frame rt ps envCode api w :
  let w' := exec (loadFactoryInfo rt ps envCode api) w in
  fst (loadFactoryInfo rt ps envCode api w) = inr tt /\
  tableRefreshKey (page w') = tableRefreshKey (page w) /\
  trendsRefreshKey (page w') = trendsRefreshKey (page w) /\
  dataSlices (page w') = dataSlices (page w) /\
  loading (page w') = loading (page w).
Proof.
  intros w'. subst w'. run_page. cbn.
  destruct (api (resolveFactoryCode ps envCode)) as [e | res]; cbn; [now repeat split |].
  match goal with |- context [get_prop ?i ?k] => destruct (get_prop i k) end;
    cbn; now repeat split.
Qed.

Lemma unmount_frame w : page (exec unmount w) = page w.
Proof.
  run_page. cbn. now destruct (truthyHandle (refreshTimerRef (page w))).
Qed.

(** X10.  [loadData], [handleTableRefresh] and [loadFactoryInfo] never reject:
    whatever the backend answers, the failure is logged and swallowed; and
    the loading flag is down after [loadData] and [handleTableRefresh]. *)
Theorem loaders_never_reject rt env ps envCode api w :
  fst (loadData rt env w) = inr tt /\
  fst (handleTableRefresh rt env w) = inr tt /\
  fst (loadFactoryInfo rt ps envCode api w) = inr tt /\
  loading (page (exec (loadData rt env) w)) = false /\
  loading (page (exec (handleTableRefresh rt env) w)) = false.
Proof.
  set (w1 := exec (bumpTrendsRefreshKey) (exec bumpTableRefreshKey w)).
  assert (E : handleTableRefresh rt env w = loadData rt env w1) by reflexivity.
  destruct (loadData_frame rt env w) as (H1 & H2 & _).
  destruct (loadData_frame rt env w1) as (H3 & H4 & _).
  destruct (loadFactoryInfo_frame rt ps envCode api w) as (H5 & _).
  unfold exec in *. rewrite E. now repeat split.
Qed.

(** X11.  A successful [loadData] replaces the orders, the summary, the
    alerts, the pending-with-receipt count and the update time wholesale:
    they depend on the answer only, not on what the page held before;
    the factory name and code, the two refresh keys and the console are
    left as they were. *)
Theorem loadData_replaces_data rt env w1 w2 result :
  fetchDispatchBoard env (loadDataParams (Date_now env)) = inr result ->
  let p1 := page (exec (loadData rt env) w1) in
  let p2 := page (exec (loadData rt env) w2) in
  dataSlices p1 = dataSlices p2 /\
  factoryName p1 = factoryName (page w1) /\
  factoryCode p1 = factoryCode (page w1) /\
  tableRefreshKey p1 = tableRefreshKey (page w1) /\
  trendsRefreshKey p1 = trendsRefreshKey (page w1) /\
  console (exec (loadData rt env) w1) = console w1.
Proof.
  intros Ha p1 p2.
  destruct (loadData_success_page rt env w1 result Ha) as (A1 & A2 & A3 & A4 & A5 & _).
  destruct (loadData_success_page rt env w2 result Ha) as (B1 & B2 & B3 & B4 & B5 & _).
  destruct (loadData_frame rt env w1) as (_ & _ & F1 & F2 & F3 & F4).
  split.
  - unfold dataSlices, p1, p2. now rewrite A1, A2, A3, A4, A5, B1, B2, B3, B4, B5.
  - repeat split; trivial.
    run_page. cbn. rewrite Ha. cbn. rewrite hasData_length.
    destruct (content result); cbn; destruct (truthyHandle (refreshTimerRef (page w1)));
      reflexivity.
Qed.

Lemma loadData_replaces_data_witness :
  dataSlices (page (exec (loadData refRuntime (envWith scenarioB)) initialWorld))
  = dataSlices (page (exec (loadData refRuntime (envWith scenarioB))
                        (exec (loadData refRuntime (envWith [])) initialWorld))).
Proof.
  apply (loadData_replaces_data refRuntime (envWith scenarioB) initialWorld
           (exec (loadData refRuntime (envWith [])) initialWorld)
           (mkFetchResult scenarioB 3)).
  reflexivity.
Defined.

(** *** Counting *)

Lemma countIf_le_length {A} (p : A -> bool) (l : list A) :
  (countIf p l <= List.length l)%nat.
Proof.
  induction l as [| x l IH]; cbn; [lia |]. destruct (p x); lia.
Qed.

Lemma countIf_mono {A} (p q : A -> bool) (l : list A) :
  (forall x, p x = true -> q x = true) -> (countIf p l <= countIf q l)%nat.
Proof.
  intros Hpq. induction l as [| x l IH]; cbn; [lia |].
  destruct (p x) eqn:Hp.
  - rewrite (Hpq x Hp). lia.
  - destruct (q x); lia.
Qed.

Lemma countIf_disjoint {A} (p q : A -> bool) (l : list A) :
  (forall x, p x = true -> q x = false) ->
  (countIf p l + countIf q l <= List.length l)%nat.
Proof.
  intros Hpq. induction l as [| x l IH]; cbn; [lia |].
  destruct (p x) eqn:Hp.
  - rewrite (Hpq x Hp). lia.
  - destruct (q x); lia.
Qed.

(** X12.  After a successful [loadData] the figures bound one another: the
    total is the number of orders shown; delivered lies between 0 and the
    total and pending is their difference; delayed orders and receipts are
    disjoint, so their sum is at most the total; the pending-with-receipt
    count is at most the receipts and at most the pending count. *)
Theorem summary_figures_bounds rt env w result :
  fetchDispatchBoard env (loadDataParams (Date_now env)) = inr result ->
  let p' := page (exec (loadData rt env) w) in
  let s := summary p' in
  totalCount s = Z.of_nat (List.length (orders p')) /\
  0 <= deliveredCount s <= totalCount s /\
  pendingCount s = totalCount s - deliveredCount s /\
  0 <= pendingCount s /\
  0 <= receiptCount s /\
  0 <= delayedCount s /\
  delayedCount s + receiptCount s <= totalCount s /\
  0 <= pendingWithReceiptCount p' <= receiptCount s /\
  pendingWithReceiptCount p' <= pendingCount s.
Proof.
  intros Ha p' s.
  destruct (loadData_success_page rt env w result Ha) as (Ho & _ & Hs & Hp & _).
  fold p' in Ho, Hs, Hp. subst s. rewrite Hs, Hp, Ho. cbn.
  unfold transformOrders. rewrite length_map.
  set (records := content result).
  pose proof (countIf_le_length (fun r => ToBoolean (isDelivered r)) records) as H1.
  pose proof (countIf_disjoint isDelayedWithoutReceipt
                (fun r => ToBoolean (hasReceipt r)) records) as H2.
  pose proof (countIf_mono
                (fun r => ToBoolean (hasReceipt r) && isFalse (isDelivered r))
                (fun r => ToBoolean (hasReceipt r)) records) as H3.
  pose proof (countIf_disjoint
                (fun r => ToBoolean (hasReceipt r) && isFalse (isDelivered r))
                (fun r => ToBoolean (isDelivered r)) records) as H4.
  assert (G2 : (countIf isDelayedWithoutReceipt records
                + countIf (fun r => ToBoolean (hasReceipt r)) records
                <= List.length records)%nat).
  { apply H2. intros r Hr. apply isDelayedWithoutReceipt_spec in Hr. tauto. }
  assert (G3 : (countIf (fun r => ToBoolean (hasReceipt r) && isFalse (isDelivered r)) records
                <= countIf (fun r => ToBoolean (hasReceipt r)) records)%nat).
  { apply H3. intros r Hr. apply andb_true_iff in Hr. tauto. }
  assert (G4 : (countIf (fun r => ToBoolean (hasReceipt r) && isFalse (isDelivered r)) records
                + countIf (fun r => ToBoolean (isDelivered r)) records
                <= List.length records)%nat).
  { apply H4. intros r Hr. apply andb_true_iff in Hr. destruct Hr as [_ Hr].
    apply isFalse_spec in Hr. now rewrite Hr. }
  repeat split; lia.
Qed.

Lemma summary_figures_bounds_witness :
  let s := summary (page (exec (loadData refRuntime (envWith scenarioB)) initialWorld)) in
  delayedCount s + receiptCount s <= totalCount s.
Proof.
  apply (summary_figures_bounds refRuntime (envWith scenarioB) initialWorld
           (mkFetchResult scenarioB 3)).
  reflexivity.
Defined.

Lemma firstn_incl {A} (n : nat) (l : list A) (x : A) : In x (firstn n l) -> In x l.
Proof.
  intros H. rewrite <- (firstn_skipn n l). apply in_or_app. now left.
Qed.

(** X13.  After a successful [loadData] the banner holds [min 8 delayedCount]
    alerts and is rendered if and only if the delayed count of the summary
    is not 0; every alert repeats the id and the time of an order of the
    table that has high risk and no receipt. *)
Theorem alerts_match_table rt env w result :
  fetchDispatchBoard env (loadDataParams (Date_now env)) = inr result ->
  let p' := page (exec (loadData rt env) w) in
  Z.of_nat (List.length (alerts p')) = Z.min 8 (delayedCount (summary p')) /\
  (AlertBanner (alerts p') = None <-> delayedCount (summary p') = 0) /\
  (forall a, In a (alerts p') ->
     exists o, In o (orders p') /\
               alert_id a = id o /\ alert_timestamp a = requestTime o /\
               risk o = high /\ hasReturn o = VBoolean false).
Proof.
  intros Ha p'.
  destruct (loadData_success_page rt env w result Ha) as (Ho & Hal & Hs & _).
  fold p' in Ho, Hal, Hs. rewrite Ho, Hal, Hs. cbn [delayedCount].
  set (records := content result).
  assert (E : transformAlerts rt records
              = map (toAlert rt) (firstn 8 (filter isDelayedWithoutReceipt records))).
  { unfold transformAlerts. now rewrite (slice_from_start _ 8). }
  assert (Hlen : List.length (transformAlerts rt records)
                 = Nat.min 8 (countIf isDelayedWithoutReceipt records)).
  { rewrite E, length_map, length_firstn, length_filter_countIf. reflexivity. }
  split; [rewrite Hlen; lia |]. split.
  - unfold AlertBanner. rewrite Hlen.
    destruct (Nat.eqb_spec (Nat.min 8 (countIf isDelayedWithoutReceipt records)) 0);
      split; intros H; try discriminate; try reflexivity; lia.
  - intros a Hin. rewrite E in Hin. apply in_map_iff in Hin.
    destruct Hin as (r & <- & Hr). apply firstn_incl, filter_In in Hr.
    destruct Hr as [Hr Hd]. apply isDelayedWithoutReceipt_spec in Hd.
    destruct Hd as [Hflag Hrec].
    exists (toOrder rt r). split; [now apply in_map |].
    cbn. rewrite Hflag. cbn. repeat split.
    unfold or_else. now rewrite Hrec.
Qed.

Lemma alerts_match_table_witness :
  let p' := page (exec (loadData refRuntime (envWith scenarioB)) initialWorld) in
  Z.of_nat (List.length (alerts p')) = Z.min 8 (delayedCount (summary p')).
Proof.
  apply (alerts_match_table refRuntime (envWith scenarioB) initialWorld
           (mkFetchResult scenarioB 3)).
  reflexivity.
Defined.

(** X14.  In every state the page can reach, the refresh keys of the table
    and of the chart are equal and not negative, and [handleTableRefresh]
    adds exactly 1 to each, whether its fetch succeeds or not. *)
Theorem refresh_keys_in_step rt w :
  reachable rt w ->
  tableRefreshKey (page w) = trendsRefreshKey (page w) /\
  0 <= tableRefreshKey (page w) /\
  forall env,
    tableRefreshKey (page (exec (handleTableRefresh rt env) w)) = tableRefreshKey (page w) + 1 /\
    trendsRefreshKey (page (exec (handleTableRefresh rt env) w)) = trendsRefreshKey (page w) + 1.
Proof.
  assert (Hrefresh : forall env w0,
            tableRefreshKey (page (exec (handleTableRefresh rt env) w0))
              = tableRefreshKey (page w0) + 1 /\
            trendsRefreshKey (page (exec (handleTableRefresh rt env) w0))
              = trendsRefreshKey (page w0) + 1).
  { intros env w0.
    set (w1 := exec (bumpTrendsRefreshKey) (exec bumpTableRefreshKey w0)).
    assert (E : exec (handleTableRefresh rt env) w0 = exec (loadData rt env) w1)
      by reflexivity.
    destruct (loadData_frame rt env w1) as (_ & _ & _ & _ & F3 & F4).
    rewrite E, F3, F4. now split. }
  intros Hreach. split; [| split]; [| | intros env; apply Hrefresh].
  - induction Hreach as [| w _ IH | w env _ IH | w env _ IH | w ps envCode api _ IH | w _ IH].
    + reflexivity.
    + exact IH.
    + destruct (loadData_frame rt env w) as (_ & _ & _ & _ & F3 & F4). congruence.
    + destruct (Hrefresh env w) as [F3 F4]. congruence.
    + destruct (loadFactoryInfo_frame rt ps envCode api w) as (_ & F3 & F4 & _). congruence.
    + now rewrite unmount_frame.
  - induction Hreach as [| w _ IH | w env _ IH | w env _ IH | w ps envCode api _ IH | w _ IH].
    + discriminate.
    + exact IH.
    + destruct (loadData_frame rt env w) as (_ & _ & _ & _ & F3 & F4). now rewrite F3.
    + destruct (Hrefresh env w) as [F3 F4]. rewrite F3. lia.
    + destruct (loadFactoryInfo_frame rt ps envCode api w) as (_ & F3 & F4 & _).
      now rewrite F3.
    + now rewrite unmount_frame.
Qed.

Lemma refresh_keys_in_step_witness :
  tableRefreshKey (page (exec (handleTableRefresh refRuntime envFailing) initialWorld)) = 1 /\
  trendsRefreshKey (page (exec (handleTableRefresh refRuntime envFailing) initialWorld)) = 1.
Proof.
  apply (refresh_keys_in_step refRuntime initialWorld (reach_init refRuntime)).
Defined.

(** X15.  Unmounting the page from any state it can reach leaves no interval
    timer armed and changes nothing else of the page; but a fetch that
    settles after the unmount with an empty list arms the polling timer
    again. *)
Theorem unmount_clears_timer rt w :
  reachable rt w ->
  intervals (exec unmount w) = [] /\
  page (exec unmount w) = page w /\
  forall env result,
    fetchDispatchBoard env (loadDataParams (Date_now env)) = inr result ->
    content result = [] ->
    armed (exec (loadData rt env) (exec unmount w)).
Proof.
  intros Hreach. pose proof (reachable_timerInv rt w Hreach) as Hinv.
  split; [| split; [apply unmount_frame |]].
  - destruct Hinv as [Hn [Hnz Hi]]. run_page. cbn.
    destruct Hi as [Hi | [h [Hi Hr]]].
    + destruct (truthyHandle (refreshTimerRef (page w))); cbn; rewrite Hi; reflexivity.
    + rewrite Hr, (truthyHandle_Some h (Hnz h Hr)). cbn. rewrite Hi. cbn.
      now rewrite Z.eqb_refl.
  - intros env result Ha Hc.
    pose proof (unmount_keeps_timerInv w Hinv) as Hinv'.
    destruct (loadData_success_timer rt env (exec unmount w) result Hinv' Ha) as [Hempty _].
    destruct (Hempty Hc) as (Hi & Hr & _). eexists. split; eassumption.
Qed.

Lemma unmount_clears_timer_witness :
  intervals (exec unmount (exec (loadData refRuntime (envWith [])) initialWorld)) = [] /\
  armed (exec (loadData refRuntime (envWith []))
           (exec unmount (exec (loadData refRuntime (envWith [])) initialWorld))).
Proof.
  destruct (unmount_clears_timer refRuntime
              (exec (loadData refRuntime (envWith [])) initialWorld)
              (reach_loadData refRuntime _ _ (reach_init refRuntime))) as (H1 & _ & H2).
  split; [exact H1 |].
  apply (H2 (envWith []) (mkFetchResult [] 0)); reflexivity.
Defined.

(** X16.  [transformOrders] yields one order per record, in order; no order
    has the status [delayed] or the risk [low]; the risk is [high] exactly
    for the flag ['DELAYED'] and [medium] exactly for ['AT_RISK']; type,
    receiver and request time are never empty. *)
Theorem orders_shown_values rt records :
  List.length (transformOrders rt records) = List.length records /\
  forall r, In r records ->
    In (toOrder rt r) (transformOrders rt records) /\
    status (toOrder rt r) <> delayed /\
    risk (toOrder rt r) <> low /\
    (risk (toOrder rt r) = high <-> riskFlag r = Some "DELAYED") /\
    (risk (toOrder rt r) = medium <-> riskFlag r = Some "AT_RISK") /\
    type (toOrder rt r) <> "" /\ receiver (toOrder rt r) <> "" /\
    requestTime (toOrder rt r) <> "".
Proof.
  split; [apply length_map |].
  intros r Hin. split; [now apply in_map |].
  assert (Hor : forall o, orString o "-" <> "").
  { intros [s |]; cbn; [| discriminate].
    destruct (String.eqb_spec s ""); [discriminate | assumption]. }
  cbn. repeat split; trivial.
  - unfold getOrderStatus.
    destruct (isDelivered r) as [| | [|] | x | s | fs]; cbn; try discriminate;
      match goal with |- (if ?c then _ else _) <> _ => destruct c; discriminate end.
  - unfold getRiskLevel. destruct (riskFlag r) as [f |]; [| discriminate].
    destruct (String.eqb f "DELAYED"); [discriminate |].
    destruct (String.eqb f "AT_RISK"); [discriminate |].
    destruct (String.eqb f "DELIVERED" || String.eqb f "ON_TIME"); discriminate.
  - unfold getRiskLevel. destruct (riskFlag r) as [f |]; [| discriminate].
    destruct (String.eqb_spec f "DELAYED") as [-> | N]; [reflexivity |].
    destruct (String.eqb f "AT_RISK"); [discriminate |].
    destruct (String.eqb f "DELIVERED" || String.eqb f "ON_TIME"); discriminate.
  - intros H. unfold getRiskLevel. rewrite H. reflexivity.
  - unfold getRiskLevel. destruct (riskFlag r) as [f |]; [| discriminate].
    destruct (String.eqb_spec f "DELAYED") as [-> | N]; [discriminate |].
    destruct (String.eqb_spec f "AT_RISK") as [-> | N2]; [reflexivity |].
    destruct (String.eqb f "DELIVERED" || String.eqb f "ON_TIME"); discriminate.
  - intros H. unfold getRiskLevel. rewrite H. reflexivity.
  - unfold formatTime. destruct (lastRecRequireTime r) as [s |]; [| discriminate].
    destruct (String.eqb s ""); [discriminate |].
    match goal with |- (?a ++ ":" ++ ?b)%string <> _ => destruct a; discriminate end.
Qed.

End PageMore.

(** ** The fetch of the list, the clock time and the receipt banner *)

Section ApiFacts.
Import Js DispatchPage Props More.

(** X17.  The variant of [fetchDispatchBoard] built on [fetch] never looks at
    the code of the envelope: a 2xx answer whose envelope has no data,
    whatever its code and message, is a success with an empty page, logs
    nothing, and [loadData] then clears the board (no order, no alert, all
    summary figures 0), stamps the update time and arms the polling
    timer. *)
Theorem envelope_without_data_empties_board rt now nowTime w status envelope :
  reachable rt w ->
  200 <= status <= 299 ->
  match envelope with Some e => Api.env_data e | None => None end = None ->
  let outcome := inr (Api.mkRawResponse status (inr envelope)) in
  let w' := exec (loadData rt (Api.envOfRaw now outcome nowTime)) w in
  fst (Api.fetchDispatchBoard_fetch outcome) = [] /\
  orders (page w') = [] /\
  alerts (page w') = [] /\
  summary (page w') = mkSummary 0 0 0 0 0 /\
  pendingWithReceiptCount (page w') = 0 /\
  lastUpdateTime (page w') = nowTime /\
  console w' = console w /\
  armed w'.
Proof.
  intros Hreach Hst Hdata outcome w'.
  set (env := Api.envOfRaw now outcome nowTime).
  assert (Hok : Api.raw_ok (Api.mkRawResponse status (inr envelope)) = true).
  { unfold Api.raw_ok. cbn. apply andb_true_iff. split; apply Z.leb_le; lia. }
  assert (Hfetch : Api.fetchDispatchBoard_fetch outcome
                   = ([], inr (Api.mkFetchResult [] 0 0 0 0 0))).
  { unfold Api.fetchDispatchBoard_fetch, outcome. rewrite Hok. cbn. now rewrite Hdata. }
  assert (Ha : fetchDispatchBoard env (loadDataParams (Date_now env))
               = inr (mkFetchResult [] 0)).
  { cbn. now rewrite Hfetch. }
  destruct (loadData_success_page rt env w _ Ha) as (Ho & Hal & Hs & Hp & Ht & _).
  destruct (loadData_success_timer rt env w _ (reachable_timerInv rt w Hreach) Ha)
    as [Hempty _].
  destruct (Hempty eq_refl) as (Hi & Hr & _).
  fold w' in Ho, Hal, Hs, Hp, Ht, Hi, Hr.
  rewrite Hfetch. repeat split; trivial.
  - subst w'. unfold exec, loadData, try_catch_finally, bind, ret, await, when,
      setOrders, setAlerts, setSummary, setPendingWithReceiptCount, setLoading,
      setLastUpdateTime, writeTimerRef, readTimerRef, setInterval, clearInterval,
      console_error, modifyPage.
    cbn. rewrite Hfetch. cbn.
    now destruct (truthyHandle (refreshTimerRef (page w))).
  - eexists. split; eassumption.
Qed.

Lemma envelope_without_data_empties_board_witness :
  let w := exec (loadData refRuntime (envWith scenarioB)) initialWorld in
  let w' := exec (loadData refRuntime (Api.envOfRaw 1709280000000 errorEnvelope "16:05:00")) w in
  orders (page w) <> [] /\ orders (page w') = [] /\ armed w'.
Proof.
  intros w w'. split; [discriminate |].
  assert (Hreach : reachable refRuntime w)
    by apply (reach_loadData refRuntime _ _ (reach_init refRuntime)).
  assert (Hst : 200 <= 200 <= 299) by lia.
  destruct (envelope_without_data_empties_board refRuntime 1709280000000 "16:05:00" w 200
              (Some (Api.mkEnvelope (VNumber (number_of_Z 500)) "internal error" None))
              Hreach Hst eq_refl) as (_ & Ho & _ & _ & _ & _ & _ & Harmed).
  split; [exact Ho | exact Harmed].
Defined.

(** X18.  An answer whose status is outside 200..299 makes the variant built
    on [fetch] log one line and raise [HTTP error! status: <status>]
    without reading the body; [loadData] then logs its own line, lowers the
    loading flag and leaves the data and the timers as they were. *)
Theorem http_error_keeps_board rt now nowTime w status json :
  ~ (200 <= status <= 299) ->
  let outcome := inr (Api.mkRawResponse status json) in
  let w' := exec (loadData rt (Api.envOfRaw now outcome nowTime)) w in
  Api.fetchDispatchBoard_fetch outcome
    = (["获取看板数据失败:"],
       inl (FetchHttp.ThrownExn
              (Error "Error" ("HTTP error! status: " ++ Z_toString status)))) /\
  dataSlices (page w') = dataSlices (page w) /\
  intervals w' = intervals w /\
  loading (page w') = false /\
  console w' = (console w ++ ["加载数据失败:"])%list.
Proof.
  intros Hst outcome w'.
  set (env := Api.envOfRaw now outcome nowTime).
  assert (Hok : Api.raw_ok (Api.mkRawResponse status json) = false).
  { unfold Api.raw_ok. cbn. apply andb_false_iff.
    destruct (Z.leb_spec 200 status); [right; apply Z.leb_gt; lia | now left]. }
  assert (Hfetch : Api.fetchDispatchBoard_fetch outcome
                   = (["获取看板数据失败:"],
                      inl (FetchHttp.ThrownExn
                             (Error "Error" ("HTTP error! status: " ++ Z_toString status))))).
  { unfold Api.fetchDispatchBoard_fetch, outcome. now rewrite Hok. }
  split; [exact Hfetch |].
  assert (Ha : fetchDispatchBoard env (loadDataParams (Date_now env))
               = inl (FetchHttp.ThrownExn
                        (Error "Error" ("HTTP error! status: " ++ Z_toString status)))).
  { cbn. now rewrite Hfetch. }
  subst w'. unfold exec. fold env. rewrite (loadData_failure rt env w _ Ha). cbn.
  now repeat split.
Qed.

Lemma http_error_keeps_board_witness :
  let w := exec (loadData refRuntime (envWith scenarioB)) initialWorld in
  let outcome := inr (Api.mkRawResponse 502 (inr None)) in
  dataSlices (page (exec (loadData refRuntime (Api.envOfRaw 1709280000000 outcome "16:05:00")) w))
  = dataSlices (page w).
Proof.
  intros w outcome.
  assert (Hst : ~ (200 <= 502 <= 299)) by lia.
  apply (http_error_keeps_board refRuntime 1709280000000 "16:05:00" w 502 (inr None) Hst).
Defined.

(** X19.  For a non-empty timestamp that [Date.parse] reads, [formatTime]
    prints the local hour and minute, each on two digits: five characters
    [HH:MM] with [HH] in 00..23 and [MM] in 00..59, never the placeholder;
    the date and the seconds are dropped. *)
Theorem formatTime_local_clock rt s t :
  s <> "" -> Date_parse rt s = Some t ->
  let local := t + LocalTZA rt t in
  let h := (local / 3600000) mod 24 in
  let m := (local / 60000) mod 60 in
  formatTime rt (Some s) = (twoDigits h ++ ":" ++ twoDigits m)%string /\
  0 <= h <= 23 /\ 0 <= m <= 59 /\
  String.length (formatTime rt (Some s)) = 5%nat /\
  formatTime rt (Some s) <> "-".
Proof.
  intros Hs Hp local h m.
  pose proof (formatTime_parsed rt s t Hs Hp) as E. fold local h m in E.
  pose proof (Z.mod_pos_bound (local / 3600000) 24 eq_refl) as Hh.
  pose proof (Z.mod_pos_bound (local / 60000) 60 eq_refl) as Hm.
  fold h in Hh. fold m in Hm.
  split; [exact E |]. split; [lia |]. split; [lia |].
  split; [now rewrite E |]. rewrite E. discriminate.
Qed.

Lemma formatTime_local_clock_witness :
  formatTime refRuntime (Some "2024-03-01T08:05:59") = "08:05".
Proof.
  assert (Hs : "2024-03-01T08:05:59" <> "") by discriminate.
  assert (Hp : Date_parse refRuntime "2024-03-01T08:05:59" = Some 1709280359000)
    by (vm_compute; reflexivity).
  destruct (formatTime_local_clock refRuntime "2024-03-01T08:05:59" 1709280359000 Hs Hp)
    as [E _].
  rewrite E. vm_compute. reflexivity.
Defined.

(** X20.  When the receipt banner is rendered after a successful [loadData],
    it shows the receipt and delivered counts of the summary and
    [max 0 (receipts - delivered)] orders gone off-system, a figure between
    0 and the receipts; the pending line, when present, shows the
    pending-with-receipt count, positive and at most the receipts; the
    banner without that line has a positive off-system figure, while the
    off-system figure 0 means that the receipts do not exceed the
    deliveries although the banner's line says they do. *)
Theorem receipt_banner_figures rt env w result :
  fetchDispatchBoard env (loadDataParams (Date_now env)) = inr result ->
  let p' := page (exec (loadData rt env) w) in
  forall v, renderReceiptWarning p' = Some v ->
    shownReceiptCount v = receiptCount (summary p') /\
    shownDeliveredCount v = deliveredCount (summary p') /\
    shownOffSystemCount v = Z.max 0 (shownReceiptCount v - shownDeliveredCount v) /\
    0 <= shownOffSystemCount v <= shownReceiptCount v /\
    (pendingLine v = None -> 0 < shownOffSystemCount v) /\
    (forall n, pendingLine v = Some n ->
       n = pendingWithReceiptCount p' /\ 0 < n <= shownReceiptCount v) /\
    (shownOffSystemCount v = 0 -> shownReceiptCount v <= shownDeliveredCount v).
Proof.
  intros Ha p' v Hv.
  destruct (loadData_success_page rt env w result Ha) as (_ & _ & Hs & Hp & _).
  fold p' in Hs, Hp.
  set (records := content result) in *.
  assert (G : (countIf (fun r => ToBoolean (hasReceipt r) && isFalse (isDelivered r)) records
               <= countIf (fun r => ToBoolean (hasReceipt r)) records)%nat).
  { apply countIf_mono. intros r Hr. apply andb_true_iff in Hr. tauto. }
  unfold renderReceiptWarning, ReceiptWarning in Hv.
  rewrite Hs, Hp in *. cbn [receiptCount deliveredCount] in *.
  set (r := Z.of_nat (countIf (fun r => ToBoolean (hasReceipt r)) records)) in *.
  set (d := Z.of_nat (countIf (fun r => ToBoolean (isDelivered r)) records)) in *.
  set (p := Z.of_nat (countIf (fun r => ToBoolean (hasReceipt r) && isFalse (isDelivered r))
                        records)) in *.
  assert (Hpr : 0 <= p <= r) by (subst p r; lia).
  assert (Hd : 0 <= d) by (subst d; lia).
  destruct (Z.ltb_spec 0 p) as [Hp0 | Hp0]; destruct (Z.ltb_spec d r) as [Hdr | Hdr];
    cbn in Hv; try discriminate; injection Hv as <-; cbn;
    repeat split; intros; try discriminate; try lia;
    match goal with
    | H : Some _ = Some _ |- _ => injection H as <-; lia
    end.
Qed.

Lemma receipt_banner_figures_witness :
  renderReceiptWarning (page (exec (loadData refRuntime (envWith scenarioB)) initialWorld))
  = Some (mkWarningView (Some 1) 1 1 0) /\
  shownOffSystemCount (mkWarningView (Some 1) 1 1 0) = Z.max 0 (1 - 1).
Proof.
  split; [reflexivity |].
  apply (receipt_banner_figures refRuntime (envWith scenarioB) initialWorld
           (mkFetchResult scenarioB 3) eq_refl (mkWarningView (Some 1) 1 1 0) eq_refl).
Defined.

End ApiFacts.

(** ** The table, continued *)

Section TableMore.
Import ShippingTable Props More.

Lemma run_app es1 es2 t : run (es1 ++ es2)%list t = run es2 (run es1 t).
Proof.
  revert t. induction es1 as [| e es1 IH]; intros t; [reflexivity |]. cbn. apply IH.
Qed.

Lemma frames_advance k : forall t el h,
  containerRef t = Some el -> shouldScrollRef t = true -> frames t = [h] ->
  Z.of_nat k <= Z.max 0 (framesToGo el) ->
  let tk := run (repeat Frame k) t in
  containerRef tk
    = Some (mkElement (scrollTop el + Z.of_nat k) (scrollHeight el) (clientHeight el)) /\
  shouldScrollRef tk = true /\
  (exists h', frames tk = [h']) /\
  refreshCalls tk = refreshCalls t /\
  props tk = props t /\
  isAtBottom tk = isAtBottom t.
Proof.
  induction k as [| k IH]; intros t el h Hc Hs Hf Hk tk.
  - subst tk. cbn. rewrite Hc, Z.add_0_r. destruct el. repeat split; eauto.
  - subst tk. cbn [repeat run].
    assert (Hnot : atThreshold el = false).
    { unfold atThreshold. apply Z.leb_gt. unfold framesToGo in Hk. lia. }
    set (el' := mkElement (scrollTop el + SCROLL_SPEED) (scrollHeight el) (clientHeight el)).
    assert (Hstep : containerRef (step Frame t) = Some el' /\
                    shouldScrollRef (step Frame t) = true /\
                    frames (step Frame t) = [nextFrame t] /\
                    refreshCalls (step Frame t) = refreshCalls t /\
                    props (step Frame t) = props t /\
                    isAtBottom (step Frame t) = isAtBottom t).
    { cbn [step]. rewrite Hf. unfold animate. cbn. rewrite Hc, Hs. cbn.
      rewrite Hnot. cbn. now repeat split. }
    destruct Hstep as (Hc' & Hs' & Hf' & Hr' & Hp' & Hb').
    destruct (IH (step Frame t) el' (nextFrame t) Hc' Hs' Hf') as (A & B & C & D & E & F).
    { unfold framesToGo, el', SCROLL_SPEED in *. cbn. lia. }
    repeat split; trivial; try congruence.
    rewrite A. unfold el', SCROLL_SPEED. cbn. f_equal. f_equal. lia.
Qed.

(** X21.  From a state with a container, scrolling allowed and one frame
    pending, the callback is not called during the first [n] frames, where
    [n] is the distance between the scroll offset and the threshold
    ([scrollHeight - clientHeight - 50]), or 0 if it is already reached;
    frame [n + 1] calls it once (if it is passed), stops the scrolling,
    raises the bottom banner and leaves no frame pending, the container
    having moved by [n] pixels. *)
Theorem frames_until_bottom t el h :
  containerRef t = Some el -> shouldScrollRef t = true -> frames t = [h] ->
  let n := Z.to_nat (Z.max 0 (framesToGo el)) in
  (forall k, (k <= n)%nat ->
     refreshCalls (run (repeat Frame k) t) = refreshCalls t /\
     shouldScrollRef (run (repeat Frame k) t) = true) /\
  let t' := run (repeat Frame (S n)) t in
  refreshCalls t' = (if onRefresh (props t) then S (refreshCalls t) else refreshCalls t) /\
  shouldScrollRef t' = false /\
  isAtBottom t' = true /\
  frames t' = [] /\
  containerRef t'
    = Some (mkElement (scrollTop el + Z.of_nat n) (scrollHeight el) (clientHeight el)).
Proof.
  intros Hc Hs Hf n. split.
  - intros k Hk.
    destruct (frames_advance k t el h Hc Hs Hf) as (_ & B & _ & D & _); [lia |].
    now split.
  - intros t'.
    destruct (frames_advance n t el h Hc Hs Hf) as (A & B & (h' & C) & D & E & _); [lia |].
    assert (Et : t' = step Frame (run (repeat Frame n) t)).
    { subst t'. change (repeat Frame (S n)) with (Frame :: repeat Frame n).
      now rewrite repeat_cons, run_app. }
    set (tn := run (repeat Frame n) t) in *.
    assert (Hat : atThreshold
                    (mkElement (scrollTop el + Z.of_nat n) (scrollHeight el) (clientHeight el))
                  = true).
    { unfold atThreshold. cbn. apply Z.leb_le. unfold framesToGo in n. lia. }
    rewrite Et. cbn [step]. rewrite C. unfold animate. cbn. rewrite A, B. cbn.
    rewrite Hat. unfold reachBottom. cbn. rewrite E, D. now repeat split.
Qed.

Lemma frames_until_bottom_witness :
  let t := mount sampleProps 400 300 in
  refreshCalls (run (repeat Frame 50) t) = O /\
  refreshCalls (run (repeat Frame 51) t) = 1%nat.
Proof.
  intros t.
  assert (Hc : containerRef t = Some (mkElement 0 400 300)) by reflexivity.
  assert (Hs : shouldScrollRef t = true) by reflexivity.
  assert (Hf : frames t = [1]) by reflexivity.
  destruct (frames_until_bottom t (mkElement 0 400 300) 1 Hc Hs Hf) as [Hbefore Hafter].
  split.
  - apply (Hbefore 50%nat). vm_compute. lia.
  - apply Hafter.
Defined.

(** *** Invariants of the table *)

Lemma reachBottom_flags t : flagsAgree (reachBottom t).
Proof. now split. Qed.

Lemma handleScroll_flags t : flagsAgree t -> flagsAgree (handleScroll t).
Proof.
  intros H. destruct (handleScroll_cases t) as [-> | [_ ->]];
    [exact H | apply reachBottom_flags].
Qed.

Lemma step_flags e t : flagsAgree t -> flagsAgree (step e t).
Proof.
  intros H. destruct e as [p sh ch | | | top | sh ch]; cbn [step].
  - assert (H1 : flagsAgree (cleanup (commit p sh ch t))).
    { unfold cleanup, cancelCurrent.
      destruct (hasCleanup (commit p sh ch t)); [| exact H].
      destruct (truthyHandle (scrollRef (commit p sh ch t))); exact H. }
    unfold effect.
    destruct (negb (autoScroll (props (cleanup (commit p sh ch t))))
              || (List.length (orders (props (cleanup (commit p sh ch t)))) =? 0)%nat);
      [exact H1 | now split].
  - destruct (frames t) as [| h rest]; [exact H |].
    unfold animate, flagsAgree in *. cbn.
    destruct (containerRef t) as [el |]; [| exact H].
    destruct (shouldScrollRef t) eqn:Hs; cbn; [| exact H].
    destruct (atThreshold el); [now split |]. cbn. exact H.
  - now apply handleScroll_flags.
  - destruct (containerRef t) as [el |]; [| exact H].
    apply handleScroll_flags. exact H.
  - destruct (containerRef t) as [el |]; exact H.
Qed.

Lemma mount_flags p sh ch : flagsAgree (mount p sh ch).
Proof.
  unfold mount, effect.
  match goal with |- context [if ?c then _ else _] => destruct c end; now split.
Qed.

Lemma run_flags es : forall t, flagsAgree t -> flagsAgree (run es t).
Proof.
  induction es as [| e es IH]; intros t H; [exact H |].
  cbn. apply IH. now apply step_flags.
Qed.

Lemma run_wf es : forall t, wf t -> wf (run es t).
Proof.
  induction es as [| e es IH]; intros t H; [exact H |].
  cbn. apply IH. now apply step_wf.
Qed.

(** X22.  In every state a mounted table can reach, the bottom banner is shown
    exactly when scrolling is stopped: [isAtBottom], [isAtBottomRef] and
    the negation of [shouldScrollRef] are equal; the empty state is
    rendered if and only if there is no order, and otherwise one row per
    order. *)
Theorem bottom_banner_iff_stopped p sh ch es :
  let t := run es (mount p sh ch) in
  isAtBottom t = negb (shouldScrollRef t) /\
  isAtBottomRef t = isAtBottom t /\
  (render t = EmptyState <-> orders (props t) = []) /\
  (forall n b, render t = Rows n b ->
     n = List.length (orders (props t)) /\ b = negb (shouldScrollRef t)).
Proof.
  intros t.
  destruct (run_flags es (mount p sh ch) (mount_flags p sh ch)) as [H1 H2]. fold t in H1, H2.
  split; [exact H2 |]. split; [now symmetry |]. unfold render.
  destruct (orders (props t)) as [| o os] eqn:Ho; cbn.
  - split; [now split | intros n b Hr; discriminate].
  - split; [split; discriminate |].
    intros n b Hr. injection Hr as <- <-. now split.
Qed.

Lemma update_refreshCalls p sh ch t :
  refreshCalls (step (Update p sh ch) t) = refreshCalls t /\
  (resets (Update p sh ch) = false ->
     shouldScrollRef (step (Update p sh ch) t) = shouldScrollRef t) /\
  (resets (Update p sh ch) = true -> shouldScrollRef (step (Update p sh ch) t) = true).
Proof.
  cbn [step resets]. rewrite cleanup_commit.
  assert (Hc : refreshCalls (cleanup t) = refreshCalls t /\
               shouldScrollRef (cleanup t) = shouldScrollRef t).
  { unfold cleanup, cancelCurrent. destruct (hasCleanup t); [| now split].
    destruct (truthyHandle (scrollRef t)); now split. }
  destruct Hc as [Hc Hs].
  set (t1 := commit p sh ch (cleanup t)).
  assert (Hc1 : refreshCalls t1 = refreshCalls t) by exact Hc.
  assert (Hs1 : shouldScrollRef t1 = shouldScrollRef t) by exact Hs.
  assert (Hp1 : props t1 = p) by reflexivity.
  unfold effect. rewrite Hp1.
  destruct (autoScroll p); destruct (List.length (orders p) =? 0)%nat; cbn;
    repeat split; trivial; try discriminate;
    unfold cancelCurrent; destruct (truthyHandle (scrollRef t1)); trivial.
Qed.

Lemma run_budget es : forall t,
  (refreshCalls (run es t) + budget (run es t)
   <= refreshCalls t + budget t + countResets es)%nat.
Proof.
  induction es as [| e es IH]; intros t; [cbn; lia |].
  cbn [run countResets]. specialize (IH (step e t)).
  assert (Hstep : (refreshCalls (step e t) + budget (step e t)
                   <= refreshCalls t + budget t + (if resets e then 1 else 0))%nat).
  { destruct (isUpdate e) eqn:He.
    - destruct e as [p sh ch | | | top | sh ch]; try discriminate.
      destruct (update_refreshCalls p sh ch t) as (Hc & Hkeep & Hset).
      rewrite Hc. unfold budget. destruct (resets (Update p sh ch)).
      + destruct (shouldScrollRef (step (Update p sh ch) t)), (shouldScrollRef t); lia.
      + rewrite (Hkeep eq_refl). lia.
    - destruct (step_calls e t He) as (Hb & Hfire & Hstop).
      assert (Hr : resets e = false) by (destruct e; trivial; discriminate).
      rewrite Hr. unfold budget.
      destruct (shouldScrollRef t) eqn:Hs.
      + destruct (Nat.eq_dec (refreshCalls (step e t)) (refreshCalls t)) as [E | N].
        * rewrite E. destruct (shouldScrollRef (step e t)); lia.
        * rewrite (Hfire N). lia.
      + destruct (Hstop eq_refl) as [Hs' Hc']. rewrite Hs', Hc'. lia. }
  destruct (resets e); lia.
Qed.

Lemma update_clears_frames p sh ch t :
  wf t -> autoScroll p = false \/ orders p = [] ->
  frames (step (Update p sh ch) t) = [].
Proof.
  intros Hwf Hoff. cbn [step]. rewrite cleanup_commit.
  assert (Hf : frames (cleanup t) = []).
  { unfold cleanup. destruct (hasCleanup t) eqn:Hc.
    - now apply cancelCurrent_wf.
    - now apply wf_frames_cases. }
  set (t1 := commit p sh ch (cleanup t)).
  assert (Hf1 : frames t1 = []) by exact Hf.
  assert (Hp1 : props t1 = p) by reflexivity.
  unfold effect. rewrite Hp1.
  destruct Hoff as [Ha | Ho].
  - rewrite Ha. cbn. exact Hf1.
  - rewrite Ho. cbn. rewrite orb_true_r. exact Hf1.
Qed.

(** X23.  In every state a mounted table can reach, at most one animation
    frame is pending and it is the one [scrollRef] names; a render with
    auto-scroll off or with no order leaves none pending. *)
Theorem at_most_one_pending_frame p sh ch es :
  let t := run es (mount p sh ch) in
  (List.length (frames t) <= 1)%nat /\
  (forall h, In h (frames t) -> scrollRef t = Some h /\ h <> 0) /\
  (forall p' sh' ch', autoScroll p' = false \/ orders p' = [] ->
     frames (step (Update p' sh' ch') t) = []).
Proof.
  intros t. pose proof (run_wf es (mount p sh ch) (mount_wf p sh ch)) as Hwf. fold t in Hwf.
  split; [| split].
  - destruct Hwf as [_ [Hf | (h & Hf & _)]]; rewrite Hf; cbn; lia.
  - intros h Hin. destruct Hwf as [_ [Hf | (h' & Hf & Hr & Hh & _)]]; rewrite Hf in Hin.
    + destruct Hin.
    + destruct Hin as [<- | []]. now split.
  - intros p' sh' ch' Hoff. now apply update_clears_frames.
Qed.

(** X24.  Over any sequence of events, [onRefresh] is called at most once more
    than the number of renders that restart the cycle (auto-scroll on and
    orders present); from a state where scrolling is stopped, at most that
    number of times. *)
Theorem refresh_calls_budget es t :
  (refreshCalls (run es t) <= refreshCalls t + 1 + countResets es)%nat /\
  (forall p sh ch,
     (refreshCalls (run es (mount p sh ch)) <= 1 + countResets es)%nat) /\
  (shouldScrollRef t = false ->
     (refreshCalls (run es t) <= refreshCalls t + countResets es)%nat).
Proof.
  pose proof (run_budget es t) as H. unfold budget in H.
  split; [| split].
  - destruct (shouldScrollRef (run es t)), (shouldScrollRef t); lia.
  - intros p sh ch. pose proof (run_budget es (mount p sh ch)) as Hm. unfold budget in Hm.
    assert (Hz : refreshCalls (mount p sh ch) = O).
    { unfold mount, effect.
      match goal with |- context [if ?c then _ else _] => destruct c end; reflexivity. }
    rewrite Hz in Hm.
    destruct (shouldScrollRef (run es (mount p sh ch))), (shouldScrollRef (mount p sh ch)); lia.
  - intros Hs. rewrite Hs in H. destruct (shouldScrollRef (run es t)); lia.
Qed.

End TableMore.

(** ** The chart and the countdown *)

Section TrendsFacts.
Import Js Props More Trends.

Lemma beforeFirst_append sep a b :
  noChar sep a = true -> beforeFirst sep (a ++ b) = (a ++ beforeFirst sep b)%string.
Proof.
  induction a as [| c a IH]; [reflexivity |].
  unfold noChar. cbn. intros H. apply andb_true_iff in H. destruct H as [H1 H2].
  apply negb_true_iff in H1. rewrite H1. now rewrite (IH H2).
Qed.

Lemma beforeFirst_none sep a : noChar sep a = true -> beforeFirst sep a = a.
Proof.
  induction a as [| c a IH]; [reflexivity |].
  unfold noChar. cbn. intros H. apply andb_true_iff in H. destruct H as [H1 H2].
  apply negb_true_iff in H1. rewrite H1. now rewrite (IH H2).
Qed.

Lemma beforeFirst_clean sep s : noChar sep (beforeFirst sep s) = true.
Proof.
  induction s as [| c s IH]; [reflexivity |].
  cbn. destruct (Ascii.eqb c sep) eqn:E; [reflexivity |].
  unfold noChar in *. cbn. now rewrite E, IH.
Qed.

Lemma beforeFirst_keeps x sep s : noChar x s = true -> noChar x (beforeFirst sep s) = true.
Proof.
  induction s as [| c s IH]; [reflexivity |].
  unfold noChar. cbn. intros H. apply andb_true_iff in H. destruct H as [H1 H2].
  destruct (Ascii.eqb c sep); [reflexivity |]. cbn. rewrite H1. now apply IH.
Qed.

(** X25.  [formatApiDateTime] returns the text before the first space or
    [T]: a date with neither comes back unchanged, also when a time
    follows it after a space or a [T]; the result never holds a space or a
    [T], and formatting it again changes nothing. *)
Theorem formatApiDateTime_date_part (d rest : string) :
  noChar " " d = true -> noChar "T" d = true ->
  formatApiDateTime d = d /\
  formatApiDateTime (d ++ " " ++ rest) = d /\
  formatApiDateTime (d ++ "T" ++ rest) = d /\
  forall s, noChar " " (formatApiDateTime s) = true /\
            noChar "T" (formatApiDateTime s) = true /\
            formatApiDateTime (formatApiDateTime s) = formatApiDateTime s.
Proof.
  intros Hs Ht.
  assert (Hgen : forall s, formatApiDateTime s = beforeFirst "T" (beforeFirst " " s)).
  { intros s. unfold formatApiDateTime. now destruct s. }
  assert (Hclean : forall s, noChar " " (formatApiDateTime s) = true /\
                             noChar "T" (formatApiDateTime s) = true).
  { intros s. rewrite Hgen. split.
    - apply beforeFirst_keeps, beforeFirst_clean.
    - apply beforeFirst_clean. }
  assert (Hid : forall x, noChar " " x = true -> noChar "T" x = true ->
                          formatApiDateTime x = x).
  { intros x H1 H2. rewrite Hgen. now rewrite (beforeFirst_none " " x H1), beforeFirst_none. }
  split; [now apply Hid |]. split; [| split].
  - rewrite Hgen, (beforeFirst_append " " d _ Hs). cbn. rewrite append_empty_r.
    now apply beforeFirst_none.
  - rewrite Hgen, (beforeFirst_append " " d _ Hs).
    rewrite (beforeFirst_append "T" d _ Ht). cbn. apply append_empty_r.
  - intros s. destruct (Hclean s) as [H1 H2]. repeat split; trivial. now apply Hid.
Qed.

Lemma formatApiDateTime_date_part_witness :
  formatApiDateTime "2026-02-10 17:28:29" = "2026-02-10" /\
  formatApiDateTime "2026-02-10T08:30:00" = "2026-02-10".
Proof.
  destruct (formatApiDateTime_date_part "2026-02-10" "17:28:29" eq_refl eq_refl)
    as (_ & H1 & _).
  destruct (formatApiDateTime_date_part "2026-02-10" "08:30:00" eq_refl eq_refl)
    as (_ & _ & H2 & _).
  split; [exact H1 | exact H2].
Defined.

(** *** The count map *)

Lemma lookup_assign m k c k' :
  lookup (assign m k c) k' = if String.eqb k k' then Some c else lookup m k'.
Proof.
  induction m as [| [k0 c0] m IH]; cbn.
  - reflexivity.
  - destruct (String.eqb_spec k0 k) as [-> | N]; cbn.
    + destruct (String.eqb k k'); reflexivity.
    + rewrite IH. destruct (String.eqb_spec k0 k') as [-> | N'].
      * apply String.eqb_neq in N. rewrite String.eqb_sym in N. now rewrite N.
      * reflexivity.
Qed.

Lemma lookup_initMap days : forall m d,
  lookup (initMap days m) d
  = if existsb (String.eqb d) days then Some (mkCount 0 0) else lookup m d.
Proof.
  induction days as [| d0 days IH]; intros m d; [reflexivity |].
  cbn [initMap existsb]. rewrite IH, lookup_assign.
  rewrite (String.eqb_sym d d0).
  destruct (existsb (String.eqb d) days); [now rewrite orb_true_r |].
  now rewrite orb_false_r.
Qed.

Lemma lookup_countItem m item d :
  lookup (countItem m item) d = option_map (bump d item) (lookup m d).
Proof.
  unfold countItem, bump, onDay.
  set (itemDate := formatApiDateTime (DispatchPage.orString (gmtCreate item) "")).
  destruct (lookup m itemDate) as [c |] eqn:E.
  - rewrite lookup_assign. destruct (String.eqb_spec itemDate d) as [<- | N].
    + rewrite E. cbn. now destruct (isTrue (isDelivered item)).
    + now destruct (lookup m d).
  - destruct (String.eqb_spec itemDate d) as [<- | N].
    + now rewrite E.
    + now destruct (lookup m d).
Qed.

Lemma lookup_fold items : forall m d,
  lookup (fold_left countItem items m) d
  = option_map
      (fun c => mkCount
                  (total c + Z.of_nat (countIf (onDay d) items))
                  (shipped c
                   + Z.of_nat (countIf (fun it => onDay d it && isTrue (isDelivered it)) items)))
      (lookup m d).
Proof.
  induction items as [| item items IH]; intros m d.
  - cbn. destruct (lookup m d) as [[t s] |]; cbn; [| reflexivity].
    now rewrite !Z.add_0_r.
  - cbn [fold_left]. rewrite IH, lookup_countItem.
    destruct (lookup m d) as [c |]; [| reflexivity].
    cbn [option_map countIf]. unfold bump.
    destruct (onDay d item); cbn [andb total shipped].
    + destruct (isTrue (isDelivered item)); cbn [total shipped]; f_equal; f_equal; lia.
    + reflexivity.
Qed.

(** X26.  The chart has one entry per day of [last7Days], in order; its total
    is the number of items whose creation date is that day and its shipped
    count the number of those whose [isDelivered] is exactly [true]; so
    shipped is between 0 and the total, the total is at most the number of
    items, and items of other days or with no creation time count
    nowhere. *)
Theorem allFlights_counts getWeekday (last7Days : list string) (allItems : list Item) :
  allFlights getWeekday last7Days allItems
  = map (fun d =>
           mkTrendData d (getWeekday d)
             (Z.of_nat (countIf (onDay d) allItems))
             (Z.of_nat (countIf (fun it => onDay d it && isTrue (isDelivered it)) allItems)))
        last7Days /\
  (forall e, In e (allFlights getWeekday last7Days allItems) ->
     0 <= td_shipped e <= td_total e /\ td_total e <= Z.of_nat (List.length allItems)).
Proof.
  assert (E : allFlights getWeekday last7Days allItems
              = map (fun d =>
                       mkTrendData d (getWeekday d)
                         (Z.of_nat (countIf (onDay d) allItems))
                         (Z.of_nat (countIf (fun it => onDay d it && isTrue (isDelivered it))
                                      allItems)))
                    last7Days).
  { unfold allFlights. apply map_ext_in. intros d Hin.
    rewrite lookup_fold, lookup_initMap.
    assert (Hex : existsb (String.eqb d) last7Days = true).
    { apply existsb_exists. exists d. split; [exact Hin | apply String.eqb_refl]. }
    rewrite Hex. reflexivity. }
  split; [exact E |].
  intros e Hin. rewrite E in Hin. apply in_map_iff in Hin. destruct Hin as (d & <- & _).
  cbn.
  pose proof (countIf_mono (fun it => onDay d it && isTrue (isDelivered it)) (onDay d)
                allItems) as H1.
  pose proof (countIf_le_length (onDay d) allItems) as H2.
  assert (H1' : (countIf (fun it => onDay d it && isTrue (isDelivered it)) allItems
                 <= countIf (onDay d) allItems)%nat).
  { apply H1. intros x Hx. apply andb_true_iff in Hx. tauto. }
  lia.
Qed.

End TrendsFacts.

Section CountdownFacts.

Lemma countdown_after n : forall c,
  1 <= c <= 60 ->
  App.run (repeat App.Second n) c = (c - 1 - Z.of_nat n) mod 60 + 1.
Proof.
  induction n as [| n IH]; intros c Hc.
  - cbn. rewrite Z.sub_0_r, Z.mod_small; lia.
  - cbn [repeat App.run App.step]. unfold App.tick.
    destruct (Z.leb_spec c 1) as [H1 | H1].
    + rewrite IH by lia. assert (c = 1) by lia. subst c.
      replace (60 - 1 - Z.of_nat n) with (1 - 1 - Z.of_nat (S n) + 1 * 60) by lia.
      now rewrite Z.mod_add.
    + rewrite IH by lia. f_equal. f_equal. lia.
Qed.

Lemma countdown_range es : forall c, 1 <= c <= 60 -> 1 <= App.run es c <= 60.
Proof.
  induction es as [| e es IH]; intros c Hc; [exact Hc |].
  cbn [App.run]. apply IH. destruct e; cbn; [| lia].
  unfold App.tick. destruct (Z.leb_spec c 1); lia.
Qed.

(** X27.  The countdown of the older page always shows a value from 1 to 60:
    [n] seconds after the start, or after any reload, it shows
    [60 - n mod 60], going from 1 back to 60 without showing 0. *)
Theorem countdown_cycle :
  (forall es, 1 <= App.run es App.initialCountdown <= 60) /\
  (forall n, App.run (repeat App.Second n) App.initialCountdown
             = 60 - Z.of_nat n mod 60) /\
  (forall es n,
     App.run (es ++ App.Reload :: repeat App.Second n) App.initialCountdown
     = 60 - Z.of_nat n mod 60).
Proof.
  assert (Hfrom60 : forall n, App.run (repeat App.Second n) 60 = 60 - Z.of_nat n mod 60).
  { intros n. rewrite countdown_after by lia.
    pose proof (Z.mod_pos_bound (Z.of_nat n) 60 eq_refl) as Hb.
    pose proof (Z.div_mod (Z.of_nat n) 60) as Hd.
    replace (60 - 1 - Z.of_nat n)
      with (59 - Z.of_nat n mod 60 + (- (Z.of_nat n / 60)) * 60) by lia.
    rewrite Z.mod_add by lia. rewrite Z.mod_small; lia. }
  split; [| split].
  - intros es. apply countdown_range. unfold App.initialCountdown. lia.
  - exact Hfrom60.
  - intros es n.
    assert (Happ : forall es1 es2 c, App.run (es1 ++ es2)%list c = App.run es2 (App.run es1 c)).
    { induction es1 as [| e es1 IH]; intros es2 c; [reflexivity |]. cbn. apply IH. }
    rewrite Happ. cbn [App.run App.step]. apply Hfrom60.
Qed.

End CountdownFacts.

(** ** The completion rate *)

Section MetricsFacts.
Import Js DispatchPage Props More.

Lemma allPercentOk_100 : allPercentOk 100 = true.
Proof. vm_compute. reflexivity. Qed.

Lemma allPercentOk_spec (n : nat) :
  allPercentOk n = true ->
  forall part whole : nat,
    (1 <= whole < 1 + n)%nat -> (part <= whole)%nat ->
    percentOk (Z.of_nat part) (Z.of_nat whole) = true.
Proof.
  unfold allPercentOk. intros H part whole Hw Hp.
  rewrite forallb_forall in H.
  assert (Hin : In whole (seq 1 n)) by (apply in_seq; lia).
  pose proof (H whole Hin) as H1.
  rewrite forallb_forall in H1.
  apply H1. apply in_seq. lia.
Qed.

Lemma percentOk_range part whole :
  0 <= part <= whole -> 0 < whole <= 100 -> percentOk part whole = true.
Proof.
  intros Hp Hw.
  rewrite <- (Z2Nat.id part), <- (Z2Nat.id whole) by lia.
  apply (allPercentOk_spec 100 allPercentOk_100); lia.
Qed.

(** X28.  After a successful [loadData] of at most 100 records, the completion
    rate is 0 when there is no record and otherwise a whole number from 0
    to 100 that is the exactly rounded percentage (halves upwards) or, only
    when the exact percentage lies half-way between two integers, one
    less; the latter happens: 23 of 40 shows 57, not 58, because the
    quotient is rounded to a double before it is multiplied by 100. *)
Theorem completionRate_rounding rt env w result :
  fetchDispatchBoard env (loadDataParams (Date_now env)) = inr result ->
  (List.length (content result) <= 100)%nat ->
  let s := summary (page (exec (loadData rt env) w)) in
  let exact := exactPercent (deliveredCount s) (totalCount s) in
  (content result = [] -> Metrics.completionRate s = Some 0) /\
  (content result <> [] ->
     exists r, Metrics.completionRate s = Some r /\
               0 <= r <= 100 /\
               exact - 1 <= r <= exact /\
               (tie (deliveredCount s) (totalCount s) = false -> r = exact)) /\
  Metrics.percent 23 40 = Some 57 /\ exactPercent 23 40 = 58.
Proof.
  intros Ha Hlen s exact.
  destruct (loadData_success_page rt env w result Ha) as (_ & _ & Hs & _).
  fold s in Hs.
  pose proof (countIf_le_length (fun r => ToBoolean (isDelivered r)) (content result)) as Hd.
  split; [| split; [| split; vm_compute; reflexivity]].
  - intros Hc. rewrite Hs, Hc. reflexivity.
  - intros Hc.
    assert (Hpos : (0 < List.length (content result))%nat).
    { destruct (content result); [now destruct Hc | cbn; lia]. }
    assert (Hok : percentOk (deliveredCount s) (totalCount s) = true).
    { rewrite Hs. cbn [deliveredCount totalCount]. apply percentOk_range; lia. }
    unfold percentOk in Hok. unfold Metrics.completionRate.
    destruct (Metrics.percent (deliveredCount s) (totalCount s)) as [r |]; [| discriminate].
    exists r. split; [reflexivity |].
    apply andb_true_iff in Hok. destruct Hok as [Hrange Hnear].
    apply andb_true_iff in Hrange. destruct Hrange as [H0 H100].
    apply Z.leb_le in H0, H100. fold exact in Hnear.
    apply orb_true_iff in Hnear.
    destruct Hnear as [He | Ht].
    + apply Z.eqb_eq in He. repeat split; lia.
    + apply andb_true_iff in Ht. destruct Ht as [He Ht]. apply Z.eqb_eq in He.
      repeat split; try lia. intros Hno. congruence.
Qed.

Lemma completionRate_rounding_witness :
  exists r,
    Metrics.completionRate
      (summary (page (exec (loadData refRuntime (envWith scenarioB)) initialWorld)))
    = Some r /\ 0 <= r <= 100.
Proof.
  assert (Ha : fetchDispatchBoard (envWith scenarioB)
                 (loadDataParams (Date_now (envWith scenarioB)))
               = inr (mkFetchResult scenarioB 3)) by reflexivity.
  assert (Hlen : (List.length (content (mkFetchResult scenarioB 3)) <= 100)%nat)
    by (vm_compute; lia).
  destruct (completionRate_rounding refRuntime (envWith scenarioB) initialWorld
              (mkFetchResult scenarioB 3) Ha Hlen) as (_ & H & _).
  destruct H as (r & Hr & Hb & _); [discriminate |].
  exists r. split; [exact Hr | exact Hb].
Defined.

End MetricsFacts.

(** ** The factory lookup *)

Section FactoryUrlFacts.
Import Js DispatchPage Props HttpUrl More.

Lemma resolveFactoryCode_nonempty ps envCode : resolveFactoryCode ps envCode <> "".
Proof.
  unfold resolveFactoryCode.
  set (trimmed := if truthyString (factoryCodeFromUrl ps)
                  then match factoryCodeFromUrl ps with
                       | Some s => Some (trim s)
                       | None => None
                       end
                  else factoryCodeFromUrl ps).
  assert (Hor : forall o, truthyString o = true -> orString o "" <> "").
  { intros [s |]; cbn; [| discriminate].
    destruct (String.eqb_spec s ""); [discriminate | trivial]. }
  destruct (truthyString trimmed) eqn:Ht; [now apply Hor |].
  destruct (truthyString envCode) eqn:He; [now apply Hor | discriminate].
Qed.

(** X29.  The URL of [getInfoByFactoryCodeApi] is the base URL, the fixed
    path and the query [factoryCode=<encoded code>]; reading that query
    back gives the one entry [factoryCode] with the code [loadFactoryInfo]
    resolved, whatever characters it holds, and that code is never empty. *)
Theorem getInfoUrl_carries_code (API_BASE_URL : string) ps envCode :
  let code := resolveFactoryCode ps envCode in
  let query := ("factoryCode=" ++ encodeURIComponent code)%string in
  Api.getInfoUrl API_BASE_URL code = (API_BASE_URL ++ Api.getInfoPath ++ "?" ++ query)%string /\
  readQuery query = [("factoryCode", code)] /\
  allChars isQueryChar query = true /\
  code <> "".
Proof.
  intros code query.
  assert (Hq : query = part refRuntime "factoryCode" (SString code)) by reflexivity.
  split; [reflexivity |]. split; [| split].
  - unfold readQuery. rewrite Hq.
    assert (Hne : String.eqb (part refRuntime "factoryCode" (SString code)) "" = false)
      by reflexivity.
    rewrite Hne, (splitOn_nosep _ _ (part_no_amp _ _ _)). cbn [map].
    now rewrite readPart_part.
  - rewrite Hq. apply part_chars.
  - apply resolveFactoryCode_nonempty.
Qed.

End FactoryUrlFacts.

(** ** The page and its table *)

Section BoardFacts.
Import Js DispatchPage Props More.

(** X30.  After a [loadData] from a state the page can reach, with the table
    rendered on the new orders: if the fetch succeeded with no record, the
    polling timer is armed and the table shows the empty state with no
    frame pending; if it succeeded with records, no interval timer is armed
    and the table has restarted its cycle with one frame pending; if it
    failed while the page held no order and no timer, nothing is scheduled
    and no later event of the table calls [onRefresh]: the board stays as
    it is until something else renders it with orders. *)
Theorem next_refresh_scheduled rt env w (t : ShippingTable.Table) sh ch :
  reachable rt w -> ShippingTable.wf t ->
  let w' := exec (loadData rt env) w in
  let t' := ShippingTable.step (ShippingTable.Update (tableProps (page w')) sh ch) t in
  (forall result,
     fetchDispatchBoard env (loadDataParams (Date_now env)) = inr result ->
     (content result = [] ->
        armed w' /\ ShippingTable.render t' = ShippingTable.EmptyState /\
        ShippingTable.frames t' = []) /\
     (content result <> [] ->
        intervals w' = [] /\ ShippingTable.shouldScrollRef t' = true /\
        exists h, ShippingTable.frames t' = [h])) /\
  (forall e,
     fetchDispatchBoard env (loadDataParams (Date_now env)) = inl e ->
     orders (page w) = [] -> intervals w = [] ->
     intervals w' = [] /\ ShippingTable.frames t' = [] /\
     forall es, noUpdate es = true ->
       ShippingTable.refreshCalls (ShippingTable.run es t') = ShippingTable.refreshCalls t).
Proof.
  intros Hreach Hwf w' t'.
  pose proof (reachable_timerInv rt w Hreach) as Hinv.
  split.
  - intros result Ha.
    destruct (loadData_success_page rt env w result Ha) as (Ho & _).
    destruct (loadData_success_timer rt env w result Hinv Ha) as [Hempty Hdata].
    fold w' in Ho, Hempty, Hdata.
    split; intros Hc.
    + destruct (Hempty Hc) as (Hi & Hr & _).
      assert (Hp : ShippingTable.orders (tableProps (page w')) = []).
      { unfold tableProps. cbn. rewrite Ho, Hc. reflexivity. }
      destruct (empty_update_idle (tableProps (page w')) sh ch t Hwf Hp)
        as (_ & Hf & Hrender & _).
      split; [eexists; split; eassumption |]. now split.
    + destruct (Hdata Hc) as (Hi & _).
      assert (Hp : ShippingTable.orders (tableProps (page w')) <> []).
      { unfold tableProps. cbn. rewrite Ho.
        destruct (content result); [now destruct Hc | discriminate]. }
      destruct (update_starts_cycle (tableProps (page w')) sh ch t Hwf Hp eq_refl)
        as (Hs & _ & _ & Hf & _).
      now repeat split.
  - intros e Ha Ho Hi.
    assert (Hw' : orders (page w') = [] /\ intervals w' = []).
    { subst w'. unfold exec. rewrite (loadData_failure rt env w e Ha). cbn. now split. }
    destruct Hw' as [Ho' Hi'].
    assert (Hp : ShippingTable.orders (tableProps (page w')) = []).
    { unfold tableProps. cbn. now rewrite Ho'. }
    destruct (empty_update_idle (tableProps (page w')) sh ch t Hwf Hp)
      as (Hc & Hf & _ & Hcalls).
    fold t' in Hc, Hf, Hcalls.
    split; [exact Hi' |]. split; [exact Hf |].
    intros es Hes. now rewrite (idle_table_ignores es t' Hes Hc Hf).
Qed.

Lemma next_refresh_scheduled_witness :
  let w' := exec (loadData refRuntime envFailing) initialWorld in
  let t' := ShippingTable.step (ShippingTable.Update (tableProps (page w')) 400 300)
              (ShippingTable.mount (tableProps initialPage) 400 300) in
  intervals w' = [] /\ ShippingTable.frames t' = [] /\
  ShippingTable.refreshCalls
    (ShippingTable.run [ShippingTable.Frame; ShippingTable.Scroll; ShippingTable.UserScroll 90] t')
  = O.
Proof.
  intros w' t'.
  destruct (next_refresh_scheduled refRuntime envFailing initialWorld
              (ShippingTable.mount (tableProps initialPage) 400 300) 400 300
              (reach_init refRuntime) (mount_wf _ _ _)) as [_ Hfail].
  destruct (Hfail _ eq_refl eq_refl eq_refl) as (H1 & H2 & H3).
  split; [exact H1 |]. split; [exact H2 |].
  apply (H3 [ShippingTable.Frame; ShippingTable.Scroll; ShippingTable.UserScroll 90]).
  reflexivity.
Defined.

End BoardFacts.

(** ** Runs of the model *)

Section Samples.
Import Js Props HttpUrl More.

Example serializeParams_sample :
  serializeParams refRuntime sampleParams = "page=1&q=a%20b%26c&tag=x&tag=true" /\
  getFetchedUrl refRuntime "https://api.example.com" "/orders" (Some sampleParams) None 5 7
  = "https://api.example.com/orders?page=1&q=a%20b%26c&tag=x&tag=true&_t=5&_t=7".
Proof. split; vm_compute; reflexivity. Qed.

Example allFlights_sample :
  map (fun e => (Trends.date e, Trends.td_total e, Trends.td_shipped e))
      (Trends.allFlights (fun _ => None) sampleDays sampleItems)
  = [("2026-02-04", 0, 0); ("2026-02-05", 0, 0); ("2026-02-06", 0, 0);
     ("2026-02-07", 0, 0); ("2026-02-08", 0, 0); ("2026-02-09", 1, 0);
     ("2026-02-10", 2, 1)].
Proof. vm_compute. reflexivity. Qed.

End Samples.
